(** * A trading simulator: the client's portfolio store and the server's routes

    The repository is one file, [tradingsimulator.py]: a Flask server whose
    page embeds the client program (JavaScript).  The client keeps a paper
    portfolio in the browser and trades on it with [buyStock] and
    [sellStock]; the server answers price and chart requests and keeps the
    list [portfolio_history].

    Numbers are IEEE 754 binary64 on both sides (a JavaScript Number, a
    Python float), modelled by Rocq's primitive [float]; Python's integers
    are [Z].  Strings are byte strings and the case conversions act on the
    ASCII letters.

    What the file calls but does not define is a parameter: the answer of
    the server to the page's price lookup, the market-data library, the
    generator of random numbers, the clock, and the drawing of the charts.
    The state of the server is threaded through its routes, and an
    exception is a result.

    The two sides are also put together: [Wire] has the body that the page
    posts as the server reads it and the answer of the price route as the
    page reads it, [Page] the events that change the portfolio, and
    [Service] the requests of the server in order. *)

From Stdlib Require Import ZArith Bool List Ascii String Lia.
From Stdlib Require Import Floats Reals Lra.
From stdpp Require Import base option strings gmap.

Import ListNotations.
Set Warnings "-register-all,-inexact-float".
Local Open Scope string_scope.
Local Open Scope Z_scope.

(** ** Strings *)

(** [toUpperCase] of JavaScript and [str.upper] of Python, on ASCII. *)
Definition upper_ascii (c : ascii) : ascii :=
  let n := nat_of_ascii c in
  if ((97 <=? n) && (n <=? 122))%nat then ascii_of_nat (n - 32) else c.

Fixpoint toUpperCase (s : string) : string :=
  match s with
  | EmptyString => EmptyString
  | String c r => String (upper_ascii c) (toUpperCase r)
  end.

(** ** Binary64

    The operations of the format round to nearest, ties to even
    ([binary_round_aux] of the specification of the primitive floats).
    The definitions below name what the rounding gives and the real number
    that a float stands for. *)

Module Binary64.

(** [num / den] rounded to the nearest integer, ties to even, for a
    positive [den]. *)
Definition div_half_even (n d : Z) : Z :=
  let q := (n / d)%Z in
  match (2 * (n mod d) ?= d)%Z with
  | Lt => q
  | Gt => (q + 1)%Z
  | Eq => if Z.even q then q else (q + 1)%Z
  end.

(** The number of binary digits of a mantissa. *)
Definition digits (p : positive) : Z := Zpos (digits2_pos p).

(** The record after [n >= 1] shifts of [m]. *)
Definition shifted (m n : Z) : shr_record :=
  {| shr_m := m / 2 ^ n;
     shr_r := Z.odd (m / 2 ^ (n - 1));
     shr_s := negb (m mod 2 ^ (n - 1) =? 0) |}.

(** The exponent of the floats of magnitude [2^x]: 53 digits, and no
    exponent below -1074. *)
Definition fexp64 (x : Z) : Z := Z.max (x - 53) (-1074).

(** The float of sign [s] and value [m * 2^e], for a mantissa [m] that the
    rounding gives at the exponent [e]. *)
Definition pack (s : bool) (m e : Z) : spec_float :=
  match m with
  | Zpos q =>
      if m =? 2 ^ 53 then
        if e + 1 <=? 971 then S754_finite s (2 ^ 52) (e + 1) else S754_infinity s
      else
        if e <=? 971 then S754_finite s q e else S754_infinity s
  | _ => S754_zero s
  end.

(** The real numbers [2^e] and [m * 2^e], and the real number of a float
    (0 for the infinities and NaN). *)
Definition bpow (e : Z) : R := powerRZ 2 e.

Definition F2R (m e : Z) : R := (IZR m * bpow e)%R.

Definition B2R (x : spec_float) : R :=
  match x with
  | S754_finite s m e => F2R (cond_Zopp s (Zpos m)) e
  | _ => 0%R
  end.

(** The floats that are a zero or a finite number. *)
Definition SFfinite (x : spec_float) : bool :=
  match x with
  | S754_zero _ | S754_finite _ _ _ => true
  | _ => false
  end.

(** The mantissa at the exponent [fe] nearest to [m * 2^e]. *)
Definition rnd (m e fe : Z) : Z :=
  if e <=? fe then div_half_even m (2 ^ (fe - e)) else m * 2 ^ (e - fe).

(** A float of the format, not an infinity or NaN, between two bounds. *)
Definition enclosed (lo hi z : spec_float) : Prop :=
  valid_binary z = true /\ SFfinite z = true /\ (B2R lo <= B2R z <= B2R hi)%R.

(** The order of two real numbers as a comparison. *)
Definition Rcmp (a b : R) (c : comparison) : Prop :=
  match c with
  | Lt => (a < b)%R
  | Eq => a = b
  | Gt => (b < a)%R
  end.

(** The real number that a primitive float stands for, and the floats that
    stand for one. *)
Definition FV (x : float) : R := B2R (Prim2SF x).

Definition real (x : float) : bool := SFfinite (Prim2SF x).

(** The float nearest to an integer, ties to even; an infinity beyond the
    range. *)
Definition of_Z (z : Z) : float := SF2Prim (binary_normalize prec emax z 0 false).

End Binary64.

(** ** Signs *)

Module Sign.

(** A float that is an infinity or a finite number other than the zeros,
    of the sign [s]. *)
Definition signed (s : bool) (z : spec_float) : Prop :=
  z = S754_infinity s \/ exists q e, z = S754_finite s q e.

(** Not below zero: a zero, a number above zero, or NaN. *)
Definition not_below (x : spec_float) : Prop := SFltb x (S754_zero false) = false.

(** Above zero, or NaN. *)
Definition above (x : spec_float) : Prop := SFleb x (S754_zero false) = false.

End Sign.

(** ** JavaScript numbers *)

Module JS.

Local Open Scope float_scope.

(** [ToBoolean] of a Number: [0], [-0] and [NaN] are false. *)
Definition truthy (x : float) : bool := negb (is_zero x || is_nan x).

(** *** [parseInt] with no radix

    Leading white space (the ASCII one), a sign, [0x] or [0X] for radix
    16, then the longest run of digits; NaN when there is none. *)

Definition is_white (c : ascii) : bool :=
  let n := nat_of_ascii c in
  ((n =? 32) || ((9 <=? n) && (n <=? 13)))%nat.

Fixpoint trim_start (s : string) : string :=
  match s with
  | String c r => if is_white c then trim_start r else s
  | EmptyString => s
  end.

Definition digit_value (c : ascii) : option Z :=
  let n := Z.of_nat (nat_of_ascii c) in
  if ((48 <=? n) && (n <=? 57))%Z then Some (n - 48)%Z
  else if ((97 <=? n) && (n <=? 102))%Z then Some (n - 87)%Z
  else if ((65 <=? n) && (n <=? 70))%Z then Some (n - 55)%Z
  else None.

(** The longest prefix of digits of radix [R], read from the left: [None]
    when it is empty. *)
Fixpoint read_digits (R : Z) (acc : option Z) (s : string) : option Z :=
  match s with
  | EmptyString => acc
  | String c r =>
      match digit_value c with
      | Some d =>
          if (d <? R)%Z
          then read_digits R (Some (match acc with Some a => a * R + d | None => d end)%Z) r
          else acc
      | None => acc
      end
  end.

Definition strip_sign (s : string) : bool * string :=
  match s with
  | String "-" r => (true, r)
  | String "+" r => (false, r)
  | _ => (false, s)
  end.

Definition strip_prefix (s : string) : Z * string :=
  match s with
  | String "0" (String "x" r) => (16%Z, r)
  | String "0" (String "X" r) => (16%Z, r)
  | _ => (10%Z, s)
  end.

Definition parseInt (input : string) : float :=
  let '(neg, s1) := strip_sign (trim_start input) in
  let '(R, s2) := strip_prefix s1 in
  match read_digits R None s2 with
  | None => nan
  | Some 0%Z => if neg then neg_zero else zero
  | Some n => Binary64.of_Z (if neg then - n else n)%Z
  end.

End JS.

(** ** The client: the portfolio store *)

Module Client.

Import JS.
Local Open Scope float_scope.

(** A value of [portfolio.stocks]. *)
Record holding := Holding {
  quantity : float;
  avg_price : float;
  currentPrice : float
}.

(** The object [portfolio].  The keys of [stocks] are upper-case symbols,
    so none of them is a property that a JavaScript object inherits. *)
Record portfolio := Portfolio {
  cash : float;
  stocks : gmap string holding
}.

Definition initial_portfolio : portfolio :=
  {| cash := 10000; stocks := ∅ |}.

(** What [alert] shows.  The first four are the failures: "Invalid input.",
    "Stock not found or price unavailable.", "Insufficient funds." and
    "Not enough shares to sell."; the last two are the messages
    "Bought q shares of s at $p each." and "Sold q shares of s at $p each.". *)
Inductive alert :=
| InvalidInput
| PriceUnavailable
| InsufficientFunds
| NotEnoughShares
| Bought (q : float) (s : string) (p : float)
| Sold (q : float) (s : string) (p : float).

Definition failure (a : alert) : bool :=
  match a with
  | InvalidInput | PriceUnavailable | InsufficientFunds | NotEnoughShares => true
  | Bought _ _ _ | Sold _ _ _ => false
  end.

(** The answer to the synchronous [GET /get_stock_price/<symbol>]: the
    status, and the [price] of the JSON body when it has one.  (Answers
    whose body is not JSON, on which [JSON.parse] throws, are left out.) *)
Record xhr := Xhr {
  status : Z;
  price : option float
}.

Definition fetchCurrentPrice (server : string -> xhr) (symbol : string) : float :=
  let r := server symbol in
  if (status r =? 200)%Z then
    match price r with
    | Some p => if truthy p then p else 0
    | None => 0
    end
  else 0.

(** The value of a row of the table, [currentPrice || avg_price] times the
    quantity. *)
Definition row_value (h : holding) : float :=
  (if truthy (currentPrice h) then currentPrice h else avg_price h) * quantity h.

Definition is_empty (s : string) : bool :=
  match s with EmptyString => true | _ => false end.

Definition buyStock (server : string -> xhr) (tradeSymbol tradeQuantity : string)
    (p : portfolio) : portfolio * alert :=
  let symbol := toUpperCase tradeSymbol in
  let qty := parseInt tradeQuantity in
  if is_empty symbol || (qty <=? 0) then (p, InvalidInput) else
  let px := fetchCurrentPrice server symbol in
  if negb (truthy px) then (p, PriceUnavailable) else
  let totalCost := px * qty in
  if cash p <? totalCost then (p, InsufficientFunds) else
  let cash' := cash p - totalCost in
  match stocks p !! symbol with
  | Some h =>
      let oldQty := quantity h in
      let oldAvg := avg_price h in
      let newAvg := ((oldQty * oldAvg) + (qty * px)) / (oldQty + qty) in
      ({| cash := cash';
          stocks := <[symbol := {| quantity := oldQty + qty;
                                   avg_price := newAvg;
                                   currentPrice := px |}]> (stocks p) |},
       Bought qty symbol px)
  | None =>
      ({| cash := cash';
          stocks := <[symbol := {| quantity := qty; avg_price := px;
                                   currentPrice := px |}]> (stocks p) |},
       Bought qty symbol px)
  end.

Definition sellStock (server : string -> xhr) (tradeSymbol tradeQuantity : string)
    (p : portfolio) : portfolio * alert :=
  let symbol := toUpperCase tradeSymbol in
  let qty := parseInt tradeQuantity in
  if is_empty symbol || (qty <=? 0) then (p, InvalidInput) else
  match stocks p !! symbol with
  | None => (p, NotEnoughShares)
  | Some h =>
      if quantity h <? qty then (p, NotEnoughShares) else
      let px := fetchCurrentPrice server symbol in
      if negb (truthy px) then (p, PriceUnavailable) else
      let cash' := cash p + px * qty in
      let q' := quantity h - qty in
      ({| cash := cash';
          stocks := if q' =? 0 then delete symbol (stocks p)
                    else <[symbol := {| quantity := q'; avg_price := avg_price h;
                                        currentPrice := currentPrice h |}]> (stocks p) |},
       Sold qty symbol px)
  end.

(** The two trades of the page. *)
Inductive trade := Buy | Sell.

Definition run_trade (t : trade) :=
  match t with Buy => buyStock | Sell => sellStock end.

(** A trade that must be refused: the quantity is not positive, no price
    is found (the lookup gives 0), a Buy costs more than the cash, or a Sell
    asks for more shares than are held. *)
Definition refused (t : trade) (server : string -> xhr)
    (tradeSymbol tradeQuantity : string) (p : portfolio) : Prop :=
  let symbol := toUpperCase tradeSymbol in
  let q := parseInt tradeQuantity in
  let px := fetchCurrentPrice server symbol in
  (q <=? 0) = true \/ px = 0 \/
  match t with
  | Buy => (cash p <? px * q) = true
  | Sell =>
      match stocks p !! symbol with
      | Some h => (quantity h <? q) = true
      | None => True
      end
  end.

(** A server that answers every lookup with the price [px]. *)
Definition quoting (px : float) : string -> xhr :=
  fun _ => {| status := 200; price := Some px |}.

(** Ten shares of RANDOM bought at 100.00 from the cash 10000, and the
    portfolio after a Buy of one share at 90.01. *)
Definition ten_at_100 : portfolio :=
  {| cash := 9000;
     stocks := {[ "RANDOM" := {| quantity := 10; avg_price := 100;
                                 currentPrice := 100 |} ]} |}.

Definition after_one_share : portfolio :=
  fst (buyStock (quoting 90.01) "RANDOM" "1" initial_portfolio).

End Client.

(** ** The client: what changes the portfolio *)

Module Page.

Import JS Client.
Local Open Scope float_scope.

(** The function of the timer (lines 342-349), up to the request of the
    chart: when RANDOM is held, its [currentPrice] becomes what the lookup
    gives, which is 0 when the lookup fails. *)
Definition refresh (server : string -> xhr) (p : portfolio) : portfolio :=
  match stocks p !! "RANDOM" with
  | Some h =>
      {| cash := cash p;
         stocks := <["RANDOM" := {| quantity := quantity h;
                                    avg_price := avg_price h;
                                    currentPrice := fetchCurrentPrice server "RANDOM" |}]>
                     (stocks p) |}
  | None => p
  end.

(** What changes [portfolio]: a click on Buy or on Sell with the two
    fields of the form, and a tick of the timer; each with the answers that
    the server gives at that moment. *)
Inductive event :=
| Click (t : trade) (server : string -> xhr) (tradeSymbol tradeQuantity : string)
| Tick (server : string -> xhr).

Definition step (p : portfolio) (e : event) : portfolio :=
  match e with
  | Click t server tradeSymbol tradeQuantity =>
      fst (run_trade t server tradeSymbol tradeQuantity p)
  | Tick server => refresh server p
  end.

(** The portfolio of a page after the events [es], from its load. *)
Definition run (es : list event) : portfolio :=
  fold_left step es initial_portfolio.

Definition answers (e : event) : string -> xhr :=
  match e with
  | Click _ server _ _ => server
  | Tick server => server
  end.

(** A symbol as [toUpperCase] leaves one: not empty, and unchanged by it. *)
Definition upper_case (s : string) : bool :=
  negb (is_empty s) && String.eqb (toUpperCase s) s.

(** A number of shares that can be traded: a whole number from 1 on. *)
Definition whole_shares (q : float) : Prop :=
  Binary64.real q = true /\ exists k : Z, (1 <= k)%Z /\ Binary64.FV q = IZR k.

(** The holdings are kept well: each under an upper-case symbol, with a
    quantity that is above zero or NaN. *)
Definition kept (p : portfolio) : Prop :=
  forall s h, stocks p !! s = Some h ->
    upper_case s = true /\ (quantity h <=? 0) = false.

End Page.

(** ** Python values *)

Module Py.

Local Open Scope float_scope.

(** What [json] parsing builds: [None], booleans, integers, floats, strings,
    lists and dictionaries (in the order of the text, keys distinct). *)
Inductive value :=
| VNone
| VBool (b : bool)
| VInt (z : Z)
| VFloat (f : float)
| VStr (s : string)
| VList (l : list value)
| VDict (d : list (string * value)).

(** The exceptions of the operations below.  (A repetition too long for
    the memory raises in Python as well, with an exception of its own.) *)
Inductive exn := KeyError | TypeError | AttributeError | OverflowError.

Inductive result (A : Type) :=
| Ok (a : A)
| Raise (e : exn).
Arguments Ok {A} a.
Arguments Raise {A} e.

Definition bind {A B} (r : result A) (k : A -> result B) : result B :=
  match r with
  | Ok a => k a
  | Raise e => Raise e
  end.

Notation "'let*' x ':=' r 'in' k" := (bind r (fun x => k))
  (at level 10, x name, r at level 100, k at level 200).

(** [bool(v)]: a float is false only when it is zero. *)
Definition truth (v : value) : bool :=
  match v with
  | VNone => false
  | VBool b => b
  | VInt z => negb (z =? 0)%Z
  | VFloat f => negb (is_zero f)
  | VStr s => negb (Client.is_empty s)
  | VList l => match l with [] => false | _ => true end
  | VDict d => match d with [] => false | _ => true end
  end.

Fixpoint assoc (k : string) (d : list (string * value)) : option value :=
  match d with
  | [] => None
  | (k', v) :: r => if String.eqb k k' then Some v else assoc k r
  end.

(** [v[k]] for a string [k]. *)
Definition subscript (v : value) (k : string) : result value :=
  match v with
  | VDict d => match assoc k d with Some x => Ok x | None => Raise KeyError end
  | _ => Raise TypeError
  end.

(** [v.items()]. *)
Definition items (v : value) : result (list (string * value)) :=
  match v with
  | VDict d => Ok d
  | _ => Raise AttributeError
  end.

(** [v.get(k, default v)]: the attribute is looked up first, then the
    default is evaluated, then the call is made. *)
Definition get_or (v : value) (k : string) (default : value -> result value)
    : result value :=
  match v with
  | VDict d =>
      let* dflt := default v in
      Ok (match assoc k d with Some x => x | None => dflt end)
  | _ => Raise AttributeError
  end.

(** *** Numbers *)

Inductive num := NInt (z : Z) | NFloat (f : float).

Definition as_num (v : value) : option num :=
  match v with
  | VBool b => Some (NInt (if b then 1 else 0))
  | VInt z => Some (NInt z)
  | VFloat f => Some (NFloat f)
  | _ => None
  end.

Definition of_num (n : num) : value :=
  match n with NInt z => VInt z | NFloat f => VFloat f end.

(** [float(z)]: the nearest float, or OverflowError beyond the range. *)
Definition to_float (z : Z) : result float :=
  let f := Binary64.of_Z z in
  if is_infinity f then Raise OverflowError else Ok f.

Definition arith (opz : Z -> Z -> Z) (opf : float -> float -> float)
    (a b : num) : result num :=
  match a, b with
  | NInt x, NInt y => Ok (NInt (opz x y))
  | NInt x, NFloat g => let* f := to_float x in Ok (NFloat (opf f g))
  | NFloat f, NInt y => let* g := to_float y in Ok (NFloat (opf f g))
  | NFloat f, NFloat g => Ok (NFloat (opf f g))
  end.

Fixpoint repeat_string (n : nat) (s : string) : string :=
  match n with O => EmptyString | S k => s ++ repeat_string k s end.

Fixpoint repeat_list {A} (n : nat) (l : list A) : list A :=
  match n with O => [] | S k => l ++ repeat_list k l end.

Definition as_index (v : value) : option Z :=
  match v with
  | VBool b => Some (if b then 1 else 0)%Z
  | VInt z => Some z
  | _ => None
  end.

(** [a * b]: numbers, and a string or a list repeated. *)
Definition mul (a b : value) : result value :=
  match as_num a, as_num b with
  | Some x, Some y => let* n := arith Z.mul PrimFloat.mul x y in Ok (of_num n)
  | _, _ =>
      match a, as_index b, as_index a, b with
      | VStr s, Some n, _, _ => Ok (VStr (repeat_string (Z.to_nat n) s))
      | VList l, Some n, _, _ => Ok (VList (repeat_list (Z.to_nat n) l))
      | _, _, Some n, VStr s => Ok (VStr (repeat_string (Z.to_nat n) s))
      | _, _, Some n, VList l => Ok (VList (repeat_list (Z.to_nat n) l))
      | _, _, _, _ => Raise TypeError
      end
  end.

Fixpoint chars (s : string) : list value :=
  match s with
  | EmptyString => []
  | String c r => VStr (String c EmptyString) :: chars r
  end.

(** [a += b]: numbers, strings, and a list extended by a list, by the
    characters of a string or by the keys of a dictionary. *)
Definition iadd (a b : value) : result value :=
  match as_num a, as_num b with
  | Some x, Some y => let* n := arith Z.add PrimFloat.add x y in Ok (of_num n)
  | _, _ =>
      match a, b with
      | VStr s, VStr t => Ok (VStr (s ++ t))
      | VList l, VList m => Ok (VList (l ++ m))
      | VList l, VStr t => Ok (VList (l ++ chars t))
      | VList l, VDict d => Ok (VList (l ++ map (fun kv => VStr (fst kv)) d))
      | _, _ => Raise TypeError
      end
  end.

(** *** [round(x, 2)] *)

(** The hundredths nearest to [m * 2^e], ties to even. *)
Definition hundredths (m : positive) (e : Z) : Z :=
  if (0 <=? e)%Z then (Zpos m * 2 ^ e * 100)%Z
  else Binary64.div_half_even (Zpos m * 100) (2 ^ (- e)).

(** The float nearest to [n / 100], with the sign [s]. *)
Definition of_hundredths (s : bool) (n : Z) : float :=
  match n with
  | Zpos _ =>
      let '(q, e, l) := SFdiv_core_binary prec emax n 0 100 0 in
      SF2Prim (binary_round_aux prec emax s q e l)
  | _ => if s then neg_zero else zero
  end.

(** [float.__round__] with two digits: the decimal with two digits nearest
    to the float (ties to even), then the float nearest to that decimal. *)
Definition round2_float (x : float) : float :=
  match Prim2SF x with
  | S754_finite s m e => of_hundredths s (hundredths m e)
  | _ => x
  end.

(** [round(v, 2)]. *)
Definition round2 (v : value) : result value :=
  match v with
  | VBool b => Ok (VInt (if b then 1 else 0))
  | VInt z => Ok (VInt z)
  | VFloat f => Ok (VFloat (round2_float f))
  | _ => Raise TypeError
  end.

(** The float nearest to [n / 100] has the exponent -46 and a mantissa [m]
    with [m / 2^46] within [2^-47] of [n / 100]. *)
Definition near_hundredth (n : Z) : bool :=
  match Prim2SF (of_hundredths false n) with
  | S754_finite false m e =>
      ((e =? -46) && (Z.abs (100 * Zpos m - n * 2 ^ 46) <=? 50))%Z
  | _ => false
  end.

End Py.

(** ** The server *)

Module Server.

Import Py.
Local Open Scope float_scope.

(** The two periods asked of the market-data library. *)
Inductive period := P1d | P1y.

(** What [yf.Ticker(symbol).history(period)['Close']] does: it raises (with
    the text of the exception), or gives the closes by date, none when the
    frame is empty. *)
Inductive fetched :=
| FetchRaises (e : string)
| Frame (rows : list (string * float)).

(** The state of the process: the list [portfolio_history], what was
    printed, the calls made to the market-data library, and how many
    numbers the generator [random] has given. *)
Record state := State {
  portfolio_history : list (Z * value);
  stdout : list string;
  fetches : list (string * period);
  draws : nat
}.

Definition initial : state :=
  {| portfolio_history := []; stdout := []; fetches := []; draws := 0 |}.

(** A response: [jsonify({k: v})], or the error response that Flask sends
    when the view or [get_json] raises. *)
Inductive response :=
| Jsonify (k : string) (v : value)
| HttpError.

(** What [request.get_json()] does with the body: it raises, which ends the
    request, or returns a value, [None] included. *)
Inductive get_json_result :=
| GetJsonRaises
| GetJson (v : value).

(** [random.uniform(a, b)] from the draw [r] of [random.random()]. *)
Definition uniform (a b r : float) : float := a + (b - a) * r.

(** The price of the symbol RANDOM from a draw. *)
Definition random_price (r : float) : float :=
  round2_float (100 * (1 + uniform (-0.1) 0.1 r)).

Fixpoint last_close (rows : list (string * float)) : option float :=
  match rows with
  | [] => None
  | [(_, c)] => Some c
  | _ :: r => last_close r
  end.

Section Routes.

(** The world outside the file: the market-data library, the generator
    [random.random], [round] on a numpy float, the clock's format, and the
    two drawings (lines 399-413 and 436-451), which give the encoded image
    or raise. *)
Variable market : string -> period -> fetched.
Variable random : nat -> float.
Variable np_round2 : float -> float.
Variable strftime : Z -> string.
Variable plot_history : string -> list (string * float) -> option string.
Variable plot_performance : list string -> list value -> option string.

Definition print (line : string) (st : state) : state :=
  {| portfolio_history := portfolio_history st;
     stdout := stdout st ++ [line];
     fetches := fetches st;
     draws := draws st |}.

Definition fetch (symbol : string) (p : period) (st : state) : fetched * state :=
  (market symbol p,
   {| portfolio_history := portfolio_history st;
      stdout := stdout st;
      fetches := fetches st ++ [(symbol, p)];
      draws := draws st |}).

Definition next_random (st : state) : float * state :=
  (random (draws st),
   {| portfolio_history := portfolio_history st;
      stdout := stdout st;
      fetches := fetches st;
      draws := S (draws st) |}).

(** The helper [get_stock_price]. *)
Definition get_stock_price (symbol : string) (st : state) : value * state :=
  let symbol := toUpperCase symbol in
  if String.eqb symbol "RANDOM" then
    let '(r, st) := next_random st in (VFloat (random_price r), st)
  else
    match fetch symbol P1d st with
    | (Frame rows, st) =>
        match last_close rows with
        | None => (VInt 0, st)
        | Some c => (VFloat (np_round2 c), st)
        end
    | (FetchRaises e, st) =>
        (VInt 0, print ("Error fetching price for " ++ symbol ++ ": " ++ e) st)
    end.

(** The helper [get_stock_history]: the dates and the closes. *)
Definition get_stock_history (symbol : string) (st : state)
    : list (string * float) * state :=
  if String.eqb (toUpperCase symbol) "RANDOM" then ([], st)
  else
    match fetch symbol P1y st with
    | (Frame rows, st) => (rows, st)
    | (FetchRaises e, st) =>
        ([], print ("Error fetching history for " ++ symbol ++ ": " ++ e) st)
    end.

(** [GET /get_stock_price/<symbol>]. *)
Definition api_get_stock_price (symbol : string) (st : state) : response * state :=
  let symbol_up := toUpperCase symbol in
  if String.eqb symbol_up "RANDOM" then
    let '(r, st) := next_random st in
    (Jsonify "price" (VFloat (random_price r)), st)
  else
    match fetch symbol_up P1d st with
    | (Frame rows, st) =>
        match last_close rows with
        | None => (Jsonify "price" (VInt 0), st)
        | Some c => (Jsonify "price" (VFloat (np_round2 c)), st)
        end
    | (FetchRaises e, st) =>
        (Jsonify "price" (VInt 0),
         print ("Error fetching price for " ++ symbol_up ++ ": " ++ e) st)
    end.

(** [GET /get_stock_price_chart/<symbol>]. *)
Definition api_get_stock_price_chart (symbol : string) (st : state)
    : response * state :=
  if String.eqb (toUpperCase symbol) "RANDOM" then (Jsonify "chart" (VStr ""), st)
  else
    match fetch symbol P1y st with
    | (Frame [], st) => (Jsonify "chart" (VStr ""), st)
    | (Frame rows, st) =>
        match plot_history (toUpperCase symbol) rows with
        | Some chart_data => (Jsonify "chart" (VStr chart_data), st)
        | None => (HttpError, st)
        end
    | (FetchRaises e, st) =>
        (Jsonify "chart" (VStr ""),
         print ("Error fetching 1y history for " ++ symbol ++ ": " ++ e) st)
    end.

(** The loop of [compute_local_portfolio_value]. *)
Fixpoint add_holdings (total : value) (hs : list (string * value)) : result value :=
  match hs with
  | [] => Ok total
  | (_, data) :: rest =>
      let* cprice := get_or data "currentPrice" (fun d => subscript d "avg_price") in
      let* qty := subscript data "quantity" in
      let* v := mul cprice qty in
      let* total := iadd total v in
      add_holdings total rest
  end.

Definition compute_local_portfolio_value (local_portfolio : value) : result value :=
  let* total := subscript local_portfolio "cash" in
  let* stocks := subscript local_portfolio "stocks" in
  let* hs := items stocks in
  let* total := add_holdings total hs in
  round2 total.

(** [POST /get_portfolio_chart], at the time [now]. *)
Definition get_portfolio_chart (body : get_json_result) (now : Z) (st : state)
    : response * state :=
  match body with
  | GetJsonRaises => (HttpError, st)
  | GetJson local_portfolio =>
      if negb (truth local_portfolio) then (Jsonify "chart" (VStr ""), st)
      else
        match compute_local_portfolio_value local_portfolio with
        | Raise _ => (HttpError, st)
        | Ok val =>
            let st := {| portfolio_history := portfolio_history st ++ [(now, val)];
                         stdout := stdout st;
                         fetches := fetches st;
                         draws := draws st |} in
            let times := map (fun tv => strftime (fst tv)) (portfolio_history st) in
            let values := map snd (portfolio_history st) in
            match plot_performance times values with
            | Some chart_data => (Jsonify "chart" (VStr chart_data), st)
            | None => (HttpError, st)
            end
        end
  end.

End Routes.


(** *** The body that the page sends *)

(** A number as [JSON.stringify] writes a finite Number and [json] reads
    it: a float, or an integer below 10^21 (from there on the digits are
    written with an exponent, which [json] reads as a float). *)
Definition is_number (v : value) : bool :=
  match v with
  | VInt z => (Z.abs z <? 10 ^ 21)%Z
  | VFloat _ => true
  | _ => false
  end.

(** A holding [{quantity, avg_price, currentPrice?}]. *)
Definition valid_holding (v : value) : bool :=
  match v with
  | VDict d =>
      match assoc "quantity" d, assoc "avg_price" d with
      | Some q, Some a =>
          is_number q && is_number a &&
          match assoc "currentPrice" d with
          | Some c => is_number c
          | None => true
          end
      | _, _ => false
      end
  | _ => false
  end.

(** A body [{cash, stocks: {symbol: holding}}], of fewer than 2^64
    holdings. *)
Definition valid_portfolio (v : value) : bool :=
  match v with
  | VDict d =>
      match assoc "cash" d, assoc "stocks" d with
      | Some c, Some (VDict hs) =>
          is_number c && forallb (fun kv => valid_holding (snd kv)) hs
          && (Z.of_nat (length hs) <? 2 ^ 64)%Z
      | _, _ => false
      end
  | _ => false
  end.

(** The value of a portfolio, as the specification words it: the cash,
    plus for each holding in turn its quantity times its [currentPrice],
    or its [avg_price] when it has no [currentPrice]; rounded to two
    decimals.  Integers are added and multiplied exactly and meet a float
    as the nearest float. *)
Definition number (v : value) : num :=
  match v with
  | VInt z => NInt z
  | VFloat f => NFloat f
  | _ => NInt 0
  end.

Definition num_op (opz : Z -> Z -> Z) (opf : float -> float -> float)
    (a b : num) : num :=
  match a, b with
  | NInt x, NInt y => NInt (opz x y)
  | NInt x, NFloat g => NFloat (opf (Binary64.of_Z x) g)
  | NFloat f, NInt y => NFloat (opf f (Binary64.of_Z y))
  | NFloat f, NFloat g => NFloat (opf f g)
  end.

Definition field (k : string) (v : value) : value :=
  match v with
  | VDict d => match assoc k d with Some x => x | None => VNone end
  | _ => VNone
  end.

Definition price_of (holding : value) : value :=
  match holding with
  | VDict d =>
      match assoc "currentPrice" d with
      | Some c => c
      | None => field "avg_price" holding
      end
  | _ => VNone
  end.

Definition holding_value (holding : value) : num :=
  num_op Z.mul PrimFloat.mul (number (price_of holding))
    (number (field "quantity" holding)).

Definition total_value (body : value) : num :=
  match field "stocks" body with
  | VDict hs =>
      fold_left (fun total kv => num_op Z.add PrimFloat.add total
                                   (holding_value (snd kv)))
        hs (number (field "cash" body))
  | _ => number (field "cash" body)
  end.

Definition rounded (n : num) : value :=
  match n with
  | NInt z => VInt z
  | NFloat f => VFloat (round2_float f)
  end.

(** An integer of magnitude at most [B], or a float. *)
Definition int_below (B : Z) (n : num) : Prop :=
  match n with
  | NInt z => (Z.abs z <= B)%Z
  | NFloat _ => True
  end.

(** *** A world for the examples

    No market data, every draw 0.5, and drawings that give the text
    "png". *)
Definition no_market : string -> period -> fetched := fun _ _ => Frame [].
Definition failing_market : string -> period -> fetched :=
  fun _ _ => FetchRaises "no connection".
Definition half : nat -> float := fun _ => 0.5%float.
Definition clock : Z -> string := fun _ => "12:00:00".
Definition png_history : string -> list (string * float) -> option string :=
  fun _ _ => Some "png".
Definition png_performance : list string -> list value -> option string :=
  fun _ _ => Some "png".

(** The body of the page after a Buy of ten shares at 100.00. *)
Definition ten_shares : value :=
  VDict [("cash", VInt 9000);
         ("stocks", VDict [("RANDOM", VDict [("quantity", VInt 10);
                                             ("avg_price", VInt 100);
                                             ("currentPrice", VFloat 101.5)])])].

(** A fetch that failed: the library raised, or it gave no data. *)
Definition fetch_failed (f : fetched) : bool :=
  match f with
  | FetchRaises _ => true
  | Frame [] => true
  | Frame (_ :: _) => false
  end.

(** What a failed fetch prints, after the words [what] and the symbol. *)
Definition logged (what symbol : string) (f : fetched) : list string :=
  match f with
  | FetchRaises e => [what ++ symbol ++ ": " ++ e]
  | Frame _ => []
  end.

(** A generator whose draws are 0.25 and 0.75 in turn. *)
Definition alternating : nat -> float :=
  fun n => if Nat.even n then 0.25%float else 0.75%float.

(** What the price [p] made from the draw [r] is: between 90 and 110, the
    float nearest to a whole number of hundredths, and within 0.0051 of
    [90 + 20 r], the draw stretched over the range. *)
Definition drawn_price (r p : float) : Prop :=
  (90 <=? p) = true /\ (p <=? 110) = true /\
  (exists n : Z, (9000 <= n <= 11000)%Z /\ p = of_hundredths false n) /\
  (Rabs (Binary64.FV p - (90 + 20 * Binary64.FV r)) <= 51 / 10000)%R.

(** *** Bodies that are not portfolios *)

(** The body has the fields that the computation reads: it is an object
    with [cash] and [stocks], [stocks] is an object, and each holding is
    an object with [avg_price] and [quantity]. *)
Definition has_keys (data : value) : bool :=
  match data with
  | VDict d =>
      match assoc "avg_price" d, assoc "quantity" d with
      | Some _, Some _ => true
      | _, _ => false
      end
  | _ => false
  end.

Definition has_fields (v : value) : bool :=
  match v with
  | VDict d =>
      match assoc "cash" d, assoc "stocks" d with
      | Some _, Some (VDict hs) => forallb (fun kv => has_keys (snd kv)) hs
      | _, _ => false
      end
  | _ => false
  end.




(** Three bodies: an object that is not a portfolio, a portfolio whose
    cash is [true], and a portfolio whose cash is the integer 10^400. *)
Definition foo_body : value := VDict [("foo", VInt 1)].

Definition true_cash : value := VDict [("cash", VBool true); ("stocks", VDict [])].


End Server.

(** ** Between the page and the server *)

Module Wire.

Import Binary64 Py Server.

(** A Number as [JSON.stringify] writes it and [json] reads it.  NaN and
    the infinities are written [null].  A finite number is written with the
    fewest digits that give it back.  For an integer below 10^21 these are
    digits only, which [json] reads as an [int]: the integer itself up to
    2^53; beyond, the digits written need not be those of the number, and
    these numbers are left out ([None]).  Any other text has a point or an
    exponent, and [json] reads the [float] nearest to it, which is the
    number. *)
Definition json_number (x : float) : option value :=
  match Prim2SF x with
  | S754_zero _ => Some (VInt 0)
  | S754_finite s m e =>
      let whole := (0 <=? e) || (Zpos m mod 2 ^ (- e) =? 0) in
      let z := if 0 <=? e then Zpos m * 2 ^ e else Zpos m / 2 ^ (- e) in
      if whole then
        if z <=? 2 ^ 53 then Some (VInt (cond_Zopp s z))
        else if z <? 10 ^ 21 then None
        else Some (VFloat x)
      else Some (VFloat x)
  | _ => Some VNone
  end.

(** A holding, with its keys in the order of line 295. *)
Definition json_holding (h : Client.holding) : option value :=
  match json_number (Client.quantity h), json_number (Client.avg_price h),
        json_number (Client.currentPrice h) with
  | Some q, Some a, Some c =>
      Some (VDict [("quantity", q); ("avg_price", a); ("currentPrice", c)])
  | _, _, _ => None
  end.

Fixpoint json_stocks (keys : list string) (stocks : gmap string Client.holding)
    : option (list (string * value)) :=
  match keys with
  | [] => Some []
  | k :: rest =>
      match stocks !! k with
      | Some h =>
          match json_holding h, json_stocks rest stocks with
          | Some d, Some hs => Some ((k, d) :: hs)
          | _, _ => None
          end
      | None => json_stocks rest stocks
      end
  end.

(** What [request.get_json()] returns for the body
    [JSON.stringify(portfolio)] of [getPortfolioChart] (line 332); [keys]
    are the symbols held, in the order in which JavaScript enumerates
    them. *)
Definition body_of (keys : list string) (p : Client.portfolio) : option value :=
  match json_number (Client.cash p), json_stocks keys (Client.stocks p) with
  | Some c, Some hs => Some (VDict [("cash", c); ("stocks", VDict hs)])
  | _, _ => None
  end.

(** The numbers of a portfolio are all finite. *)
Definition finite_holding (h : Client.holding) : bool :=
  real (Client.quantity h) && real (Client.avg_price h) && real (Client.currentPrice h).

Definition finite_portfolio (keys : list string) (p : Client.portfolio) : bool :=
  real (Client.cash p) &&
  forallb (fun k => match Client.stocks p !! k with
                    | Some h => finite_holding h
                    | None => true
                    end) keys.

(** The numbers that the server multiplies and adds are all finite: the
    cash, and the quantity and the [currentPrice] of each holding. *)
Definition countable (keys : list string) (p : Client.portfolio) : bool :=
  real (Client.cash p) &&
  forallb (fun k => match Client.stocks p !! k with
                    | Some h => real (Client.quantity h) && real (Client.currentPrice h)
                    | None => true
                    end) keys.

(** The portfolio with the average price of every holding replaced by
    [a]. *)
Definition with_average (a : float) (p : Client.portfolio) : Client.portfolio :=
  {| Client.cash := Client.cash p;
     Client.stocks :=
       (fun h => {| Client.quantity := Client.quantity h;
                    Client.avg_price := a;
                    Client.currentPrice := Client.currentPrice h |})
       <$> Client.stocks p |}.

(** What [fetchCurrentPrice] receives for a response of the server:
    the status 500 for an error; otherwise the status 200 and the body that
    [jsonify] writes, read by [JSON.parse].  A float comes back as it is,
    an integer as the nearest Number.  [None] for the bodies left out:
    NaN and the infinities, which [jsonify] writes as [NaN] and [Infinity]
    and [JSON.parse] refuses, and prices that are not numbers. *)
Definition reply (r : response) : option Client.xhr :=
  match r with
  | HttpError => Some {| Client.status := 500; Client.price := None |}
  | Jsonify k v =>
      if String.eqb k "price" then
        match v with
        | VInt z => Some {| Client.status := 200; Client.price := Some (of_Z z) |}
        | VFloat f =>
            if real f then Some {| Client.status := 200; Client.price := Some f |}
            else None
        | _ => None
        end
      else Some {| Client.status := 200; Client.price := None |}
  end.

End Wire.

(** ** The server: its requests in order *)

Module Service.

Import Py Server.

(** The three routes with an effect (lines 366, 385 and 425). *)
Inductive request :=
| GetStockPrice (symbol : string)
| GetStockPriceChart (symbol : string)
| PostPortfolioChart (body : get_json_result) (now : Z).

Section Requests.

Variable market : string -> period -> fetched.
Variable random : nat -> float.
Variable np_round2 : float -> float.
Variable strftime : Z -> string.
Variable plot_history : string -> list (string * float) -> option string.
Variable plot_performance : list string -> list value -> option string.

Definition handle (r : request) (st : state) : response * state :=
  match r with
  | GetStockPrice symbol => api_get_stock_price market random np_round2 symbol st
  | GetStockPriceChart symbol => api_get_stock_price_chart market plot_history symbol st
  | PostPortfolioChart body now => get_portfolio_chart strftime plot_performance body now st
  end.

(** The state after the requests [rs], served one after the other. *)
Definition serve (rs : list request) (st : state) : state :=
  fold_left (fun st r => snd (handle r st)) rs st.

End Requests.

(** The calls to the market-data library that a request makes, and the
    draws that it takes from the generator. *)
Definition market_calls (r : request) : list (string * period) :=
  match r with
  | GetStockPrice symbol =>
      if String.eqb (toUpperCase symbol) "RANDOM" then []
      else [(toUpperCase symbol, P1d)]
  | GetStockPriceChart symbol =>
      if String.eqb (toUpperCase symbol) "RANDOM" then [] else [(symbol, P1y)]
  | PostPortfolioChart _ _ => []
  end.

Definition random_draws (r : request) : nat :=
  match r with
  | GetStockPrice symbol =>
      if String.eqb (toUpperCase symbol) "RANDOM" then 1%nat else 0%nat
  | _ => 0%nat
  end.

(** The sample that a request adds to [portfolio_history] and the lines
    that it prints. *)
Definition sample_of (r : request) : list (Z * value) :=
  match r with
  | PostPortfolioChart (GetJson v) now =>
      if truth v then
        match compute_local_portfolio_value v with
        | Ok val => [(now, val)]
        | Raise _ => []
        end
      else []
  | _ => []
  end.

Definition log_of (market : string -> period -> fetched) (r : request) : list string :=
  match r with
  | GetStockPrice symbol =>
      if String.eqb (toUpperCase symbol) "RANDOM" then []
      else logged "Error fetching price for " (toUpperCase symbol)
             (market (toUpperCase symbol) P1d)
  | GetStockPriceChart symbol =>
      if String.eqb (toUpperCase symbol) "RANDOM" then []
      else logged "Error fetching 1y history for " symbol (market symbol P1y)
  | PostPortfolioChart _ _ => []
  end.

(** *** Portfolios of integers *)

Definition is_int (v : value) : bool :=
  match v with VInt _ => true | _ => false end.

Definition int_of (v : value) : Z :=
  match v with VInt z => z | _ => 0 end.

Definition int_holding (v : value) : bool :=
  match v with
  | VDict d =>
      match assoc "quantity" d, assoc "avg_price" d with
      | Some q, Some a =>
          is_int q && is_int a &&
          match assoc "currentPrice" d with
          | Some c => is_int c
          | None => true
          end
      | _, _ => false
      end
  | _ => false
  end.

Definition int_portfolio (v : value) : bool :=
  match v with
  | VDict d =>
      match assoc "cash" d, assoc "stocks" d with
      | Some c, Some (VDict hs) =>
          is_int c && forallb (fun kv => int_holding (snd kv)) hs
      | _, _ => false
      end
  | _ => false
  end.

(** The cash plus the price times the quantity of each holding, in
    integers. *)
Definition int_total (v : value) : Z :=
  match field "stocks" v with
  | VDict hs =>
      fold_left (fun total kv =>
                   total + int_of (price_of (snd kv)) * int_of (field "quantity" (snd kv)))
        hs (int_of (field "cash" v))
  | _ => int_of (field "cash" v)
  end.

End Service.

(** * Properties *)

(** ** The rounding of binary64 *)

Module Binary64Facts.

Import Binary64.
Local Open Scope Z_scope.

Lemma digits_pos p : 0 < digits p.
Proof. unfold digits. lia. Qed.

Lemma digits_bounds p : 2 ^ (digits p - 1) <= Zpos p < 2 ^ digits p.
Proof.
  unfold digits. induction p as [p IH|p IH|]; cbn [digits2_pos].
  - rewrite Pos2Z.inj_succ. replace (Z.succ (Z.pos (digits2_pos p)) - 1) with (Z.pos (digits2_pos p) - 1 + 1) by lia.
    rewrite Z.pow_succ_r, Z.pow_add_r by lia. lia.
  - rewrite Pos2Z.inj_succ. replace (Z.succ (Z.pos (digits2_pos p)) - 1) with (Z.pos (digits2_pos p) - 1 + 1) by lia.
    rewrite Z.pow_succ_r, Z.pow_add_r by lia. lia.
  - simpl. lia.
Qed.

Lemma digits_unique p d : 2 ^ (d - 1) <= Zpos p < 2 ^ d -> digits p = d.
Proof.
  intros [H1 H2]. pose proof (digits_bounds p) as [H3 H4]. pose proof (digits_pos p).
  assert (0 < d).
  { destruct (Z_lt_le_dec 0 d) as [|Hd]; trivial. exfalso.
    destruct (Z.eq_dec d 0) as [->|]; [simpl in H2; lia|].
    rewrite Z.pow_neg_r in H2 by lia. lia. }
  destruct (Z_lt_le_dec (digits p) d).
  - assert (2 ^ digits p <= 2 ^ (d - 1)) by (apply Z.pow_le_mono_r; lia). lia.
  - destruct (Z_lt_le_dec d (digits p)); [|lia].
    assert (2 ^ d <= 2 ^ (digits p - 1)) by (apply Z.pow_le_mono_r; lia). lia.
Qed.

Lemma iter_pos_comm {A} (f : A -> A) p x : SpecFloat.iter_pos f p (f x) = f (SpecFloat.iter_pos f p x).
Proof.
  revert x. induction p as [p IH|p IH|]; intros x; cbn [SpecFloat.iter_pos].
  - now rewrite !IH.
  - now rewrite !IH.
  - reflexivity.
Qed.

Lemma iter_pos_succ {A} (f : A -> A) p x : SpecFloat.iter_pos f (Pos.succ p) x = f (SpecFloat.iter_pos f p x).
Proof.
  revert x. induction p as [p IH|p IH|]; intros x.
  - change (Pos.succ p~1) with ((Pos.succ p)~0)%positive.
    cbn [SpecFloat.iter_pos]. rewrite !IH, !iter_pos_comm. reflexivity.
  - change (Pos.succ p~0) with (p~1)%positive.
    cbn [SpecFloat.iter_pos]. rewrite !iter_pos_comm. reflexivity.
  - reflexivity.
Qed.

Lemma shr_1_nonneg m r s : 0 <= m ->
  shr_1 {| shr_m := m; shr_r := r; shr_s := s |} =
  {| shr_m := m / 2; shr_r := Z.odd m; shr_s := r || s |}.
Proof.
  intros Hm. destruct m as [|p|p]; [reflexivity| |lia].
  destruct p as [p|p|]; cbn [shr_1].
  - f_equal. rewrite Pos2Z.inj_xI. apply Z.div_unique with 1; lia.
  - f_equal. rewrite Pos2Z.inj_xO. apply Z.div_unique with 0; lia.
  - reflexivity.
Qed.

Lemma pow2_pred n : 1 <= n -> 2 ^ n = 2 ^ (n - 1) * 2.
Proof.
  intros Hn. replace n with ((n - 1) + 1) at 1 by lia.
  rewrite Z.pow_add_r by lia. reflexivity.
Qed.

Lemma shifted_succ m n : 0 <= m -> 1 <= n ->
  shr_1 (shifted m n) = shifted m (n + 1).
Proof.
  intros Hm Hn. unfold shifted.
  assert (0 < 2 ^ n) by (apply Z.pow_pos_nonneg; lia).
  assert (0 < 2 ^ (n - 1)) by (apply Z.pow_pos_nonneg; lia).
  rewrite shr_1_nonneg by (apply Z.div_pos; lia).
  replace (n + 1 - 1) with n by lia.
  f_equal.
  - rewrite Z.pow_add_r by lia. rewrite Z.div_div by lia. reflexivity.
  - rewrite (pow2_pred n) by lia.
    rewrite Z.rem_mul_r by lia.
    rewrite Zmod_odd.
    destruct (Z.odd (m / 2 ^ (n - 1))); simpl.
    + symmetry. apply negb_true_iff, Z.eqb_neq.
      pose proof (Z.mod_pos_bound m (2 ^ (n - 1))). lia.
    + rewrite Z.mul_0_r, Z.add_0_r. reflexivity.
Qed.

Lemma iter_shr m p : 0 <= m ->
  SpecFloat.iter_pos shr_1 p {| shr_m := m; shr_r := false; shr_s := false |} = shifted m (Zpos p).
Proof.
  intros Hm. induction p as [|p IH] using Pos.peano_ind.
  - cbn [SpecFloat.iter_pos]. rewrite shr_1_nonneg by trivial. unfold shifted. simpl (1 - 1).
    rewrite Z.pow_0_r, Z.div_1_r, Z.mod_1_r. reflexivity.
  - rewrite iter_pos_succ, IH, shifted_succ by lia. f_equal. lia.
Qed.

Lemma round_shifted m n : 0 <= m -> 1 <= n ->
  round_nearest_even (shr_m (shifted m n)) (loc_of_shr_record (shifted m n))
  = div_half_even m (2 ^ n).
Proof.
  intros Hm Hn. unfold shifted, div_half_even. cbn [shr_m loc_of_shr_record].
  assert (0 < 2 ^ (n - 1)) by (apply Z.pow_pos_nonneg; lia).
  rewrite (pow2_pred n) by lia.
  rewrite Z.rem_mul_r by lia. rewrite Zmod_odd.
  pose proof (Z.mod_pos_bound m (2 ^ (n - 1))).
  destruct (Z.odd (m / 2 ^ (n - 1))); destruct (m mod 2 ^ (n - 1) =? 0) eqn:E; simpl negb; cbn [round_nearest_even].
  - apply Z.eqb_eq in E. rewrite E.
    replace (2 * (0 + 2 ^ (n - 1) * 1) ?= 2 ^ (n - 1) * 2) with Eq by (symmetry; apply Z.compare_eq_iff; lia).
    reflexivity.
  - apply Z.eqb_neq in E.
    replace (2 * (m mod 2 ^ (n - 1) + 2 ^ (n - 1) * 1) ?= 2 ^ (n - 1) * 2) with Gt by (symmetry; apply Z.compare_gt_iff; lia).
    reflexivity.
  - apply Z.eqb_eq in E. rewrite E.
    replace (2 * (0 + 2 ^ (n - 1) * 0) ?= 2 ^ (n - 1) * 2) with Lt by (symmetry; apply Z.compare_lt_iff; lia).
    reflexivity.
  - replace (2 * (m mod 2 ^ (n - 1) + 2 ^ (n - 1) * 0) ?= 2 ^ (n - 1) * 2) with Lt by (symmetry; apply Z.compare_lt_iff; lia).
    reflexivity.
Qed.

(** ** Rounding to nearest, ties to even *)

Lemma dhe_err n d : 0 < d ->
  - d <= 2 * (div_half_even n d * d - n) <= d.
Proof.
  intros Hd. unfold div_half_even.
  pose proof (Z.div_mod n d ltac:(lia)). pose proof (Z.mod_pos_bound n d Hd).
  destruct (Z.compare_spec (2 * (n mod d)) d); [destruct (Z.even (n / d))| |]; nia.
Qed.

Lemma dhe_le n d N : 0 < d -> n <= N * d -> div_half_even n d <= N.
Proof.
  intros Hd Hn. unfold div_half_even.
  pose proof (Z.div_mod n d ltac:(lia)). pose proof (Z.mod_pos_bound n d Hd).
  destruct (Z.compare_spec (2 * (n mod d)) d); [destruct (Z.even (n / d))| |]; nia.
Qed.

Lemma dhe_ge n d N : 0 < d -> N * d <= n -> N <= div_half_even n d.
Proof.
  intros Hd Hn. unfold div_half_even.
  pose proof (Z.div_mod n d ltac:(lia)). pose proof (Z.mod_pos_bound n d Hd).
  destruct (Z.compare_spec (2 * (n mod d)) d); [destruct (Z.even (n / d))| |]; nia.
Qed.

Lemma dhe_1 n : div_half_even n 1 = n.
Proof.
  unfold div_half_even. rewrite Z.mod_1_r, Z.div_1_r. reflexivity.
Qed.

(** ** The rounding of the operations *)

Lemma fexp_fexp64 x : fexp prec emax x = fexp64 x.
Proof. reflexivity. Qed.

Lemma round_range p e :
  let fe := fexp64 (digits p + e) in
  e <= fe ->
  let m1 := div_half_even (Zpos p) (2 ^ (fe - e)) in
  0 <= m1 <= 2 ^ 53 /\ (-1074 < fe -> 2 ^ 52 <= m1).
Proof.
  intros fe He m1. subst m1.
  pose proof (digits_bounds p) as [Hlo Hhi]. pose proof (digits_pos p) as Hd.
  assert (Hk : 0 < 2 ^ (fe - e)) by (apply Z.pow_pos_nonneg; lia).
  assert (Hfe : digits p + e - 53 <= fe) by (unfold fe, fexp64; lia).
  repeat split.
  - apply dhe_ge; lia.
  - apply dhe_le; trivial.
    rewrite <- Z.pow_add_r by lia.
    assert (2 ^ digits p <= 2 ^ (53 + (fe - e))) by (apply Z.pow_le_mono_r; lia).
    lia.
  - intros Hn. assert (fe = digits p + e - 53) by (unfold fe, fexp64 in *; lia).
    apply dhe_ge; trivial. rewrite <- Z.pow_add_r by lia.
    replace (52 + (fe - e)) with (digits p - 1) by lia. lia.
Qed.

Lemma second_shift s m fe :
  0 <= m <= 2 ^ 53 -> -1074 <= fe ->
  (let '(mrs, e) := shr_fexp prec emax m fe loc_Exact in
   match shr_m mrs with
   | Z0 => S754_zero s
   | Zpos q => if e <=? emax - prec then S754_finite s q e else S754_infinity s
   | Zneg _ => S754_nan
   end) = pack s m fe.
Proof.
  intros Hm Hfe. unfold shr_fexp, pack. rewrite fexp_fexp64.
  destruct m as [|q|q]; [| |lia].
  - cbn [Zdigits2]. unfold shr.
    assert (fexp64 (0 + fe) - fe <= 0) by (unfold fexp64; lia).
    destruct (fexp64 (0 + fe) - fe); [reflexivity|lia|reflexivity].
  - cbn [Zdigits2]. fold (digits q).
    pose proof (digits_bounds q) as [Hlo Hhi]. pose proof (digits_pos q).
    destruct (Z.eqb_spec (Z.pos q) (2 ^ 53)) as [E|E].
    + assert (digits q = 54) as -> by (apply digits_unique; rewrite E; simpl; lia).
      replace (fexp64 (54 + fe) - fe) with 1 by (unfold fexp64; lia).
      injection E as ->. reflexivity.
    + assert (digits q <= 53).
      { destruct (Z_lt_le_dec 53 (digits q)); [|lia].
        assert (2 ^ 53 <= 2 ^ (digits q - 1)) by (apply Z.pow_le_mono_r; lia). lia. }
      assert (fexp64 (digits q + fe) - fe <= 0) by (unfold fexp64; lia).
      unfold shr. destruct (fexp64 (digits q + fe) - fe); [reflexivity|lia|reflexivity].
Qed.

(** What [binary_round_aux] gives for an exact mantissa [p] at the exponent
    [e], when the exponent is not above that of the result. *)
Lemma binary_round_aux_exact s p e :
  let fe := fexp64 (digits p + e) in
  e <= fe ->
  binary_round_aux prec emax s (Zpos p) e loc_Exact
  = pack s (div_half_even (Zpos p) (2 ^ (fe - e))) fe.
Proof.
  intros fe He.
  pose proof (round_range p e He) as [Hr _]. fold fe in Hr.
  assert (Hfe : -1074 <= fe) by (unfold fe, fexp64; lia).
  unfold binary_round_aux.
  unfold shr_fexp at 1. rewrite fexp_fexp64. cbn [Zdigits2]. fold (digits p). fold fe.
  cbn [shr_record_of_loc]. unfold shr at 1.
  destruct (fe - e) as [|k|k] eqn:Ek; [| |lia].
  - cbn [shr_m loc_of_shr_record round_nearest_even].
    rewrite Z.pow_0_r, dhe_1 in *.
    replace e with fe by lia. apply second_shift; trivial.
  - rewrite iter_shr by lia. rewrite round_shifted by lia.
    replace (e + Z.pos k) with fe by lia.
    apply second_shift; trivial.
Qed.

Lemma bpow_pos e : (0 < bpow e)%R.
Proof. apply powerRZ_lt. lra. Qed.

Lemma bpow_add a b : bpow (a + b) = (bpow a * bpow b)%R.
Proof. apply powerRZ_add. lra. Qed.

Lemma bpow_IZR n : 0 <= n -> bpow n = IZR (2 ^ n).
Proof.
  intros Hn. unfold bpow. destruct n as [|p|p]; [reflexivity| |lia].
  cbn [powerRZ]. rewrite pow_IZR. rewrite positive_nat_Z. reflexivity.
Qed.

Lemma bpow_le a b : a <= b -> (bpow a <= bpow b)%R.
Proof.
  intros H. replace b with (a + (b - a)) by lia. rewrite bpow_add.
  rewrite (bpow_IZR (b - a)) by lia.
  assert (1 <= 2 ^ (b - a)) by (apply (Z.pow_le_mono_r 2 0); lia).
  apply IZR_le in H0. pose proof (bpow_pos a). nra.
Qed.

Lemma bpow_lt a b : a < b -> (bpow a < bpow b)%R.
Proof.
  intros H. replace b with (a + (b - a)) by lia. rewrite bpow_add.
  rewrite (bpow_IZR (b - a)) by lia.
  assert (2 <= 2 ^ (b - a)) by (apply (Z.pow_le_mono_r 2 1); lia).
  apply IZR_le in H0. pose proof (bpow_pos a). nra.
Qed.

Lemma bpow_lt_inv a b : (bpow a < bpow b)%R -> a < b.
Proof.
  intros H. destruct (Z_lt_le_dec a b); trivial.
  apply bpow_le in l. lra.
Qed.

Lemma bpow_0 : bpow 0 = 1%R.
Proof. reflexivity. Qed.

Lemma bpow_1 : bpow 1 = 2%R.
Proof. unfold bpow. simpl. lra. Qed.

(** ** The real value *)

Lemma F2R_shift m e k : 0 <= k -> F2R (m * 2 ^ k) e = F2R m (e + k).
Proof.
  intros Hk. unfold F2R. rewrite mult_IZR, <- bpow_IZR, (Z.add_comm e k), bpow_add by trivial. ring.
Qed.

Lemma F2R_le m n e : m <= n -> (F2R m e <= F2R n e)%R.
Proof. intros H. unfold F2R. apply IZR_le in H. pose proof (bpow_pos e). nra. Qed.

Lemma F2R_le_inv m n e : (F2R m e <= F2R n e)%R -> m <= n.
Proof.
  intros H. unfold F2R in H. apply le_IZR.
  apply Rmult_le_reg_r with (bpow e); [apply bpow_pos | exact H].
Qed.

Lemma F2R_digits p e : (bpow (digits p - 1 + e) <= F2R (Zpos p) e < bpow (digits p + e))%R.
Proof.
  pose proof (digits_bounds p) as [H1 H2]. pose proof (digits_pos p).
  unfold F2R. rewrite !bpow_add.
  rewrite (bpow_IZR (digits p - 1)), (bpow_IZR (digits p)) by lia.
  apply IZR_le in H1. apply IZR_lt in H2. pose proof (bpow_pos e). split.
  - apply Rmult_le_compat_r; [lra | exact H1].
  - apply Rmult_lt_compat_r; trivial.
Qed.

(** ** Valid floats *)

Lemma bounded_inv m e : SpecFloat.bounded prec emax m e = true ->
  e = fexp64 (digits m + e) /\ e <= 971.
Proof.
  unfold SpecFloat.bounded, canonical_mantissa. rewrite andb_true_iff, fexp_fexp64.
  intros [H1 H2]. apply Z.eqb_eq in H1. apply Z.leb_le in H2.
  split; [now symmetry | exact H2].
Qed.

Lemma bounded_intro m e : e = fexp64 (digits m + e) -> e <= 971 ->
  SpecFloat.bounded prec emax m e = true.
Proof.
  intros H1 H2. unfold SpecFloat.bounded, canonical_mantissa. rewrite andb_true_iff, fexp_fexp64.
  split; [apply Z.eqb_eq; now symmetry | now apply Z.leb_le].
Qed.

Lemma fexp64_mono a b : a <= b -> fexp64 a <= fexp64 b.
Proof. unfold fexp64. lia. Qed.

Lemma iter_xO p k : Zpos (Pos.iter xO p k) = Zpos p * 2 ^ Zpos k.
Proof.
  induction k as [|k IH] using Pos.peano_ind.
  - simpl. lia.
  - rewrite Pos.iter_succ, Pos2Z.inj_xO, IH, Pos2Z.inj_succ, Z.pow_succ_r by lia. lia.
Qed.

Lemma shl_align_fst p e e' : e' <= e ->
  Zpos (fst (shl_align p e e')) = Zpos p * 2 ^ (e - e').
Proof.
  intros H. unfold shl_align.
  destruct (e' - e) as [|k|k] eqn:E; [| lia |].
  - replace (e - e') with 0 by lia. cbn [fst]. lia.
  - cbn [fst]. replace (e - e') with (Zpos k) by lia. apply iter_xO.
Qed.

Lemma digits_shift p q k : 0 <= k -> Zpos q = Zpos p * 2 ^ k -> digits q = digits p + k.
Proof.
  intros Hk E. apply digits_unique. rewrite E.
  pose proof (digits_bounds p) as [H1 H2]. pose proof (digits_pos p).
  replace (digits p + k - 1) with (digits p - 1 + k) by lia.
  rewrite !Z.pow_add_r by lia.
  assert (0 < 2 ^ k) by (apply Z.pow_pos_nonneg; lia). nia.
Qed.

Section Round.

Variables (p : positive) (e : Z).
Let fe := fexp64 (digits p + e).
Let M := rnd (Zpos p) e fe.
Let v := F2R (Zpos p) e.

Lemma rnd_range : 0 <= M <= 2 ^ 53 /\ (-1074 < fe -> 2 ^ 52 <= M).
Proof.
  subst M. unfold rnd. destruct (Z.leb_spec e fe) as [H|H].
  - apply round_range. exact H.
  - pose proof (digits_bounds p) as [H1 H2]. pose proof (digits_pos p).
    assert (Hfe : digits p + e - 53 <= fe) by (unfold fe, fexp64; lia).
    assert (0 < 2 ^ (e - fe)) by (apply Z.pow_pos_nonneg; lia).
    repeat split.
    + nia.
    + assert (2 ^ digits p * 2 ^ (e - fe) <= 2 ^ 53).
      { rewrite <- Z.pow_add_r by lia. apply Z.pow_le_mono_r; lia. }
      nia.
    + intros Hn. assert (fe = digits p + e - 53) by (unfold fe, fexp64 in *; lia).
      assert (2 ^ (digits p - 1) * 2 ^ (e - fe) = 2 ^ 52).
      { rewrite <- Z.pow_add_r by lia. f_equal. lia. }
      nia.
Qed.

Lemma fe_min : -1074 <= fe.
Proof. unfold fe, fexp64. lia. Qed.

Lemma rnd_le N : (v <= F2R N fe)%R -> M <= N.
Proof.
  subst M v. unfold rnd. intros Hv. destruct (Z.leb_spec e fe) as [H|H].
  - apply dhe_le; [apply Z.pow_pos_nonneg; lia|].
    apply (F2R_le_inv _ _ e). rewrite F2R_shift by lia.
    replace (e + (fe - e)) with fe by lia. exact Hv.
  - apply (F2R_le_inv _ _ fe). rewrite F2R_shift by lia.
    replace (fe + (e - fe)) with e by lia. exact Hv.
Qed.

Lemma rnd_ge N : (F2R N fe <= v)%R -> N <= M.
Proof.
  subst M v. unfold rnd. intros Hv. destruct (Z.leb_spec e fe) as [H|H].
  - apply dhe_ge; [apply Z.pow_pos_nonneg; lia|].
    apply (F2R_le_inv _ _ e). rewrite F2R_shift by lia.
    replace (e + (fe - e)) with fe by lia. exact Hv.
  - apply (F2R_le_inv _ _ fe). rewrite F2R_shift by lia.
    replace (fe + (e - fe)) with e by lia. exact Hv.
Qed.

Lemma v_pos : (0 < v)%R.
Proof.
  unfold v, F2R. apply Rmult_lt_0_compat; [now apply IZR_lt | apply bpow_pos].
Qed.

(** The error of the rounding is at most half a unit of the last place,
    and nothing when the exponent is not below that of the result. *)
Lemma rnd_err : (Rabs (F2R M fe - v) <= bpow (fe - 1))%R /\
  (fe <= e -> F2R M fe = v).
Proof.
  subst M v. unfold rnd. destruct (Z.leb_spec e fe) as [H|H].
  - split.
    + assert (Hd : 0 < 2 ^ (fe - e)) by (apply Z.pow_pos_nonneg; lia).
      pose proof (dhe_err (Zpos p) (2 ^ (fe - e)) Hd) as [E1 E2].
      set (q := div_half_even (Zpos p) (2 ^ (fe - e))) in *.
      apply IZR_le in E1, E2.
      rewrite opp_IZR, mult_IZR, minus_IZR, mult_IZR in E1.
      rewrite mult_IZR, minus_IZR, mult_IZR in E2.
      rewrite <- bpow_IZR in E1, E2 by lia.
      unfold F2R.
      replace (bpow fe) with (bpow (fe - e) * bpow e)%R
        by (rewrite <- bpow_add; f_equal; lia).
      replace (bpow (fe - 1)) with (bpow (fe - e) * bpow e * / 2)%R.
      2:{ rewrite <- bpow_add. replace (fe - e + e) with (fe - 1 + 1) by lia.
          rewrite bpow_add, bpow_1. field. }
      generalize (bpow_pos e) (bpow_pos (fe - e)).
      generalize dependent (bpow e). generalize dependent (bpow (fe - e)).
      generalize (IZR q) (IZR (Zpos p)). intros Q P b E1 E2 b' Hb' Hb.
      apply Rabs_le. split; nra.
    + intros H'. assert (fe = e) as -> by lia.
      rewrite Z.sub_diag, Z.pow_0_r, dhe_1. reflexivity.
  - split.
    + rewrite F2R_shift by lia. replace (fe + (e - fe)) with e by lia.
      rewrite Rminus_diag, Rabs_R0. pose proof (bpow_pos (fe - 1)). lra.
    + intros _. rewrite F2R_shift by lia. f_equal. lia.
Qed.

(** When the exponent is in the range of the format the error is
    relative. *)
Lemma rnd_err_rel : -1074 <= e -> (Rabs (F2R M fe - v) <= bpow (-53) * v)%R.
Proof.
  intros He. destruct rnd_err as [E1 E2].
  destruct (Z_le_gt_dec fe e) as [H|H].
  - rewrite E2 by trivial. rewrite Rminus_diag, Rabs_R0.
    pose proof v_pos. pose proof (bpow_pos (-53)). nra.
  - assert (fe = digits p + e - 53) by (unfold fe, fexp64 in *; lia).
    eapply Rle_trans; [exact E1|].
    pose proof (F2R_digits p e) as [D1 _]. fold v in D1.
    replace (fe - 1) with (-53 + (digits p - 1 + e)) by lia.
    rewrite bpow_add. pose proof (bpow_pos (-53)). nra.
Qed.

End Round.

Lemma binary_round_pack s p e :
  let fe := fexp64 (digits p + e) in
  binary_round prec emax s p e = pack s (rnd (Zpos p) e fe) fe.
Proof.
  intros fe. unfold binary_round. rewrite fexp_fexp64. fold (digits p). fold fe.
  unfold rnd. destruct (Z.leb_spec e fe) as [H|H].
  - assert (shl_align p e fe = (p, e)) as ->.
    { unfold shl_align. destruct (fe - e) eqn:E; trivial; lia. }
    apply binary_round_aux_exact; exact H.
  - pose proof (shl_align_fst p e fe ltac:(lia)) as Hm.
    unfold shl_align in *. destruct (fe - e) as [|k|k] eqn:E; [lia|lia|].
    cbn [fst] in Hm.
    pose proof (digits_shift p _ (e - fe) ltac:(lia) Hm) as Hd.
    rewrite binary_round_aux_exact; rewrite Hd;
      replace (digits p + (e - fe) + fe) with (digits p + e) by lia; fold fe; [|lia].
    rewrite Z.sub_diag, Z.pow_0_r, dhe_1, Hm. reflexivity.
Qed.

Lemma binary_round_aux_pack s p e :
  let fe := fexp64 (digits p + e) in
  e <= fe ->
  binary_round_aux prec emax s (Zpos p) e loc_Exact = pack s (rnd (Zpos p) e fe) fe.
Proof.
  intros fe H. unfold rnd. apply Z.leb_le in H as H'. rewrite H'.
  apply binary_round_aux_exact. exact H.
Qed.

Lemma F2R_opp m e : F2R (- m) e = (- F2R m e)%R.
Proof. unfold F2R. rewrite opp_IZR. ring. Qed.

Lemma F2R_cond_Zopp s m e :
  F2R (cond_Zopp s m) e = (if s then - F2R m e else F2R m e)%R.
Proof. destruct s; [apply F2R_opp | reflexivity]. Qed.

Lemma F2R_bpow k e : 0 <= k -> F2R (2 ^ k) e = bpow (k + e).
Proof. intros. unfold F2R. rewrite <- bpow_IZR, bpow_add by trivial. reflexivity. Qed.

Lemma digits_53 q : 2 ^ 52 <= Zpos q < 2 ^ 53 -> digits q = 53.
Proof. intros. apply digits_unique. exact H. Qed.

Lemma digits_le_53 q : Zpos q < 2 ^ 53 -> digits q <= 53.
Proof.
  intros H. pose proof (digits_bounds q) as [H1 _].
  destruct (Z_lt_le_dec 53 (digits q)); [|lia].
  assert (2 ^ 53 <= 2 ^ (digits q - 1)) by (apply Z.pow_le_mono_r; lia). lia.
Qed.

Lemma pack_spec s M fe :
  0 <= M <= 2 ^ 53 -> (-1074 < fe -> 2 ^ 52 <= M) -> -1074 <= fe ->
  (F2R M fe < bpow 1024)%R ->
  valid_binary (pack s M fe) = true /\ SFfinite (pack s M fe) = true /\
  B2R (pack s M fe) = F2R (cond_Zopp s M) fe.
Proof.
  intros HM Hn Hfe Hv. unfold pack.
  destruct M as [|q|q]; [| |lia].
  - split; [reflexivity|]. split; [reflexivity|].
    destruct s; cbn [B2R cond_Zopp Z.opp]; unfold F2R; now rewrite Rmult_0_l.
  - destruct (Z.eqb_spec (Zpos q) (2 ^ 53)) as [E|E].
    + rewrite E, F2R_bpow in Hv by lia. apply bpow_lt_inv in Hv.
      destruct (Z.leb_spec (fe + 1) 971); [|lia].
      repeat split.
      * apply bounded_intro; [|trivial].
        change (digits (2 ^ 52)) with 53. unfold fexp64. lia.
      * cbn [B2R]. rewrite E. rewrite !F2R_cond_Zopp.
        change (Zpos (2 ^ 52)) with (2 ^ 52). rewrite !F2R_bpow by lia.
        replace (52 + (fe + 1)) with (53 + fe) by lia. reflexivity.
    + assert (Hq : Zpos q < 2 ^ 53) by lia.
      assert (Hfe' : fe <= 971).
      { destruct (Z.eq_dec fe (-1074)); [lia|].
        assert (2 ^ 52 <= Zpos q) as Hq' by (apply Hn; lia).
        apply (F2R_le _ _ fe) in Hq'. rewrite F2R_bpow in Hq' by lia.
        assert (bpow (52 + fe) < bpow 1024)%R as Hb by lra.
        apply bpow_lt_inv in Hb. lia. }
      destruct (Z.leb_spec fe 971); [|lia].
      repeat split.
      apply bounded_intro; [|trivial].
      destruct (Z.eq_dec fe (-1074)) as [->|].
      * pose proof (digits_le_53 q Hq). pose proof (digits_pos q). unfold fexp64. lia.
      * rewrite digits_53 by (split; [apply Hn; lia | trivial]). unfold fexp64. lia.
Qed.

(** ** Between two floats *)

Lemma valid_finite_inv s m e : valid_binary (S754_finite s m e) = true ->
  e = fexp64 (digits m + e) /\ e <= 971 /\ -1074 <= e /\ digits m <= 53 /\
  (-1074 < e -> digits m = 53).
Proof.
  intros H. apply bounded_inv in H as [H1 H2]. pose proof (digits_pos m).
  unfold fexp64 in *. lia.
Qed.

Lemma valid_below_max x : valid_binary x = true -> (Rabs (B2R x) < bpow 1024)%R.
Proof.
  destruct x as [s|s| |s m e]; cbn [B2R]; intros H;
    try (rewrite Rabs_R0; apply bpow_pos).
  apply valid_finite_inv in H as (_ & He & _ & Hd & _).
  pose proof (F2R_digits m e) as [D1 D2].
  assert (bpow (digits m + e) <= bpow 1024)%R by (apply bpow_le; lia).
  rewrite F2R_cond_Zopp. pose proof (bpow_pos (digits m - 1 + e)).
  destruct s; [rewrite Rabs_Ropp|]; rewrite Rabs_pos_eq; lra.
Qed.

Section Between.

Variables (p : positive) (e : Z).
Let fe := fexp64 (digits p + e).
Let M := rnd (Zpos p) e fe.
Let v := F2R (Zpos p) e.

Lemma rnd_upper (hi : spec_float) :
  valid_binary hi = true -> (v <= B2R hi)%R -> (F2R M fe <= B2R hi)%R.
Proof.
  intros Hv Hhi. pose proof (v_pos p e) as Hp. fold v in Hp.
  destruct hi as [s|s| |s mh eh]; cbn [B2R] in *; try lra.
  rewrite F2R_cond_Zopp in *.
  pose proof (F2R_digits mh eh) as [D1 D2].
  pose proof (bpow_pos (digits mh - 1 + eh)).
  destruct s; [lra|].
  apply valid_finite_inv in Hv as (Hc & _).
  pose proof (F2R_digits p e) as [P1 P2]. fold v in P1, P2.
  assert (bpow (digits p - 1 + e) < bpow (digits mh + eh))%R as Hb by lra.
  apply bpow_lt_inv in Hb.
  assert (Hfe : fe <= eh).
  { rewrite Hc. apply fexp64_mono. lia. }
  rewrite <- (Z.sub_add fe eh), Z.add_comm, <- F2R_shift in * by lia.
  apply F2R_le. apply rnd_le. exact Hhi.
Qed.

Lemma rnd_lower (lo : spec_float) :
  valid_binary lo = true -> (B2R lo <= v)%R -> (B2R lo <= F2R M fe)%R.
Proof.
  intros Hv Hlo. pose proof (v_pos p e) as Hp. fold v in Hp.
  pose proof (rnd_range p e) as [[R1 R2] R3]. fold fe M in R1, R2, R3.
  assert (0 <= F2R M fe)%R as H0.
  { unfold F2R. apply Rmult_le_pos; [now apply IZR_le | left; apply bpow_pos]. }
  destruct lo as [s|s| |s ml el]; cbn [B2R] in *; try lra.
  rewrite F2R_cond_Zopp in *.
  pose proof (F2R_digits ml el) as [D1 D2].
  pose proof (bpow_pos (digits ml - 1 + el)).
  destruct s; [lra|].
  apply valid_finite_inv in Hv as (Hc & _ & _ & Hd & _).
  pose proof (F2R_digits p e) as [P1 P2]. fold v in P1, P2.
  assert (bpow (digits ml - 1 + el) < bpow (digits p + e))%R as Hb by lra.
  apply bpow_lt_inv in Hb.
  assert (Hfe : el <= fe).
  { rewrite Hc. apply fexp64_mono. lia. }
  destruct (Z.eq_dec el fe) as [E|E].
  - rewrite E in *. apply F2R_le. apply rnd_ge. exact Hlo.
  - assert (2 ^ 52 <= M) as HM by (apply R3; unfold fe, fexp64 in *; lia).
    apply (F2R_le _ _ fe) in HM. rewrite F2R_bpow in HM by lia.
    assert (bpow (digits ml + el) <= bpow (52 + fe))%R by (apply bpow_le; lia).
    lra.
Qed.

(** The rounding of [+- p * 2^e] stays between two floats that enclose
    it. *)
Lemma pack_between (s : bool) (lo hi : spec_float) :
  valid_binary lo = true -> valid_binary hi = true ->
  (B2R lo <= F2R (cond_Zopp s (Zpos p)) e <= B2R hi)%R ->
  let z := pack s M fe in
  valid_binary z = true /\ SFfinite z = true /\
  B2R z = F2R (cond_Zopp s M) fe /\
  (B2R lo <= B2R z <= B2R hi)%R.
Proof.
  intros Hlo Hhi Hv z.
  pose proof (rnd_range p e) as [R1 R3]. fold fe M in R1, R3.
  pose proof (fe_min p e) as Hfe. fold fe in Hfe.
  rewrite F2R_cond_Zopp in Hv. fold v in Hv.
  assert (Hb : (B2R lo <= (if s then - F2R M fe else F2R M fe) <= B2R hi)%R).
  { destruct s.
    - assert (Hlo' : valid_binary (SFopp lo) = true) by (destruct lo; trivial).
      assert (Hhi' : valid_binary (SFopp hi) = true) by (destruct hi; trivial).
      assert (Ho : forall x, B2R (SFopp x) = (- B2R x)%R).
      { intros [| | |s' m' e']; cbn [SFopp B2R]; try lra.
        rewrite !F2R_cond_Zopp. destruct s'; simpl; lra. }
      pose proof (rnd_upper (SFopp lo) Hlo') as U.
      pose proof (rnd_lower (SFopp hi) Hhi') as L.
      rewrite Ho in U, L. lra.
    - split; [apply rnd_lower | apply rnd_upper]; trivial; lra. }
  assert (Hmax : (F2R M fe < bpow 1024)%R).
  { pose proof (valid_below_max _ Hlo) as B1. pose proof (valid_below_max _ Hhi) as B2.
    apply Rabs_def2 in B1, B2. destruct s; lra. }
  destruct (pack_spec s M fe R1 R3 Hfe Hmax) as (V & F & E).
  repeat split; trivial; subst z; rewrite E, F2R_cond_Zopp; lra.
Qed.

End Between.

(** ** Sums and products *)

Lemma B2R_opp x : B2R (SFopp x) = (- B2R x)%R.
Proof.
  destruct x as [| | |s m e]; cbn [SFopp B2R]; try lra.
  rewrite !F2R_cond_Zopp. destruct s; simpl; lra.
Qed.

Lemma SFsub_add x y : SFsub prec emax x y = SFadd prec emax x (SFopp y).
Proof.
  destruct x as [sx|sx| |sx mx ex], y as [sy|sy| |sy my ey]; cbn [SFsub SFadd SFopp];
    try reflexivity;
    destruct sx, sy; reflexivity.
Qed.

Lemma F2R_add m n e : F2R (m + n) e = (F2R m e + F2R n e)%R.
Proof. unfold F2R. rewrite plus_IZR. ring. Qed.

Lemma aligned_value s m e ez : ez <= e ->
  F2R (cond_Zopp s (Zpos (fst (shl_align m e ez)))) ez = F2R (cond_Zopp s (Zpos m)) e.
Proof.
  intros H. rewrite shl_align_fst by trivial.
  rewrite !F2R_cond_Zopp. rewrite F2R_shift by lia.
  replace (ez + (e - ez)) with e by lia. reflexivity.
Qed.

Lemma normalize_between (S ez : Z) (lo hi : spec_float) :
  -1074 <= ez ->
  valid_binary lo = true -> valid_binary hi = true ->
  (B2R lo <= F2R S ez <= B2R hi)%R ->
  let z := binary_normalize prec emax S ez false in
  enclosed lo hi z /\
  (Rabs (B2R z - F2R S ez) <= bpow (-53) * Rabs (F2R S ez))%R.
Proof.
  intros Hez Hlo Hhi Hv z. subst z. destruct S as [|q|q]; cbn [binary_normalize].
  - unfold enclosed. cbn [B2R valid_binary SFfinite].
    replace (F2R 0 ez) with 0%R in * by (unfold F2R; simpl; ring).
    rewrite Rminus_diag, Rabs_R0. repeat split; lra.
  - rewrite binary_round_pack.
    destruct (pack_between q ez false lo hi Hlo Hhi Hv) as (V & F & E & B).
    split; [repeat split; trivial; apply B|].
    rewrite E. cbn [cond_Zopp].
    pose proof (rnd_err_rel q ez Hez). pose proof (v_pos q ez).
    rewrite (Rabs_pos_eq (F2R (Zpos q) ez)) by lra. trivial.
  - rewrite binary_round_pack.
    destruct (pack_between q ez true lo hi Hlo Hhi Hv) as (V & F & E & B).
    split; [repeat split; trivial; apply B|].
    rewrite E. cbn [cond_Zopp]. change (Zneg q) with (- Zpos q). rewrite !F2R_opp.
    pose proof (rnd_err_rel q ez Hez). pose proof (v_pos q ez).
    rewrite Rabs_Ropp, (Rabs_pos_eq (F2R (Zpos q) ez)) by lra.
    replace (- F2R (rnd (Zpos q) ez (fexp64 (digits q + ez))) (fexp64 (digits q + ez)) - - F2R (Zpos q) ez)%R
      with (- (F2R (rnd (Zpos q) ez (fexp64 (digits q + ez))) (fexp64 (digits q + ez)) - F2R (Zpos q) ez))%R by ring.
    rewrite Rabs_Ropp. trivial.
Qed.

Lemma exact_between (v : R) (lo hi z : spec_float) :
  valid_binary z = true -> SFfinite z = true -> B2R z = v ->
  (B2R lo <= v <= B2R hi)%R ->
  enclosed lo hi z /\ (Rabs (B2R z - v) <= bpow (-53) * Rabs v)%R.
Proof.
  intros V F E B. split; [repeat split; trivial; lra|].
  rewrite E, Rminus_diag, Rabs_R0.
  pose proof (bpow_pos (-53)). pose proof (Rabs_pos v). nra.
Qed.

Theorem SFadd_between (x y lo hi : spec_float) :
  valid_binary x = true -> SFfinite x = true ->
  valid_binary y = true -> SFfinite y = true ->
  valid_binary lo = true -> valid_binary hi = true ->
  (B2R lo <= B2R x + B2R y <= B2R hi)%R ->
  let z := SFadd prec emax x y in
  enclosed lo hi z /\
  (Rabs (B2R z - (B2R x + B2R y)) <= bpow (-53) * Rabs (B2R x + B2R y))%R.
Proof.
  intros Vx Fx Vy Fy Hlo Hhi Hv z. subst z.
  destruct x as [sx|sx| |sx mx ex], y as [sy|sy| |sy my ey]; try discriminate;
    cbn [SFadd].
  - cbn [B2R] in *. apply exact_between; trivial.
    + destruct sx, sy; reflexivity.
    + destruct sx, sy; reflexivity.
    + destruct sx, sy; cbn [B2R]; lra.
  - apply exact_between; trivial. cbn [B2R]. lra.
  - apply exact_between; trivial. cbn [B2R]. lra.
  - apply valid_finite_inv in Vx as (_ & _ & Hex & _), Vy as (_ & _ & Hey & _).
    cbn [B2R] in *.
    rewrite <- (aligned_value sx mx ex (Z.min ex ey)) in * by lia.
    rewrite <- (aligned_value sy my ey (Z.min ex ey)) in * by lia.
    rewrite <- F2R_add in *.
    apply normalize_between; trivial. lia.
Qed.

Theorem SFsub_between (x y lo hi : spec_float) :
  valid_binary x = true -> SFfinite x = true ->
  valid_binary y = true -> SFfinite y = true ->
  valid_binary lo = true -> valid_binary hi = true ->
  (B2R lo <= B2R x - B2R y <= B2R hi)%R ->
  let z := SFsub prec emax x y in
  enclosed lo hi z /\
  (Rabs (B2R z - (B2R x - B2R y)) <= bpow (-53) * Rabs (B2R x - B2R y))%R.
Proof.
  intros Vx Fx Vy Fy Hlo Hhi Hv z. subst z. rewrite SFsub_add.
  unfold Rminus in *. rewrite <- B2R_opp in *.
  apply SFadd_between; trivial; destruct y; trivial.
Qed.

Lemma digits_mul m n : digits m + digits n - 1 <= digits (m * n).
Proof.
  pose proof (digits_bounds m) as [M1 M2]. pose proof (digits_bounds n) as [N1 N2].
  pose proof (digits_bounds (m * n)) as [P1 P2].
  pose proof (digits_pos m). pose proof (digits_pos n). pose proof (digits_pos (m * n)).
  destruct (Z_lt_le_dec (digits (m * n)) (digits m + digits n - 1)) as [H2|H2]; [|lia].
  exfalso.
  assert (2 ^ digits (m * n) <= 2 ^ (digits m - 1 + (digits n - 1)))
    by (apply Z.pow_le_mono_r; lia).
  rewrite Z.pow_add_r in * by lia. rewrite Pos2Z.inj_mul in *. nia.
Qed.

Lemma SFmul_pack sx mx ex sy my ey :
  valid_binary (S754_finite sx mx ex) = true ->
  valid_binary (S754_finite sy my ey) = true ->
  let e := ex + ey in
  let fe := fexp64 (digits (mx * my) + e) in
  SFmul prec emax (S754_finite sx mx ex) (S754_finite sy my ey)
  = pack (xorb sx sy) (rnd (Zpos (mx * my)) e fe) fe.
Proof.
  intros Vx Vy e fe. cbn [SFmul].
  apply valid_finite_inv in Vx as (_ & _ & Hex & _ & Nx), Vy as (_ & _ & Hey & _ & Ny).
  pose proof (digits_mul mx my). pose proof (digits_pos mx). pose proof (digits_pos my).
  apply binary_round_aux_pack. unfold fexp64. lia.
Qed.

Lemma pack_shape s M fe :
  pack s M fe = S754_zero s \/ pack s M fe = S754_infinity s \/
  exists q e, pack s M fe = S754_finite s q e.
Proof.
  unfold pack. destruct M as [|q|q]; auto.
  destruct (Z.pos q =? 2 ^ 53).
  - destruct (fe + 1 <=? 971); eauto.
  - destruct (fe <=? 971); eauto.
Qed.

Theorem SFmul_between (x y lo hi : spec_float) :
  valid_binary x = true -> SFfinite x = true ->
  valid_binary y = true -> SFfinite y = true ->
  valid_binary lo = true -> valid_binary hi = true ->
  (B2R lo <= B2R x * B2R y <= B2R hi)%R ->
  enclosed lo hi (SFmul prec emax x y).
Proof.
  intros Vx Fx Vy Fy Hlo Hhi Hv.
  destruct x as [sx|sx| |sx mx ex], y as [sy|sy| |sy my ey]; try discriminate;
    cbn [SFmul]; cbn [B2R] in Hv;
    try (repeat split; cbn [B2R]; lra).
  pose proof (SFmul_pack sx mx ex sy my ey Vx Vy) as P. cbn [SFmul] in P.
  rewrite P. clear P.
  assert (E : (F2R (cond_Zopp sx (Zpos mx)) ex * F2R (cond_Zopp sy (Zpos my)) ey)%R
              = F2R (cond_Zopp (xorb sx sy) (Zpos (mx * my))) (ex + ey)).
  { rewrite !F2R_cond_Zopp. unfold F2R. rewrite Pos2Z.inj_mul, mult_IZR, bpow_add.
    destruct sx, sy; simpl; ring. }
  rewrite E in Hv.
  destruct (pack_between (mx * my) (ex + ey) (xorb sx sy) lo hi Hlo Hhi Hv) as (V & F & _ & B).
  repeat split; trivial; apply B.
Qed.

(** ** Comparison *)

Lemma canonical_lt m1 e1 m2 e2 :
  valid_binary (S754_finite false m1 e1) = true ->
  valid_binary (S754_finite false m2 e2) = true ->
  e1 < e2 -> (F2R (Zpos m1) e1 < F2R (Zpos m2) e2)%R.
Proof.
  intros V1 V2 H.
  apply valid_finite_inv in V1 as (_ & _ & H1 & D1 & _), V2 as (_ & _ & _ & _ & D2).
  pose proof (F2R_digits m1 e1) as [_ A]. pose proof (F2R_digits m2 e2) as [B _].
  rewrite D2 in B by lia.
  assert (bpow (digits m1 + e1) <= bpow (53 - 1 + e2))%R by (apply bpow_le; lia).
  lra.
Qed.

Lemma compare_pos m1 e1 m2 e2 :
  valid_binary (S754_finite false m1 e1) = true ->
  valid_binary (S754_finite false m2 e2) = true ->
  Rcmp (F2R (Zpos m1) e1) (F2R (Zpos m2) e2)
    match e1 ?= e2 with
    | Lt => Lt
    | Gt => Gt
    | Eq => Pos.compare_cont Eq m1 m2
    end.
Proof.
  intros V1 V2. destruct (Z.compare_spec e1 e2) as [E|E|E].
  - subst e2. change (Pos.compare_cont Eq m1 m2) with (Pos.compare m1 m2).
    destruct (Pos.compare_spec m1 m2) as [C|C|C]; cbn [Rcmp].
    + now subst.
    + unfold F2R. apply Rmult_lt_compat_r; [apply bpow_pos | apply IZR_lt; lia].
    + unfold F2R. apply Rmult_lt_compat_r; [apply bpow_pos | apply IZR_lt; lia].
  - now apply canonical_lt.
  - now apply canonical_lt.
Qed.

Lemma F2R_pos m e : (0 < F2R (Zpos m) e)%R.
Proof. apply v_pos. Qed.

Theorem SFcompare_Rcmp (x y : spec_float) :
  valid_binary x = true -> SFfinite x = true ->
  valid_binary y = true -> SFfinite y = true ->
  exists c, SFcompare x y = Some c /\ Rcmp (B2R x) (B2R y) c.
Proof.
  intros Vx Fx Vy Fy.
  destruct x as [sx|sx| |sx mx ex], y as [sy|sy| |sy my ey]; try discriminate;
    cbn [SFcompare B2R].
  - exists Eq. split; reflexivity.
  - pose proof (F2R_pos my ey). rewrite F2R_cond_Zopp.
    destruct sy; eexists; (split; [reflexivity|]); cbn [Rcmp]; lra.
  - pose proof (F2R_pos mx ex). rewrite F2R_cond_Zopp.
    destruct sx; eexists; (split; [reflexivity|]); cbn [Rcmp]; lra.
  - pose proof (F2R_pos mx ex). pose proof (F2R_pos my ey).
    rewrite !F2R_cond_Zopp.
    destruct sx, sy; eexists; (split; [reflexivity|]).
    + pose proof (compare_pos mx ex my ey Vx Vy) as C.
      destruct (ex ?= ey); [destruct (Pos.compare_cont Eq mx my)| |];
        cbn [Rcmp CompOpp] in *; lra.
    + cbn [Rcmp]. lra.
    + cbn [Rcmp]. lra.
    + apply (compare_pos mx ex my ey Vx Vy).
Qed.

Lemma SFltb_lt x y :
  valid_binary x = true -> SFfinite x = true ->
  valid_binary y = true -> SFfinite y = true ->
  SFltb x y = true <-> (B2R x < B2R y)%R.
Proof.
  intros Vx Fx Vy Fy. destruct (SFcompare_Rcmp x y Vx Fx Vy Fy) as (c & E & C).
  unfold SFltb. rewrite E. destruct c; cbn [Rcmp] in C; split; intros; try easy; lra.
Qed.

Lemma SFleb_le x y :
  valid_binary x = true -> SFfinite x = true ->
  valid_binary y = true -> SFfinite y = true ->
  SFleb x y = true <-> (B2R x <= B2R y)%R.
Proof.
  intros Vx Fx Vy Fy. destruct (SFcompare_Rcmp x y Vx Fx Vy Fy) as (c & E & C).
  unfold SFleb. rewrite E. destruct c; cbn [Rcmp] in C; split; intros; try easy; lra.
Qed.

End Binary64Facts.

(** ** Comparisons of floats *)

Module FloatFacts.

Local Open Scope float_scope.

Ltac fold_pos_compare :=
  repeat match goal with
  | |- context [Pos.compare_cont Eq ?m ?n] =>
      change (Pos.compare_cont Eq m n) with (Pos.compare m n)
  end.

Lemma SFcompare_antisym (x y : spec_float) (c : comparison) :
  SFcompare x y = Some c -> SFcompare y x = Some (CompOpp c).
Proof.
  destruct x as [sx|sx| |sx mx ex], y as [sy|sy| |sy my ey]; simpl;
    try discriminate;
    try (intros [= <-]; repeat match goal with b : bool |- _ => destruct b end;
         reflexivity).
  intros [= <-]. f_equal.
  destruct sx, sy; try reflexivity; fold_pos_compare;
    rewrite (Z.compare_antisym ex ey), (Pos.compare_antisym mx my);
    destruct (ex ?= ey)%Z; simpl; try reflexivity;
    destruct (mx ?= my)%positive; reflexivity.
Qed.

Lemma SFcompare_refl (x : spec_float) :
  x <> S754_nan -> SFcompare x x = Some Eq.
Proof.
  destruct x as [s|s| |s m e]; simpl; try congruence; intros _.
  - destruct s; reflexivity.
  - fold_pos_compare. rewrite Z.compare_refl, Pos.compare_refl.
    destruct s; reflexivity.
Qed.

Lemma ltb_leb_false (x y : float) : (x <? y) = true -> (y <=? x) = false.
Proof.
  rewrite FloatAxioms.ltb_spec, FloatAxioms.leb_spec. unfold SFltb, SFleb.
  destruct (SFcompare (Prim2SF x) (Prim2SF y)) as [c|] eqn:E; try discriminate.
  rewrite (SFcompare_antisym _ _ _ E). destruct c; simpl; congruence.
Qed.

Lemma leb_ltb_false (x y : float) : (x <=? y) = true -> (y <? x) = false.
Proof.
  rewrite FloatAxioms.ltb_spec, FloatAxioms.leb_spec. unfold SFltb, SFleb.
  destruct (SFcompare (Prim2SF x) (Prim2SF y)) as [c|] eqn:E; try discriminate.
  rewrite (SFcompare_antisym _ _ _ E). destruct c; simpl; congruence.
Qed.

Lemma Prim2SF_zero : Prim2SF 0 = S754_zero false.
Proof. reflexivity. Qed.

Lemma Prim2SF_nan : Prim2SF nan = S754_nan.
Proof. reflexivity. Qed.

Lemma pos_truthy (x : float) : (0 <? x) = true -> JS.truthy x = true.
Proof.
  unfold JS.truthy, is_zero, is_nan.
  rewrite FloatAxioms.ltb_spec, !FloatAxioms.eqb_spec, Prim2SF_zero. unfold SFltb, SFeqb.
  destruct (Prim2SF x) as [s|s| |s m e]; simpl; try discriminate.
  - destruct s; [discriminate | reflexivity].
  - fold_pos_compare. rewrite Z.compare_refl, Pos.compare_refl.
    destruct s; [discriminate | reflexivity].
Qed.

Lemma ltb_nan_r (x : float) : (x <? nan) = false.
Proof.
  rewrite FloatAxioms.ltb_spec, Prim2SF_nan. unfold SFltb.
  destruct (Prim2SF x); reflexivity.
Qed.

Lemma mul_nan_r (x : float) : x * nan = nan.
Proof.
  apply Prim2SF_inj. rewrite FloatAxioms.mul_spec, Prim2SF_nan.
  destruct (Prim2SF x); reflexivity.
Qed.

Lemma add_nan_r (x : float) : x + nan = nan.
Proof.
  apply Prim2SF_inj. rewrite FloatAxioms.add_spec, Prim2SF_nan.
  destruct (Prim2SF x); reflexivity.
Qed.

Lemma sub_nan_r (x : float) : x - nan = nan.
Proof.
  apply Prim2SF_inj. rewrite FloatAxioms.sub_spec, Prim2SF_nan.
  destruct (Prim2SF x); reflexivity.
Qed.

(** *** Real values *)

Import Binary64 Binary64Facts.

Lemma real_between (lo x hi : float) :
  real lo = true -> real hi = true ->
  (lo <=? x) = true -> (x <=? hi) = true -> real x = true.
Proof.
  unfold real. rewrite !FloatAxioms.leb_spec. unfold SFleb.
  destruct (Prim2SF x) as [s|s| |s m e]; trivial;
    destruct (Prim2SF lo) as [sl|sl| |sl ml el]; try discriminate;
    destruct (Prim2SF hi) as [sh|sh| |sh mh eh]; try discriminate;
    destruct s; simpl; try discriminate; destruct sl; discriminate.
Qed.

Lemma ltb_lt (x y : float) :
  real x = true -> real y = true -> (x <? y) = true <-> (FV x < FV y)%R.
Proof.
  intros Hx Hy. rewrite FloatAxioms.ltb_spec.
  apply SFltb_lt; trivial; apply Prim2SF_valid.
Qed.

Lemma leb_le (x y : float) :
  real x = true -> real y = true -> (x <=? y) = true <-> (FV x <= FV y)%R.
Proof.
  intros Hx Hy. rewrite FloatAxioms.leb_spec.
  apply SFleb_le; trivial; apply Prim2SF_valid.
Qed.

Lemma add_between (x y lo hi : float) :
  real x = true -> real y = true ->
  (FV lo <= FV x + FV y <= FV hi)%R ->
  real (x + y) = true /\ (FV lo <= FV (x + y) <= FV hi)%R /\
  (Rabs (FV (x + y) - (FV x + FV y)) <= bpow (-53) * Rabs (FV x + FV y))%R.
Proof.
  intros Hx Hy Hv. unfold real, FV in *. rewrite FloatAxioms.add_spec.
  destruct (SFadd_between (Prim2SF x) (Prim2SF y) (Prim2SF lo) (Prim2SF hi))
    as ((_ & F & B) & E); trivial; try apply Prim2SF_valid.
  auto.
Qed.

Lemma sub_between (x y lo hi : float) :
  real x = true -> real y = true ->
  (FV lo <= FV x - FV y <= FV hi)%R ->
  real (x - y) = true /\ (FV lo <= FV (x - y) <= FV hi)%R /\
  (Rabs (FV (x - y) - (FV x - FV y)) <= bpow (-53) * Rabs (FV x - FV y))%R.
Proof.
  intros Hx Hy Hv. unfold real, FV in *. rewrite FloatAxioms.sub_spec.
  destruct (SFsub_between (Prim2SF x) (Prim2SF y) (Prim2SF lo) (Prim2SF hi))
    as ((_ & F & B) & E); trivial; try apply Prim2SF_valid.
  auto.
Qed.

Lemma mul_between (x y lo hi : float) :
  real x = true -> real y = true ->
  (FV lo <= FV x * FV y <= FV hi)%R ->
  real (x * y) = true /\ (FV lo <= FV (x * y) <= FV hi)%R.
Proof.
  intros Hx Hy Hv. unfold real, FV in *. rewrite FloatAxioms.mul_spec.
  destruct (SFmul_between (Prim2SF x) (Prim2SF y) (Prim2SF lo) (Prim2SF hi))
    as (_ & F & B); trivial; try apply Prim2SF_valid.
  auto.
Qed.

Lemma bpow_neg (k : positive) : bpow (Zneg k) = (/ IZR (2 ^ Zpos k))%R.
Proof.
  rewrite <- bpow_IZR by lia. unfold bpow. cbn [powerRZ]. reflexivity.
Qed.

Lemma bpow_nonneg (k : Z) : 0 <= k -> bpow k = IZR (2 ^ k).
Proof. apply bpow_IZR. Qed.

(** The value of a float that is written out, as a fraction. *)
Ltac float_value c :=
  let x := eval vm_compute in (Prim2SF c) in
  change (FV c) with (B2R x) in *;
  cbv beta iota delta [B2R cond_Zopp Z.opp F2R] in *;
  repeat match goal with
  | |- context [bpow (Zneg ?k)] =>
      let v := eval vm_compute in (2 ^ Zpos k)%Z in
      rewrite (bpow_neg k) in *; change (2 ^ Zpos k)%Z with v in *
  | H : context [bpow (Zneg ?k)] |- _ =>
      let v := eval vm_compute in (2 ^ Zpos k)%Z in
      rewrite (bpow_neg k) in *; change (2 ^ Zpos k)%Z with v in *
  | |- context [bpow (Zpos ?k)] =>
      let v := eval vm_compute in (2 ^ Zpos k)%Z in
      rewrite (bpow_nonneg (Zpos k)) in * by lia; change (2 ^ Zpos k)%Z with v in *
  | H : context [bpow (Zpos ?k)] |- _ =>
      let v := eval vm_compute in (2 ^ Zpos k)%Z in
      rewrite (bpow_nonneg (Zpos k)) in * by lia; change (2 ^ Zpos k)%Z with v in *
  | |- context [bpow 0] => rewrite bpow_0 in *
  | H : context [bpow 0] |- _ => rewrite bpow_0 in *
  end.

Lemma SFmul_pos_shape (X Y : spec_float) :
  valid_binary X = true -> valid_binary Y = true ->
  SFltb (S754_zero false) X = true -> SFltb (S754_zero false) Y = true ->
  SFmul prec emax X Y = S754_infinity false \/
  (SFfinite (SFmul prec emax X Y) = true /\ (0 <= B2R (SFmul prec emax X Y))%R).
Proof.
  intros Vx Vy Hx Hy.
  destruct X as [sx|sx| |sx mx ex]; try discriminate;
    destruct Y as [sy|sy| |sy my ey]; try discriminate;
    destruct sx; try discriminate; destruct sy; try discriminate;
    try (left; reflexivity).
  rewrite SFmul_pack by trivial. cbn [xorb].
  destruct (pack_shape false
              (rnd (Zpos (mx * my)) (ex + ey)
                 (fexp64 (digits (mx * my) + (ex + ey))))
              (fexp64 (digits (mx * my) + (ex + ey)))) as [E|[E|(q & e & E)]];
    rewrite E; [right|left|right]; trivial; (split; [reflexivity|]).
  - cbn [B2R]. lra.
  - cbn [B2R cond_Zopp]. left. apply F2R_pos.
Qed.

(** A product of two numbers above 0 that does not exceed a float that
    stands for a real number stands for one too. *)
Lemma mul_pos_covered (c x y : float) :
  real c = true -> (0 <? x) = true -> (0 <? y) = true ->
  (c <? x * y) = false ->
  real (x * y) = true /\ (0 <= FV (x * y) <= FV c)%R.
Proof.
  intros Hc Hx Hy Hlt.
  assert (Hr : real (x * y) = true /\ (0 <= FV (x * y))%R).
  { revert Hlt Hx Hy Hc. unfold real, FV.
    rewrite !FloatAxioms.ltb_spec, FloatAxioms.mul_spec, Prim2SF_zero.
    unfold SF64mul. intros Hlt Hx Hy Hc.
    destruct (SFmul_pos_shape (Prim2SF x) (Prim2SF y)) as [E|E]; trivial;
      try apply Prim2SF_valid.
    rewrite E in Hlt. destruct (Prim2SF c) as [sc|sc| |sc mc ec]; discriminate. }
  destruct Hr as [Hr H0]. split; [trivial|]. split; [trivial|].
  destruct (Rle_or_lt (FV (x * y)) (FV c)) as [H|H]; [trivial|].
  apply ltb_lt in H; trivial. congruence.
Qed.

Lemma ltb_leb (x y : float) : (x <? y) = true -> (x <=? y) = true.
Proof.
  rewrite FloatAxioms.ltb_spec, FloatAxioms.leb_spec. unfold SFltb, SFleb.
  destruct (SFcompare (Prim2SF x) (Prim2SF y)) as [[]|]; congruence.
Qed.

End FloatFacts.

(** ** Rounding to two decimals *)

Module RoundFacts.

Import Binary64 Binary64Facts FloatFacts Py.
Local Open Scope Z_scope.

Lemma dhe_ge_half n d N :
  0 < d -> (2 * N - 1) * d < 2 * n -> N <= div_half_even n d.
Proof.
  intros Hd Hn. unfold div_half_even.
  pose proof (Z.div_mod n d ltac:(lia)). pose proof (Z.mod_pos_bound n d Hd).
  destruct (Z.compare_spec (2 * (n mod d)) d); [destruct (Z.even (n / d))| |]; nia.
Qed.

Lemma dhe_le_half n d N :
  0 < d -> 2 * n < (2 * N + 1) * d -> div_half_even n d <= N.
Proof.
  intros Hd Hn. unfold div_half_even.
  pose proof (Z.div_mod n d ltac:(lia)). pose proof (Z.mod_pos_bound n d Hd).
  destruct (Z.compare_spec (2 * (n mod d)) d); [destruct (Z.even (n / d))| |]; nia.
Qed.

Lemma scaled_lt a b e : e < 0 ->
  (IZR a < IZR b * bpow e)%R <-> a * 2 ^ (- e) < b.
Proof.
  intros He.
  assert (Hp : (0 < bpow (- e))%R) by apply bpow_pos.
  assert (E : (bpow e * bpow (- e) = 1)%R)
    by (rewrite <- bpow_add, Z.add_opp_diag_r; reflexivity).
  split; intros H.
  - apply lt_IZR. rewrite mult_IZR, <- bpow_IZR by lia.
    apply (Rmult_lt_compat_r _ _ _ Hp) in H.
    rewrite Rmult_assoc, E, Rmult_1_r in H. exact H.
  - apply IZR_lt in H. rewrite mult_IZR, <- bpow_IZR in H by lia.
    apply (Rmult_lt_reg_r (bpow (- e))); trivial.
    rewrite Rmult_assoc, E, Rmult_1_r. exact H.
Qed.

Lemma scaled_gt a b e : e < 0 ->
  (IZR b * bpow e < IZR a)%R <-> b < a * 2 ^ (- e).
Proof.
  intros He.
  assert (Hp : (0 < bpow (- e))%R) by apply bpow_pos.
  assert (E : (bpow e * bpow (- e) = 1)%R)
    by (rewrite <- bpow_add, Z.add_opp_diag_r; reflexivity).
  split; intros H.
  - apply lt_IZR. rewrite mult_IZR, <- bpow_IZR by lia.
    apply (Rmult_lt_compat_r _ _ _ Hp) in H.
    rewrite Rmult_assoc, E, Rmult_1_r in H. exact H.
  - apply IZR_lt in H. rewrite mult_IZR, <- bpow_IZR in H by lia.
    apply (Rmult_lt_reg_r (bpow (- e))); trivial.
    rewrite Rmult_assoc, E, Rmult_1_r. exact H.
Qed.

(** The hundredths of a float above [N - 1/2] hundredths are at least
    [N], and those of a float below [N + 1/2] hundredths at most [N]. *)
Lemma hundredths_ge (m : positive) (e N : Z) :
  (IZR (2 * N - 1) < 200 * F2R (Zpos m) e)%R -> N <= hundredths m e.
Proof.
  unfold hundredths, F2R. intros H.
  replace (200 * (IZR (Zpos m) * bpow e))%R with (IZR (200 * Zpos m) * bpow e)%R in H
    by (rewrite mult_IZR; ring).
  destruct (Z.leb_spec 0 e) as [He|He].
  - rewrite bpow_IZR, <- mult_IZR in H by trivial. apply lt_IZR in H. lia.
  - apply scaled_lt in H; trivial.
    apply dhe_ge_half; [apply Z.pow_pos_nonneg; lia | lia].
Qed.

Lemma hundredths_le (m : positive) (e N : Z) :
  (200 * F2R (Zpos m) e < IZR (2 * N + 1))%R -> hundredths m e <= N.
Proof.
  unfold hundredths, F2R. intros H.
  replace (200 * (IZR (Zpos m) * bpow e))%R with (IZR (200 * Zpos m) * bpow e)%R in H
    by (rewrite mult_IZR; ring).
  destruct (Z.leb_spec 0 e) as [He|He].
  - rewrite bpow_IZR, <- mult_IZR in H by trivial. apply lt_IZR in H. lia.
  - apply scaled_gt in H; trivial.
    apply dhe_le_half; [apply Z.pow_pos_nonneg; lia | lia].
Qed.

(** The rounding of a float between 89.9999 and 110.0001 is the float
    nearest to a number of hundredths between 90.00 and 110.00. *)
Lemma round2_float_hundredths (x : float) :
  real x = true -> (FV 89.9999 <= FV x <= FV 110.0001)%R ->
  exists n : Z, 9000 <= n <= 11000 /\ round2_float x = of_hundredths false n.
Proof.
  unfold real, FV at 2 3, round2_float. intros Hr Hx.
  destruct (Prim2SF x) as [s|s| |s m e]; try discriminate; cbn [B2R] in Hx.
  - float_value 89.9999%float. lra.
  - rewrite F2R_cond_Zopp in Hx. pose proof (F2R_pos m e) as Hp.
    exists (hundredths m e).
    assert (17999 < 200 * F2R (Zpos m) e < 22001)%R as [L U].
    { generalize dependent (F2R (Zpos m) e). intros v Hv Hp.
      float_value 89.9999%float. float_value 110.0001%float.
      destruct s; lra. }
    destruct s.
    { exfalso. generalize dependent (F2R (Zpos m) e). intros v Hv Hp.
      float_value 89.9999%float. lra. }
    split; [|reflexivity]. split.
    + apply hundredths_ge. exact L.
    + apply hundredths_le. exact U.
Qed.

(** *** Integers as floats *)

Lemma real_not_infinity (x : float) : real x = true -> is_infinity x = false.
Proof.
  unfold real, is_infinity.
  rewrite FloatAxioms.eqb_spec, FloatAxioms.abs_spec.
  change (Prim2SF infinity) with (S754_infinity false).
  destruct (Prim2SF x); try discriminate; reflexivity.
Qed.

Lemma of_Z_real (z : Z) : Z.abs z <= 2 ^ 1000 -> real (Binary64.of_Z z) = true.
Proof.
  intros Hz. unfold real, Binary64.of_Z.
  set (hi := S754_finite false (2 ^ 52) 948).
  destruct (normalize_between z 0 (SFopp hi) hi) as ((V & F & _) & _);
    try reflexivity; try lia.
  - rewrite B2R_opp. unfold hi. cbn [B2R cond_Zopp].
    change (Zpos (2 ^ 52)) with (2 ^ 52).
    replace 948 with (0 + 948) by reflexivity.
    rewrite <- F2R_shift, <- Z.pow_add_r by lia.
    rewrite <- F2R_opp. split; apply F2R_le; simpl (52 + 948); lia.
  - rewrite Prim2SF_SF2Prim; trivial.
Qed.

Lemma to_float_ok (z : Z) : Z.abs z <= 2 ^ 1000 -> to_float z = Ok (Binary64.of_Z z).
Proof.
  intros Hz. unfold to_float.
  now rewrite (real_not_infinity _ (of_Z_real z Hz)).
Qed.

End RoundFacts.

(** ** The portfolio store *)

Module ClientFacts.

Import JS Client Binary64 Binary64Facts FloatFacts.
Local Open Scope float_scope.

Section Trade.

Variable server : string -> xhr.
Variables tradeSymbol tradeQuantity : string.
Variable p : portfolio.

Let symbol := toUpperCase tradeSymbol.
Let q := parseInt tradeQuantity.
Let px := fetchCurrentPrice server symbol.

(** What a successful Buy leaves. *)
Lemma buy_success :
  is_empty symbol = false -> (q <=? 0) = false -> truthy px = true ->
  (cash p <? px * q) = false ->
  buyStock server tradeSymbol tradeQuantity p =
    ({| cash := cash p - px * q;
        stocks := <[symbol :=
          match stocks p !! symbol with
          | Some h => {| quantity := quantity h + q;
                         avg_price := ((quantity h * avg_price h) + (q * px))
                                      / (quantity h + q);
                         currentPrice := px |}
          | None => {| quantity := q; avg_price := px; currentPrice := px |}
          end]> (stocks p) |},
     Bought q symbol px).
Proof.
  intros Hs Hq Hp Hc. unfold buyStock.
  fold symbol q px. rewrite Hs, Hq. simpl. rewrite Hp. simpl. rewrite Hc.
  destruct (stocks p !! symbol); reflexivity.
Qed.

(** What a successful Sell leaves. *)
Lemma sell_success (h : holding) :
  is_empty symbol = false -> (q <=? 0) = false ->
  stocks p !! symbol = Some h -> (quantity h <? q) = false ->
  truthy px = true ->
  sellStock server tradeSymbol tradeQuantity p =
    ({| cash := cash p + px * q;
        stocks := if quantity h - q =? 0 then delete symbol (stocks p)
                  else <[symbol := {| quantity := quantity h - q;
                                      avg_price := avg_price h;
                                      currentPrice := currentPrice h |}]> (stocks p) |},
     Sold q symbol px).
Proof.
  intros Hs Hq Hh Hlt Hp. unfold sellStock.
  fold symbol q px. rewrite Hs, Hq. simpl. rewrite Hh, Hlt, Hp. reflexivity.
Qed.

End Trade.

Lemma fetchCurrentPrice_cases (server : string -> xhr) (symbol : string) :
  truthy (fetchCurrentPrice server symbol) = true \/
  fetchCurrentPrice server symbol = 0.
Proof.
  unfold fetchCurrentPrice.
  destruct (status (server symbol) =? 200)%Z; [|now right].
  destruct (price (server symbol)) as [x|]; [|now right].
  destruct (truthy x) eqn:E; [now left | now right].
Qed.

(** C1: a successful Buy of [q2 > 0] shares at a price [p2 > 0] that the
    cash covers takes [p2 * q2] from the cash and leaves the other holdings
    as they were; a holding of [q1] shares at the average [p1] becomes one
    of [q1 + q2] shares at [(q1 * p1 + q2 * p2) / (q1 + q2)], and a symbol
    not yet held gets a holding of [q2] shares at the average [p2]; in both
    cases [currentPrice] is [p2]. *)
Theorem buy_weighted_average (server : string -> xhr)
    (tradeSymbol tradeQuantity : string) (p : portfolio) :
  let symbol := toUpperCase tradeSymbol in
  let q2 := parseInt tradeQuantity in
  let p2 := fetchCurrentPrice server symbol in
  let p' := fst (buyStock server tradeSymbol tradeQuantity p) in
  symbol <> "" ->
  (0 <? q2) = true -> (0 <? p2) = true -> (p2 * q2 <=? cash p) = true ->
  snd (buyStock server tradeSymbol tradeQuantity p) = Bought q2 symbol p2 /\
  cash p' = cash p - p2 * q2 /\
  (forall h : holding, stocks p !! symbol = Some h ->
     stocks p' !! symbol =
       Some {| quantity := quantity h + q2;
               avg_price := (quantity h * avg_price h + q2 * p2) / (quantity h + q2);
               currentPrice := p2 |}) /\
  (stocks p !! symbol = None ->
     stocks p' !! symbol =
       Some {| quantity := q2; avg_price := p2; currentPrice := p2 |}) /\
  (forall s : string, s <> symbol -> stocks p' !! s = stocks p !! s).
Proof.
  intros symbol q2 p2 p' Hs Hq Hp Hc. subst p'.
  rewrite buy_success; fold symbol q2 p2.
  - simpl. split; [reflexivity|]. split; [reflexivity|].
    split; [|split].
    + intros h Hh. rewrite lookup_insert_eq, Hh. reflexivity.
    + intros Hh. rewrite lookup_insert_eq, Hh. reflexivity.
    + intros s Hne. now rewrite lookup_insert_ne.
  - destruct symbol; [congruence | reflexivity].
  - now apply ltb_leb_false.
  - now apply pos_truthy.
  - now apply leb_ltb_false.
Qed.

(** C2: a successful Sell of [q] shares, [0 < q <= h], of a holding of [h]
    shares at a price [px > 0] adds [px * q] to the cash and leaves the other
    holdings as they were; the holding is gone exactly when [h - q] is 0,
    and otherwise it has [h - q] shares at the average it had. *)
Theorem sell_decrements (server : string -> xhr)
    (tradeSymbol tradeQuantity : string) (p : portfolio) (h : holding) :
  let symbol := toUpperCase tradeSymbol in
  let q := parseInt tradeQuantity in
  let px := fetchCurrentPrice server symbol in
  let p' := fst (sellStock server tradeSymbol tradeQuantity p) in
  symbol <> "" -> stocks p !! symbol = Some h ->
  (0 <? q) = true -> (q <=? quantity h) = true -> (0 <? px) = true ->
  snd (sellStock server tradeSymbol tradeQuantity p) = Sold q symbol px /\
  cash p' = cash p + px * q /\
  (stocks p' !! symbol = None <-> (quantity h - q =? 0) = true) /\
  ((quantity h - q =? 0) = false ->
     stocks p' !! symbol =
       Some {| quantity := quantity h - q; avg_price := avg_price h;
               currentPrice := currentPrice h |}) /\
  (forall s : string, s <> symbol -> stocks p' !! s = stocks p !! s).
Proof.
  intros symbol q px p' Hs Hh Hq Hle Hp. subst p'.
  rewrite (sell_success _ _ _ _ h); fold symbol q px; trivial.
  - simpl. split; [reflexivity|]. split; [reflexivity|].
    destruct (quantity h - q =? 0) eqn:E.
    + split; [|split].
      * rewrite lookup_delete_eq. tauto.
      * discriminate.
      * intros s Hne. now rewrite lookup_delete_ne.
    + split; [|split].
      * rewrite lookup_insert_eq. split; discriminate.
      * intros _. now rewrite lookup_insert_eq.
      * intros s Hne. now rewrite lookup_insert_ne.
  - destruct symbol; [congruence | reflexivity].
  - now apply ltb_leb_false.
  - now apply leb_ltb_false.
  - now apply pos_truthy.
Qed.

(** C3: a Buy or a Sell that must be refused leaves the portfolio as it
    was, cash and holdings, and shows one of the failure messages. *)
Theorem refused_trade_unchanged (t : trade) (server : string -> xhr)
    (tradeSymbol tradeQuantity : string) (p : portfolio) :
  refused t server tradeSymbol tradeQuantity p ->
  fst (run_trade t server tradeSymbol tradeQuantity p) = p /\
  failure (snd (run_trade t server tradeSymbol tradeQuantity p)) = true.
Proof.
  unfold refused.
  set (symbol := toUpperCase tradeSymbol).
  set (q := parseInt tradeQuantity).
  set (px := fetchCurrentPrice server symbol).
  intros H. destruct t; simpl; unfold buyStock, sellStock;
    fold symbol q px.
  - destruct (is_empty symbol); [now split|].
    destruct (q <=? 0) eqn:Eq; [now split|]. simpl.
    destruct (truthy px) eqn:Ep; [|now split]. simpl.
    destruct (cash p <? px * q) eqn:Ec; [now split|].
    destruct H as [H|[H|H]]; try discriminate.
    rewrite H in Ep. discriminate.
  - destruct (is_empty symbol); [now split|].
    destruct (q <=? 0) eqn:Eq; [now split|]. simpl.
    destruct (stocks p !! symbol) as [h|]; [|now split].
    destruct (quantity h <? q) eqn:El; [now split|].
    destruct (truthy px) eqn:Ep; [|now split]. simpl.
    destruct H as [H|[H|H]]; try discriminate.
    rewrite H in Ep. discriminate.
Qed.

(** C10: when [parseInt] gives NaN for the quantity, neither trade shows
    "Invalid input." for a symbol that is not empty, and a Buy at a price
    above 0 goes through: the cash becomes NaN and the symbol is held with
    the quantity NaN. *)
Theorem nan_quantity_accepted (server : string -> xhr)
    (tradeSymbol tradeQuantity : string) (p : portfolio) :
  let symbol := toUpperCase tradeSymbol in
  let px := fetchCurrentPrice server symbol in
  let p' := fst (buyStock server tradeSymbol tradeQuantity p) in
  parseInt tradeQuantity = nan -> symbol <> "" -> (0 <? px) = true ->
  (nan <=? 0) = false /\ (cash p <? px * nan) = false /\
  snd (sellStock server tradeSymbol tradeQuantity p) <> InvalidInput /\
  snd (buyStock server tradeSymbol tradeQuantity p) = Bought nan symbol px /\
  cash p' = nan /\
  exists h : holding, stocks p' !! symbol = Some h /\ quantity h = nan.
Proof.
  intros symbol px p' Hq Hs Hp. subst p'.
  assert (Hs' : is_empty symbol = false)
    by (destruct symbol; [congruence | reflexivity]).
  split; [reflexivity|]. split; [rewrite mul_nan_r; apply ltb_nan_r|].
  split.
  - unfold sellStock. fold symbol px. rewrite Hq, Hs'. simpl.
    destruct (stocks p !! symbol) as [h|]; [|discriminate].
    destruct (quantity h <? nan); [discriminate|].
    destruct (truthy px); simpl; discriminate.
  - rewrite buy_success; fold symbol px; rewrite ?Hq; trivial.
    + simpl. rewrite mul_nan_r, sub_nan_r. split; [reflexivity|].
      split; [reflexivity|]. rewrite lookup_insert_eq.
      destruct (stocks p !! symbol) as [h|]; eexists;
        (split; [reflexivity|]); simpl; [apply add_nan_r | reflexivity].
    + now apply pos_truthy.
    + rewrite mul_nan_r. apply ltb_nan_r.
Qed.

(** *** A Buy and then a Sell *)

Lemma buy_ok_inv (server : string -> xhr) (tradeSymbol tradeQuantity : string)
    (p : portfolio) :
  let symbol := toUpperCase tradeSymbol in
  let q := parseInt tradeQuantity in
  let px := fetchCurrentPrice server symbol in
  failure (snd (buyStock server tradeSymbol tradeQuantity p)) = false ->
  is_empty symbol = false /\ (q <=? 0) = false /\ truthy px = true /\
  (cash p <? px * q) = false.
Proof.
  intros symbol q px. unfold buyStock. fold symbol q px.
  destruct (is_empty symbol); [discriminate|].
  destruct (q <=? 0); [discriminate|]. simpl.
  destruct (truthy px); [|discriminate]. simpl.
  destruct (cash p <? px * q); [discriminate|]. auto.
Qed.

Lemma sell_ok_inv (server : string -> xhr) (tradeSymbol tradeQuantity : string)
    (p : portfolio) :
  let symbol := toUpperCase tradeSymbol in
  let q := parseInt tradeQuantity in
  let px := fetchCurrentPrice server symbol in
  failure (snd (sellStock server tradeSymbol tradeQuantity p)) = false ->
  cash (fst (sellStock server tradeSymbol tradeQuantity p)) = cash p + px * q.
Proof.
  intros symbol q px. unfold sellStock. fold symbol q px.
  destruct (is_empty symbol); [discriminate|].
  destruct (q <=? 0); [discriminate|]. simpl.
  destruct (stocks p !! symbol) as [h|]; [|discriminate].
  destruct (quantity h <? q); [discriminate|].
  destruct (truthy px); [|discriminate]. reflexivity.
Qed.

Lemma Rabs_le_inv (x a : R) : (Rabs x <= a)%R -> (- a <= x <= a)%R.
Proof. unfold Rabs. destruct (Rcase_abs x); lra. Qed.

(** The cash after taking a cost away and adding it again: within
    [2^-51] of what it was, relatively. *)
Lemma sub_add_close (c t : float) :
  real c = true -> real t = true ->
  (0 <= FV t <= FV c)%R -> (FV c <= FV 1e300)%R ->
  real (c - t + t) = true /\
  (Rabs (FV (c - t + t) - FV c) <= bpow (-51) * FV c)%R.
Proof.
  intros Hc Ht Hb Hmax.
  destruct (sub_between c t 0 c) as (Rd & Bd & Ed); trivial.
  { float_value 0. lra. }
  destruct (add_between (c - t) t 0 2e300) as (Rs & Bs & Es); trivial.
  { float_value 0. float_value 1e300. float_value 2e300. lra. }
  split; [trivial|].
  assert (H0 : (FV 0 = 0)%R) by (float_value 0; lra).
  rewrite H0 in *.
  assert (Hu : (bpow (-53) = / 9007199254740992)%R) by (apply (bpow_neg 53)).
  assert (Hv : (bpow (-51) = / 2251799813685248)%R) by (apply (bpow_neg 51)).
  rewrite Hu in *. rewrite Hv.
  rewrite (Rabs_pos_eq (FV c - FV t)) in Ed by lra.
  rewrite (Rabs_pos_eq (FV (c - t) + FV t)) in Es by lra.
  apply Rabs_le_inv in Ed, Es. apply Rabs_le. lra.
Qed.

(** C6 as the code has it: a successful Buy of [q] shares and then a
    successful Sell of [q] shares of the same symbol at the same price
    leave the cash [(cash - px * q) + px * q], computed in floats; for
    cash between 0 and 1e300, a quantity and a price above 0, this is
    within the relative error [2^-51] of the cash before the trades. *)
Theorem buy_sell_cash (server1 server2 : string -> xhr)
    (tradeSymbol tradeQuantity : string) (p : portfolio) :
  let symbol := toUpperCase tradeSymbol in
  let q := parseInt tradeQuantity in
  let px := fetchCurrentPrice server1 symbol in
  let p1 := fst (buyStock server1 tradeSymbol tradeQuantity p) in
  let p2 := fst (sellStock server2 tradeSymbol tradeQuantity p1) in
  fetchCurrentPrice server2 symbol = px ->
  (0 <=? cash p) = true -> (cash p <=? 1e300) = true ->
  (0 <? q) = true -> (0 <? px) = true ->
  failure (snd (buyStock server1 tradeSymbol tradeQuantity p)) = false ->
  failure (snd (sellStock server2 tradeSymbol tradeQuantity p1)) = false ->
  cash p2 = cash p - px * q + px * q /\
  real (cash p2) = true /\
  (Rabs (FV (cash p2) - FV (cash p)) <= bpow (-51) * FV (cash p))%R.
Proof.
  intros symbol q px p1 p2 Hpx Hc0 Hc1 Hq Hp Hb Hs.
  destruct (buy_ok_inv _ _ _ _ Hb) as (Es & Eq & Et & Ec).
  fold symbol q px in Es, Eq, Et, Ec.
  assert (E : cash p2 = cash p - px * q + px * q).
  { subst p2. rewrite sell_ok_inv by trivial. fold symbol q. rewrite Hpx.
    subst p1. rewrite buy_success by trivial. reflexivity. }
  assert (Rc : real (cash p) = true) by (now apply (real_between 0 _ 1e300)).
  apply leb_le in Hc1; trivial.
  destruct (mul_pos_covered (cash p) px q) as (Rt & Bt); trivial.
  rewrite E. split; [reflexivity|]. apply sub_add_close; trivial.
Qed.

(** *** Instances *)

Lemma buy_weighted_average_witness :
  cash (fst (buyStock (quoting 110) "random" "10" ten_at_100)) = 7900 /\
  stocks (fst (buyStock (quoting 110) "random" "10" ten_at_100)) !! "RANDOM"
    = Some {| quantity := 20; avg_price := 105; currentPrice := 110 |}.
Proof.
  destruct (buy_weighted_average (quoting 110) "random" "10" ten_at_100)
    as (_ & B & C & _); [discriminate|reflexivity|reflexivity|reflexivity|].
  split; [exact B|].
  exact (C {| quantity := 10; avg_price := 100; currentPrice := 100 |} eq_refl).
Defined.

Lemma sell_decrements_witness :
  cash (fst (sellStock (quoting 110) "RANDOM" "5" ten_at_100)) = 9550 /\
  stocks (fst (sellStock (quoting 110) "RANDOM" "5" ten_at_100)) !! "RANDOM"
    = Some {| quantity := 5; avg_price := 100; currentPrice := 100 |}.
Proof.
  destruct (sell_decrements (quoting 110) "RANDOM" "5" ten_at_100
              {| quantity := 10; avg_price := 100; currentPrice := 100 |})
    as (_ & B & _ & C & _);
    [discriminate|reflexivity|reflexivity|reflexivity|reflexivity|].
  split; [exact B | exact (C eq_refl)].
Defined.

Lemma refused_trade_unchanged_witness :
  fst (sellStock (quoting 110) "RANDOM" "11" ten_at_100) = ten_at_100 /\
  failure (snd (sellStock (quoting 110) "RANDOM" "11" ten_at_100)) = true.
Proof.
  apply (refused_trade_unchanged Sell (quoting 110) "RANDOM" "11" ten_at_100).
  right. right. reflexivity.
Defined.

Lemma nan_quantity_accepted_witness :
  cash (fst (buyStock (quoting 100) "RANDOM" "" ten_at_100)) = nan /\
  snd (buyStock (quoting 100) "RANDOM" "" ten_at_100) = Bought nan "RANDOM" 100.
Proof.
  destruct (nan_quantity_accepted (quoting 100) "RANDOM" "" ten_at_100)
    as (_ & _ & _ & B & C & _); [reflexivity|discriminate|reflexivity|].
  split; [exact C | exact B].
Defined.

(** The example of the specification: from the cash 10000, a Buy of 10
    shares of RANDOM at 100.00 and then a Sell of 5 at 110.00. *)
Example trade_example :
  let p1 := fst (buyStock (quoting 100) "RANDOM" "10" initial_portfolio) in
  let p2 := fst (sellStock (quoting 110) "RANDOM" "5" p1) in
  cash p1 = 9000 /\
  stocks p1 !! "RANDOM"
    = Some {| quantity := 10; avg_price := 100; currentPrice := 100 |} /\
  cash p2 = 9550 /\
  stocks p2 !! "RANDOM"
    = Some {| quantity := 5; avg_price := 100; currentPrice := 100 |}.
Proof. vm_compute. repeat split. Qed.

(** Selling all the shares removes the holding. *)
Example sell_all_example :
  stocks (fst (sellStock (quoting 110) "RANDOM" "10" ten_at_100)) !! "RANDOM"
    = None.
Proof. reflexivity. Qed.

(** C6 as stated fails: from the cash 10000, after a Buy of one share at
    90.01 the cash is 9909.99; a Buy of 7 shares at 90.03 and a Sell of 7
    shares at 90.03 then both succeed and leave the cash
    9909.989999999998. *)
Lemma buy_sell_cash_differs :
  let p1 := fst (buyStock (quoting 90.03) "RANDOM" "7" after_one_share) in
  let p2 := fst (sellStock (quoting 90.03) "RANDOM" "7" p1) in
  cash after_one_share = 9909.99 /\
  snd (buyStock (quoting 90.03) "RANDOM" "7" after_one_share)
    = Bought 7 "RANDOM" 90.03 /\
  snd (sellStock (quoting 90.03) "RANDOM" "7" p1) = Sold 7 "RANDOM" 90.03 /\
  cash p2 = 9909.989999999998 /\
  (cash p2 =? cash after_one_share) = false.
Proof. vm_compute. repeat split. Qed.

Lemma buy_sell_cash_witness :
  let p1 := fst (buyStock (quoting 90.03) "RANDOM" "7" after_one_share) in
  let p2 := fst (sellStock (quoting 90.03) "RANDOM" "7" p1) in
  (Rabs (FV (cash p2) - FV (cash after_one_share))
   <= bpow (-51) * FV (cash after_one_share))%R.
Proof.
  apply (buy_sell_cash (quoting 90.03) (quoting 90.03) "RANDOM" "7" after_one_share);
    reflexivity.
Defined.

End ClientFacts.


(** ** How close the random price is to its draw *)

Module CloseFacts.

Import Binary64 Binary64Facts FloatFacts RoundFacts Py Server.

(** The error of a rounding: half a unit of the last place, which is a
    relative error of 2^-53 or, at the smallest exponent, 2^-1075. *)
Lemma rnd_err_abs (p : positive) (e : Z) :
  let fe := fexp64 (digits p + e) in
  (Rabs (F2R (rnd (Zpos p) e fe) fe - F2R (Zpos p) e)
   <= bpow (-53) * F2R (Zpos p) e + bpow (-1075))%R.
Proof.
  intros fe. pose proof (rnd_err p e) as [E _]. fold fe in E.
  eapply Rle_trans; [exact E|].
  pose proof (F2R_digits p e) as [D _]. pose proof (bpow_pos (-1075)).
  pose proof (bpow_pos (-53)). pose proof (F2R_pos p e).
  unfold fe, fexp64. destruct (Z.max_spec (digits p + e - 53) (-1074)) as [[_ ->]|[_ ->]].
  - change (-1074 - 1) with (-1075). nra.
  - replace (digits p + e - 53 - 1) with (-53 + (digits p - 1 + e)) by lia.
    rewrite bpow_add. nra.
Qed.

Lemma SFmul_close (x y lo hi : spec_float) :
  valid_binary x = true -> SFfinite x = true ->
  valid_binary y = true -> SFfinite y = true ->
  valid_binary lo = true -> valid_binary hi = true ->
  (B2R lo <= B2R x * B2R y <= B2R hi)%R ->
  (Rabs (B2R (SFmul prec emax x y) - B2R x * B2R y)
   <= bpow (-53) * Rabs (B2R x * B2R y) + bpow (-1075))%R.
Proof.
  intros Vx Fx Vy Fy Hlo Hhi Hv.
  pose proof (bpow_pos (-1075)). pose proof (bpow_pos (-53)).
  destruct x as [sx|sx| |sx mx ex], y as [sy|sy| |sy my ey]; try discriminate;
    cbn [SFmul]; cbn [B2R] in *;
    try (rewrite ?Rmult_0_l, ?Rmult_0_r, Rminus_diag, Rabs_R0; lra).
  pose proof (SFmul_pack sx mx ex sy my ey Vx Vy) as P. cbn [SFmul] in P.
  rewrite P. clear P.
  assert (E : (F2R (cond_Zopp sx (Zpos mx)) ex * F2R (cond_Zopp sy (Zpos my)) ey)%R
              = F2R (cond_Zopp (xorb sx sy) (Zpos (mx * my))) (ex + ey)).
  { rewrite !F2R_cond_Zopp. unfold F2R. rewrite Pos2Z.inj_mul, mult_IZR, bpow_add.
    destruct sx, sy; simpl; ring. }
  rewrite E in *.
  destruct (pack_between (mx * my) (ex + ey) (xorb sx sy) lo hi Hlo Hhi Hv) as (_ & _ & B & _).
  rewrite B. pose proof (rnd_err_abs (mx * my) (ex + ey)) as A. cbv zeta in A.
  pose proof (F2R_pos (mx * my) (ex + ey)) as Pv.
  rewrite !F2R_cond_Zopp.
  destruct (xorb sx sy).
  - replace (- F2R (rnd (Zpos (mx * my)) (ex + ey) (fexp64 (digits (mx * my) + (ex + ey))))
               (fexp64 (digits (mx * my) + (ex + ey))) - - F2R (Zpos (mx * my)) (ex + ey))%R
      with (- (F2R (rnd (Zpos (mx * my)) (ex + ey) (fexp64 (digits (mx * my) + (ex + ey))))
               (fexp64 (digits (mx * my) + (ex + ey))) - F2R (Zpos (mx * my)) (ex + ey)))%R
      by ring.
    rewrite !Rabs_Ropp, (Rabs_pos_eq (F2R _ _)) by lra. exact A.
  - rewrite (Rabs_pos_eq (F2R (Zpos (mx * my)) (ex + ey))) by lra. exact A.
Qed.

Lemma mul_close (x y lo hi : float) :
  real x = true -> real y = true ->
  (FV lo <= FV x * FV y <= FV hi)%R ->
  (Rabs (FV (x * y) - FV x * FV y)
   <= bpow (-53) * Rabs (FV x * FV y) + bpow (-1075))%R.
Proof.
  intros Hx Hy Hv. unfold real, FV in *. rewrite FloatAxioms.mul_spec.
  apply (SFmul_close _ _ (Prim2SF lo) (Prim2SF hi)); trivial; apply Prim2SF_valid.
Qed.

(** An error relative to a number within a bound. *)
Lemma within (z v u K t : R) :
  (Rabs (z - v) <= u * Rabs v + t)%R -> (Rabs v <= K)%R -> (0 <= u)%R ->
  (- (u * K + t) <= z - v <= u * K + t)%R.
Proof.
  intros E B U. assert (u * Rabs v <= u * K)%R by now apply Rmult_le_compat_l.
  apply ClientFacts.Rabs_le_inv. lra.
Qed.

Lemma within_rel (z v u K : R) :
  (Rabs (z - v) <= u * Rabs v)%R -> (Rabs v <= K)%R -> (0 <= u)%R ->
  (- (u * K) <= z - v <= u * K)%R.
Proof.
  intros E B U. assert (u * Rabs v <= u * K)%R by now apply Rmult_le_compat_l.
  apply ClientFacts.Rabs_le_inv. lra.
Qed.

(** The hundredths are the nearest to the number. *)
Lemma hundredths_near (m : positive) (e : Z) :
  (IZR (2 * hundredths m e - 1) <= 200 * F2R (Zpos m) e <= IZR (2 * hundredths m e + 1))%R.
Proof.
  split.
  - destruct (Rle_or_lt (IZR (2 * hundredths m e - 1)) (200 * F2R (Zpos m) e)) as [H|H];
      [exact H|exfalso].
    pose proof (hundredths_le m e (hundredths m e - 1)) as L.
    replace (2 * (hundredths m e - 1) + 1) with (2 * hundredths m e - 1) in L by lia.
    specialize (L H). lia.
  - destruct (Rle_or_lt (200 * F2R (Zpos m) e) (IZR (2 * hundredths m e + 1))) as [H|H];
      [exact H|exfalso].
    pose proof (hundredths_ge m e (hundredths m e + 1)) as L.
    replace (2 * (hundredths m e + 1) - 1) with (2 * hundredths m e + 1) in L by lia.
    specialize (L H). lia.
Qed.

Lemma near_hundredths_checked :
  forallb (fun k : nat => near_hundredth (9000 + Z.of_nat k)) (seq 0 2001) = true.
Proof. vm_compute. reflexivity. Qed.

Lemma of_hundredths_near (n : Z) :
  9000 <= n <= 11000 ->
  (Rabs (FV (of_hundredths false n) - IZR n / 100) <= bpow (-47))%R.
Proof.
  intros Hn. pose proof near_hundredths_checked as C.
  rewrite forallb_forall in C. specialize (C (Z.to_nat (n - 9000))).
  rewrite Z2Nat.id in C by lia.
  replace (9000 + (n - 9000)) with n in C by lia.
  assert (N : near_hundredth n = true) by (apply C, in_seq; lia).
  unfold near_hundredth in N. unfold FV.
  destruct (Prim2SF (of_hundredths false n)) as [s|s| |s m e]; try discriminate.
  destruct s; [discriminate|].
  apply andb_true_iff in N as [E A]. apply Z.eqb_eq in E. subst e.
  apply Z.leb_le in A. cbn [B2R cond_Zopp]. unfold F2R.
  assert (L : -50 <= 100 * Zpos m - n * 2 ^ 46 <= 50) by lia.
  destruct L as [L1 L2]. apply IZR_le in L1, L2.
  rewrite minus_IZR, !mult_IZR in L1, L2.
  change (bpow (-46)) with (bpow (Zneg 46)). change (bpow (-47)) with (bpow (Zneg 47)).
  rewrite !bpow_neg.
  change (2 ^ Zpos 46) with 70368744177664 in *.
  change (2 ^ Zpos 47) with 140737488355328.
  change (2 ^ 46) with 70368744177664 in *.
  generalize dependent (IZR (Zpos m)). generalize (IZR n). intros b a L1 L2.
  apply Rabs_le. lra.
Qed.

(** [round(x, 2)] moves a number between 89.9999 and 110.0001 by at most
    half a hundredth and the rounding of the result. *)
Lemma round2_float_near (x : float) :
  real x = true -> (FV 89.9999 <= FV x <= FV 110.0001)%R ->
  (Rabs (FV (round2_float x) - FV x) <= 5 / 1000 + bpow (-47))%R.
Proof.
  intros Hr Hx.
  destruct (round2_float_hundredths x Hr Hx) as (n & Hn & E).
  pose proof (of_hundredths_near n Hn) as N. rewrite <- E in N.
  assert (H : (Rabs (IZR n / 100 - FV x) <= 5 / 1000)%R).
  { assert (Ex : FV x = B2R (Prim2SF x)) by reflexivity.
    unfold real in Hr. unfold round2_float in E.
    destruct (Prim2SF x) as [s|s| |s m e]; try discriminate; cbn [B2R] in Ex.
    - exfalso. rewrite Ex in Hx. revert Hx. float_value 89.9999%float. lra.
    - rewrite F2R_cond_Zopp in Ex. pose proof (F2R_pos m e) as Hp.
      destruct s.
      { exfalso. rewrite Ex in Hx. revert Hx Hp. generalize (F2R (Zpos m) e).
        intros v. float_value 89.9999%float. lra. }
      rewrite Ex in *. clear Ex.
      pose proof (hundredths_near m e) as [A B].
      assert (Hh : 9000 <= hundredths m e <= 11000).
      { assert (17999 < 200 * F2R (Zpos m) e < 22001)%R as [L U].
        { revert Hx. generalize (F2R (Zpos m) e). intros v.
          float_value 89.9999%float. float_value 110.0001%float. lra. }
        split; [apply hundredths_ge; exact L | apply hundredths_le; exact U]. }
      assert (Q : n = hundredths m e).
      { destruct (Z.eq_dec n (hundredths m e)) as [Q|Q]; [exact Q|exfalso].
        pose proof (of_hundredths_near n Hn) as N1.
        pose proof (of_hundredths_near _ Hh) as N2. rewrite E in N2.
        apply ClientFacts.Rabs_le_inv in N1, N2.
        assert (n <= hundredths m e - 1 \/ hundredths m e + 1 <= n) as [C|C] by lia;
          apply IZR_le in C; rewrite ?minus_IZR, ?plus_IZR in C;
          revert N1 N2; change (bpow (-47)) with (bpow (Zneg 47)); rewrite bpow_neg;
          change (2 ^ Zpos 47) with 140737488355328; lra. }
      subst n. rewrite minus_IZR, mult_IZR in A. rewrite plus_IZR, mult_IZR in B.
      apply Rabs_le. lra. }
  apply ClientFacts.Rabs_le_inv in N, H. pose proof (bpow_pos (-47)).
  apply Rabs_le. lra.
Qed.

Local Open Scope float_scope.

(** A draw [r] in [0, 1) gives a price within 0.0051 of [90 + 20 r]: the
    draw stretched over the range, up to the rounding to hundredths. *)
Lemma random_price_near (r : float) :
  (0 <=? r) = true -> (r <? 1) = true ->
  (Rabs (FV (random_price r) - (90 + 20 * FV r)) <= 51 / 10000)%R.
Proof.
  intros H0 H1.
  assert (Hr : real r = true)
    by (apply (real_between 0 r 1); trivial; now apply ltb_leb).
  apply leb_le in H0; trivial. apply ltb_lt in H1; trivial.
  unfold random_price, uniform.
  set (c := 0.1 - -0.1).
  assert (U : (0 <= bpow (-53))%R) by (left; apply bpow_pos).
  (* c * r *)
  assert (V1 : (FV 0 <= FV c * FV r <= FV c)%R).
  { float_value c. float_value 0. float_value 1. lra. }
  destruct (mul_between c r 0 c) as (R1 & B1); trivial.
  pose proof (mul_close c r 0 c eq_refl Hr V1) as C1.
  apply (within _ _ _ (3 / 10) _) in C1; trivial;
    [|apply Rabs_le; revert V1; float_value c; float_value 0; float_value 1; lra].
  (* -0.1 + c * r *)
  destruct (add_between (-0.1) (c * r) (-0.1) 0.1) as (R2 & B2 & C2); trivial.
  { float_value c. float_value 0. float_value (-0.1). float_value 0.1. lra. }
  apply (within_rel _ _ _ (2 / 10)) in C2; trivial;
    [|apply Rabs_le; revert B1; float_value c; float_value 0; float_value (-0.1); lra].
  (* 1 + ... *)
  destruct (add_between 1 (-0.1 + c * r) 0.89999999 1.10000001) as (R3 & B3 & C3);
    trivial.
  { float_value 0.1. float_value (-0.1). float_value 1.
    float_value 0.89999999. float_value 1.10000001. lra. }
  apply (within_rel _ _ _ 2) in C3; trivial;
    [|apply Rabs_le; revert B2; float_value 1; float_value 0.1; float_value (-0.1); lra].
  (* 100 * ... *)
  assert (V4 : (FV 89.9999 <= FV 100 * FV (1 + (-0.1 + c * r)) <= FV 110.0001)%R).
  { float_value 100. float_value 0.89999999. float_value 1.10000001.
    float_value 89.9999. float_value 110.0001. lra. }
  destruct (mul_between 100 (1 + (-0.1 + c * r)) 89.9999 110.0001) as (R4 & B4);
    trivial.
  pose proof (mul_close 100 (1 + (-0.1 + c * r)) 89.9999 110.0001 eq_refl R3 V4) as C4.
  apply (within _ _ _ 111 _) in C4; trivial;
    [|apply Rabs_le; revert V4; float_value 89.9999; float_value 110.0001; lra].
  pose proof (round2_float_near _ R4 B4) as C5.
  apply ClientFacts.Rabs_le_inv in C5.
  (* together *)
  assert (T : (bpow (-1075) <= bpow (-53))%R) by (apply bpow_le; lia).
  revert C1 C2 C3 C4 C5 T.
  generalize (FV (round2_float (100 * (1 + (-0.1 + c * r))))).
  generalize (FV (100 * (1 + (-0.1 + c * r)))).
  generalize (FV (1 + (-0.1 + c * r))).
  generalize (FV (-0.1 + c * r)).
  generalize (FV (c * r)).
  generalize (bpow (-1075)).
  float_value c. float_value (-0.1). float_value 1. float_value 100. float_value 0.
  intros t x1 x2 x3 x4 x5 C1 C2 C3 C4 C5 T.
  apply Rabs_le. lra.
Qed.

End CloseFacts.

(** ** The routes *)

Module ServerFacts.

Import Py Server.
Import Binary64 Binary64Facts FloatFacts RoundFacts CloseFacts.
Local Open Scope float_scope.

(** *** The price of RANDOM *)

Lemma hundredths_checked :
  forallb (fun k : nat =>
             let x := of_hundredths false (9000 + Z.of_nat k) in
             (90 <=? x) && (x <=? 110))
          (seq 0 2001) = true.
Proof. vm_compute. reflexivity. Qed.

Lemma of_hundredths_range (n : Z) :
  (9000 <= n <= 11000)%Z ->
  (90 <=? of_hundredths false n) = true /\ (of_hundredths false n <=? 110) = true.
Proof.
  intros Hn. pose proof hundredths_checked as C.
  rewrite forallb_forall in C. specialize (C (Z.to_nat (n - 9000))).
  cbv zeta in C. rewrite Z2Nat.id in C by lia.
  replace (9000 + (n - 9000))%Z with n in C by lia.
  apply andb_true_iff, C, in_seq. lia.
Qed.

(** From a draw in [0, 1) the price is the float nearest to a number of
    hundredths between 90.00 and 110.00. *)
Lemma random_price_hundredths (r : float) :
  (0 <=? r) = true -> (r <? 1) = true ->
  exists n : Z, (9000 <= n <= 11000)%Z /\ random_price r = of_hundredths false n.
Proof.
  intros H0 H1.
  assert (Hr : real r = true)
    by (apply (real_between 0 r 1); trivial; now apply ltb_leb).
  apply leb_le in H0; trivial. apply ltb_lt in H1; trivial.
  unfold random_price, uniform.
  set (c := 0.1 - -0.1).
  destruct (mul_between c r 0 c) as (R1 & B1); trivial.
  { float_value c. float_value 0. float_value 1. lra. }
  destruct (add_between (-0.1) (c * r) (-0.1) 0.1) as (R2 & B2 & _); trivial.
  { float_value c. float_value 0. float_value (-0.1). float_value 0.1. lra. }
  destruct (add_between 1 (-0.1 + c * r) 0.89999999 1.10000001) as (R3 & B3 & _);
    trivial.
  { float_value 0.1. float_value (-0.1). float_value 1.
    float_value 0.89999999. float_value 1.10000001. lra. }
  destruct (mul_between 100 (1 + (-0.1 + c * r)) 89.9999 110.0001) as (R4 & B4);
    trivial.
  { float_value 100. float_value 0.89999999. float_value 1.10000001.
    float_value 89.9999. float_value 110.0001. lra. }
  apply round2_float_hundredths; trivial.
Qed.

(** *** The value of a portfolio *)

Lemma int_below_mono (B B' : Z) (n : num) :
  (B <= B')%Z -> int_below B n -> int_below B' n.
Proof. destruct n; simpl; [lia | trivial]. Qed.

Lemma arith_ok opz opf (a b : num) :
  int_below (2 ^ 1000) a -> int_below (2 ^ 1000) b ->
  arith opz opf a b = Ok (num_op opz opf a b).
Proof.
  destruct a as [x|f], b as [y|g]; simpl; intros Ha Hb; trivial;
    unfold arith; rewrite to_float_ok by trivial; reflexivity.
Qed.

Lemma number_valid (v : value) :
  is_number v = true ->
  as_num v = Some (number v) /\ of_num (number v) = v /\
  int_below (10 ^ 21) (number v).
Proof.
  destruct v; try discriminate; simpl; intros H; repeat split.
  apply Z.ltb_lt in H. lia.
Qed.

Lemma as_num_of_num (n : num) : as_num (of_num n) = Some n.
Proof. destruct n; reflexivity. Qed.

Lemma mul_below (a b : num) :
  int_below (10 ^ 21) a -> int_below (10 ^ 21) b ->
  int_below (10 ^ 42) (num_op Z.mul PrimFloat.mul a b).
Proof.
  destruct a as [x|f], b as [y|g]; simpl; trivial. intros Ha Hb.
  rewrite Z.abs_mul. change (10 ^ 42)%Z with (10 ^ 21 * 10 ^ 21)%Z.
  apply Z.mul_le_mono_nonneg; lia.
Qed.

Lemma add_below (B C : Z) (a b : num) :
  int_below B a -> int_below C b ->
  int_below (B + C) (num_op Z.add PrimFloat.add a b).
Proof. destruct a as [x|f], b as [y|g]; simpl; trivial. lia. Qed.

Lemma holding_ok (data : value) :
  valid_holding data = true ->
  (let* cprice := get_or data "currentPrice" (fun d => subscript d "avg_price") in
   let* qty := subscript data "quantity" in
   mul cprice qty) = Ok (of_num (holding_value data)) /\
  int_below (10 ^ 42) (holding_value data).
Proof.
  destruct data as [| | | | | |d]; try discriminate. simpl.
  unfold holding_value, price_of, field.
  destruct (assoc "quantity" d) as [q|]; [|discriminate].
  destruct (assoc "avg_price" d) as [a|]; [|discriminate]. simpl.
  intros H. apply andb_true_iff in H as [H Hc]. apply andb_true_iff in H as [Hq Ha].
  assert (Hp : is_number
                 match assoc "currentPrice" d with Some c => c | None => a end = true)
    by (destruct (assoc "currentPrice" d); trivial).
  destruct (number_valid _ Hp) as (P1 & _ & P3).
  destruct (number_valid _ Hq) as (Q1 & _ & Q3).
  split; [|now apply mul_below].
  unfold mul. rewrite P1, Q1.
  assert (10 ^ 21 <= 2 ^ 1000)%Z by (vm_compute; discriminate).
  rewrite arith_ok; [reflexivity| |]; now apply (int_below_mono (10 ^ 21)).
Qed.

Lemma add_holdings_ok (hs : list (string * value)) :
  forall (total : num) (B : Z),
  forallb (fun kv => valid_holding (snd kv)) hs = true ->
  int_below B total -> (0 <= B)%Z ->
  (B + Z.of_nat (length hs) * 10 ^ 42 <= 2 ^ 1000)%Z ->
  add_holdings (of_num total) hs =
    Ok (of_num (fold_left (fun t kv => num_op Z.add PrimFloat.add t
                                          (holding_value (snd kv))) hs total)).
Proof.
  induction hs as [|[k data] hs IH]; intros total B Hv Ht HB Hn; [reflexivity|].
  cbn [forallb snd] in Hv. apply andb_true_iff in Hv as [Hd Hv].
  cbn [add_holdings fold_left snd length] in *.
  destruct (holding_ok data Hd) as [E Hh].
  unfold bind in *.
  destruct (get_or data "currentPrice" (fun d => subscript d "avg_price"))
    as [cprice|]; [|discriminate].
  destruct (subscript data "quantity") as [qty|]; [|discriminate].
  rewrite E.
  assert (Hi : iadd (of_num total) (of_num (holding_value data)) =
               Ok (of_num (num_op Z.add PrimFloat.add total (holding_value data)))).
  { assert (0 <= 10 ^ 42)%Z by (vm_compute; discriminate).
    unfold iadd. rewrite !as_num_of_num, arith_ok; [reflexivity| |].
    - apply (int_below_mono B); [nia | trivial].
    - apply (int_below_mono (10 ^ 42)); [nia | trivial]. }
  assert (0 <= 10 ^ 42)%Z by (vm_compute; discriminate).
  rewrite Hi. apply (IH _ (B + 10 ^ 42)%Z); trivial; [now apply add_below|lia|lia].
Qed.

Lemma valid_value (body : value) :
  valid_portfolio body = true ->
  truth body = true /\
  compute_local_portfolio_value body = Ok (rounded (total_value body)).
Proof.
  destruct body as [| | | | | |d]; try discriminate. simpl.
  unfold compute_local_portfolio_value, total_value, field, subscript.
  destruct (assoc "cash" d) as [c|] eqn:Ec; [|discriminate].
  destruct (assoc "stocks" d) as [[| | | | | |hs]|]; try discriminate.
  intros H. apply andb_true_iff in H as [H Hn]. apply andb_true_iff in H as [Hc Hs].
  apply Z.ltb_lt in Hn.
  split; [destruct d; [discriminate | reflexivity]|].
  destruct (number_valid _ Hc) as (_ & C2 & C3).
  cbn [bind items]. rewrite <- C2 at 1.
  rewrite (add_holdings_ok hs (number c) (10 ^ 21)); trivial; [|lia|].
  - cbn [bind]. destruct (fold_left _ hs (number c)); reflexivity.
  - assert (10 ^ 21 + 2 ^ 64 * 10 ^ 42 <= 2 ^ 1000)%Z by (vm_compute; discriminate).
    nia.
Qed.

(** *** Bodies without the fields *)

Lemma missing_keys_raise (hs : list (string * value)) :
  forall total : value,
  forallb (fun kv => has_keys (snd kv)) hs = false ->
  exists e, add_holdings total hs = Raise e.
Proof.
  induction hs as [|[k data] hs IH]; cbn [forallb snd]; [discriminate|].
  intros total H. cbn [add_holdings].
  destruct (has_keys data) eqn:K.
  - cbn [andb] in H. unfold bind.
    destruct (get_or data "currentPrice" _) as [c|e]; [|eauto].
    destruct (subscript data "quantity") as [q|e]; [|eauto].
    destruct (mul c q) as [v|e]; [|eauto].
    destruct (iadd total v) as [t|e]; [|eauto].
    apply IH, H.
  - clear H IH. destruct data as [| | | | | |d]; try (cbn; eauto; fail).
    cbn [has_keys] in K. cbn [get_or subscript].
    destruct (assoc "avg_price" d); [|cbn; eauto]. cbn [bind].
    destruct (assoc "quantity" d); [discriminate|]. cbn. eauto.
Qed.

Lemma missing_fields_raise (v : value) :
  has_fields v = false -> exists e, compute_local_portfolio_value v = Raise e.
Proof.
  unfold compute_local_portfolio_value.
  destruct v as [| | | | | |d]; try (cbn; eauto; fail).
  cbn [has_fields subscript].
  destruct (assoc "cash" d) as [c|]; [|cbn; eauto]. cbn [bind].
  destruct (assoc "stocks" d) as [s|]; [|cbn; eauto]. cbn [bind].
  destruct s as [| | | | | |hs]; try (cbn; eauto; fail).
  cbn [items bind]. intros H.
  destruct (missing_keys_raise hs c H) as [e ->]. cbn. eauto.
Qed.

Section Routes.

Variable market : string -> period -> fetched.
Variable random : nat -> float.
Variable np_round2 : float -> float.
Variable strftime : Z -> string.
Variable plot_history : string -> list (string * float) -> option string.
Variable plot_performance : list string -> list value -> option string.

Lemma valid_post (body : value) (now : Z) (st : state) :
  valid_portfolio body = true ->
  snd (get_portfolio_chart strftime plot_performance (GetJson body) now st) =
    {| portfolio_history :=
         portfolio_history st ++ [(now, rounded (total_value body))];
       stdout := stdout st; fetches := fetches st; draws := draws st |}.
Proof.
  intros H. destruct (valid_value body H) as [T C]. simpl. rewrite T, C. simpl.
  destruct (plot_performance _ _); reflexivity.
Qed.



(** C7 as the code has it: for a symbol other than RANDOM, in any casing,
    a fetch that raises or gives no data makes the price route answer the
    price 0 and the chart route answer the empty chart, never a server
    error.  Only a fetch that raises is logged: its message is printed;
    when the fetch gives no data nothing is printed.  Nothing else of the
    state changes but the record of the call. *)
Theorem failed_fetch_degrades (symbol : string) (st : state) :
  toUpperCase symbol <> "RANDOM" ->
  let called (s : string) (p : period) (lines : list string) :=
    {| portfolio_history := portfolio_history st;
       stdout := stdout st ++ lines;
       fetches := fetches st ++ [(s, p)];
       draws := draws st |} in
  (forall e : string, market (toUpperCase symbol) P1d = FetchRaises e ->
   api_get_stock_price market random np_round2 symbol st =
     (Jsonify "price" (VInt 0),
      called (toUpperCase symbol) P1d
        ["Error fetching price for " ++ toUpperCase symbol ++ ": " ++ e])) /\
  (market (toUpperCase symbol) P1d = Frame [] ->
   api_get_stock_price market random np_round2 symbol st =
     (Jsonify "price" (VInt 0), called (toUpperCase symbol) P1d [])) /\
  (forall e : string, market symbol P1y = FetchRaises e ->
   api_get_stock_price_chart market plot_history symbol st =
     (Jsonify "chart" (VStr ""),
      called symbol P1y ["Error fetching 1y history for " ++ symbol ++ ": " ++ e])) /\
  (market symbol P1y = Frame [] ->
   api_get_stock_price_chart market plot_history symbol st =
     (Jsonify "chart" (VStr ""), called symbol P1y [])).
Proof.
  intros Hne called. subst called. apply String.eqb_neq in Hne.
  unfold api_get_stock_price, api_get_stock_price_chart, fetch, print.
  rewrite Hne. repeat split.
  - intros e ->. reflexivity.
  - intros ->. cbn. now rewrite app_nil_r.
  - intros e ->. reflexivity.
  - intros ->. cbn. now rewrite app_nil_r.
Qed.

(** C9: for a symbol that is RANDOM in some casing, the chart route answers
    the empty chart and the helper [get_stock_history] gives the empty
    series, both without a call to the market-data library or any other
    change of the state; and for any symbol a fetch that gives no data
    makes the chart route answer the empty chart, not an error. *)
Theorem random_chart_empty (symbol : string) (st : state) :
  toUpperCase symbol = "RANDOM" ->
  api_get_stock_price_chart market plot_history symbol st
    = (Jsonify "chart" (VStr ""), st) /\
  get_stock_history market symbol st = ([], st) /\
  forall other : string, market other P1y = Frame [] ->
    fst (api_get_stock_price_chart market plot_history other st)
      = Jsonify "chart" (VStr "").
Proof.
  intros H. unfold api_get_stock_price_chart, get_stock_history.
  rewrite H. simpl. repeat split.
  intros other Ho. destruct (toUpperCase other =? "RANDOM")%string; trivial.
  unfold fetch. rewrite Ho. reflexivity.
Qed.

(** C4 as the code has it.  When [get_json] raises the answer is a server
    error.  A body for which it returns a false value ([None], [null], an
    empty object, list or string, zero or [false]) is answered by the
    empty chart.  A true body without the fields that are read (it is not
    an object, has no [cash] or no [stocks], its [stocks] is not an
    object, or a holding is not an object or has no [avg_price] or no
    [quantity]) is answered by a server error.  In these three cases the
    state is unchanged: no sample is appended.  Any other true body is
    answered by a server error, with the state unchanged, when the
    arithmetic or the rounding raises; and otherwise it is taken for a
    portfolio, whatever it is: the sample is appended and the chart is
    drawn. *)
Theorem bad_body_no_sample (body : get_json_result) (now : Z) (st : state) :
  (body = GetJsonRaises ->
     get_portfolio_chart strftime plot_performance body now st
       = (HttpError, st)) /\
  (forall v : value, body = GetJson v -> truth v = false ->
     get_portfolio_chart strftime plot_performance body now st
       = (Jsonify "chart" (VStr ""), st)) /\
  (forall v : value, body = GetJson v -> truth v = true -> has_fields v = false ->
     get_portfolio_chart strftime plot_performance body now st
       = (HttpError, st)) /\
  (forall v : value, body = GetJson v -> truth v = true ->
     match compute_local_portfolio_value v with
     | Raise _ =>
         get_portfolio_chart strftime plot_performance body now st
           = (HttpError, st)
     | Ok val =>
         let st' := {| portfolio_history := portfolio_history st ++ [(now, val)];
                       stdout := stdout st;
                       fetches := fetches st;
                       draws := draws st |} in
         get_portfolio_chart strftime plot_performance body now st
           = (match plot_performance
                      (map (fun tv => strftime (fst tv)) (portfolio_history st'))
                      (map snd (portfolio_history st')) with
              | Some chart_data => Jsonify "chart" (VStr chart_data)
              | None => HttpError
              end, st')
     end).
Proof.
  split; [|split; [|split]].
  - intros ->. reflexivity.
  - intros v -> Hv. simpl. now rewrite Hv.
  - intros v -> Hv Hf. destruct (missing_fields_raise v Hf) as [e He].
    simpl. now rewrite Hv, He.
  - intros v -> Hv. unfold get_portfolio_chart. rewrite Hv. cbn [negb].
    destruct (compute_local_portfolio_value v) as [val|e]; [|reflexivity].
    cbv zeta. cbn [portfolio_history].
    destruct (plot_performance _ _); reflexivity.
Qed.

(** C8: for a symbol that is RANDOM in some casing, each call of the price
    route (and of the helper [get_stock_price]) takes a new draw from the
    generator and makes the price from that draw alone.  For draws in
    [0, 1), two calls in a row give the prices of the two draws, each
    between 90 and 110, the float nearest to a whole number of hundredths,
    and within 0.0051 of [90 + 20 r] for its own draw [r]: the price
    follows the draw over the whole range and is not a constant.  A call
    changes nothing of the state but the count of the draws; the
    market-data library is not called. *)
Theorem random_price_fresh (symbol : string) (st : state) :
  toUpperCase symbol = "RANDOM" ->
  (0 <=? random (draws st)) = true -> (random (draws st) <? 1) = true ->
  (0 <=? random (S (draws st))) = true -> (random (S (draws st)) <? 1) = true ->
  let r1 := random (draws st) in
  let r2 := random (S (draws st)) in
  let after (n : nat) := {| portfolio_history := portfolio_history st;
                            stdout := stdout st;
                            fetches := fetches st;
                            draws := (n + draws st)%nat |} in
  api_get_stock_price market random np_round2 symbol st
    = (Jsonify "price" (VFloat (random_price r1)), after 1%nat) /\
  api_get_stock_price market random np_round2 symbol (after 1%nat)
    = (Jsonify "price" (VFloat (random_price r2)), after 2%nat) /\
  get_stock_price market random np_round2 symbol st
    = (VFloat (random_price r1), after 1%nat) /\
  get_stock_price market random np_round2 symbol (after 1%nat)
    = (VFloat (random_price r2), after 2%nat) /\
  drawn_price r1 (random_price r1) /\ drawn_price r2 (random_price r2).
Proof.
  intros Hs A0 A1 B0 B1 r1 r2 after.
  unfold api_get_stock_price, get_stock_price. rewrite Hs. cbn.
  repeat (split; [reflexivity|]).
  assert (D : forall r, (0 <=? r) = true -> (r <? 1) = true ->
                        drawn_price r (random_price r)).
  { intros r H0 H1. unfold drawn_price.
    destruct (random_price_hundredths r H0 H1) as (n & Hn & E).
    destruct (of_hundredths_range n Hn) as [L U]. rewrite <- E in L, U.
    split; [exact L|]. split; [exact U|]. split; [eauto|].
    now apply random_price_near. }
  split; now apply D.
Qed.

End Routes.

(** *** Instances *)


Lemma failed_fetch_degrades_witness :
  api_get_stock_price failing_market half round2_float "aapl" initial
    = (Jsonify "price" (VInt 0),
       {| portfolio_history := [];
          stdout := ["Error fetching price for AAPL: no connection"];
          fetches := [("AAPL", P1d)];
          draws := 0 |}) /\
  api_get_stock_price_chart failing_market png_history "aapl" initial
    = (Jsonify "chart" (VStr ""),
       {| portfolio_history := [];
          stdout := ["Error fetching 1y history for aapl: no connection"];
          fetches := [("aapl", P1y)];
          draws := 0 |}).
Proof.
  destruct (failed_fetch_degrades failing_market half round2_float png_history
              "aapl" initial) as (A & _ & B & _); [discriminate|].
  exact (conj (A "no connection" eq_refl) (B "no connection" eq_refl)).
Defined.

(** C7 as stated fails: when the fetch gives no data the two routes
    answer the sentinel but print nothing, so the failure is not logged. *)
Lemma empty_fetch_not_logged :
  fetch_failed (no_market "AAPL" P1d) = true /\
  api_get_stock_price no_market half round2_float "aapl" initial
    = (Jsonify "price" (VInt 0),
       {| portfolio_history := []; stdout := [];
          fetches := [("AAPL", P1d)]; draws := 0 |}) /\
  api_get_stock_price_chart no_market png_history "aapl" initial
    = (Jsonify "chart" (VStr ""),
       {| portfolio_history := []; stdout := [];
          fetches := [("aapl", P1y)]; draws := 0 |}).
Proof. repeat split. Qed.

Lemma random_chart_empty_witness :
  api_get_stock_price_chart failing_market png_history "Random" initial
    = (Jsonify "chart" (VStr ""), initial).
Proof.
  apply (random_chart_empty failing_market png_history "Random" initial).
  reflexivity.
Defined.

Lemma random_price_fresh_witness :
  fst (api_get_stock_price failing_market alternating round2_float "Random" initial)
    = Jsonify "price" (VFloat 95) /\
  fst (api_get_stock_price failing_market alternating round2_float "random"
         (snd (api_get_stock_price failing_market alternating round2_float
                 "Random" initial)))
    = Jsonify "price" (VFloat 105) /\
  drawn_price 0.25 95 /\ drawn_price 0.75 105.
Proof.
  destruct (random_price_fresh failing_market alternating round2_float "Random" initial)
    as (_ & _ & _ & _ & D1 & D2); try reflexivity.
  split; [reflexivity|]. split; [reflexivity|]. exact (conj D1 D2).
Defined.

Example empty_body_empty_chart :
  get_portfolio_chart clock png_performance (GetJson (VDict [])) 7 initial
    = (Jsonify "chart" (VStr ""), initial) /\
  get_portfolio_chart clock png_performance (GetJson VNone) 7 initial
    = (Jsonify "chart" (VStr ""), initial).
Proof. split; reflexivity. Qed.

(** C4 as stated fails, in both halves.  A body that is an object but not
    a portfolio is answered by a server error, not by the empty chart; and
    a body that is not a valid portfolio, its cash being [true], is
    accepted: the sample [(7, 1)] is appended and the chart is drawn. *)
Lemma malformed_body_outcomes :
  valid_portfolio foo_body = false /\
  get_portfolio_chart clock png_performance (GetJson foo_body) 7 initial
    = (HttpError, initial) /\
  valid_portfolio true_cash = false /\
  get_portfolio_chart clock png_performance (GetJson true_cash) 7 initial
    = (Jsonify "chart" (VStr "png"),
       {| portfolio_history := [(7%Z, VInt 1)];
          stdout := []; fetches := []; draws := 0 |}).
Proof. repeat split. Qed.


End ServerFacts.

(** ** The signs of sums, differences and products *)

Module SignFacts.

Import Binary64 Binary64Facts FloatFacts Sign.

Lemma rnd_pos p e : -1074 <= e -> 1 <= rnd (Zpos p) e (fexp64 (digits p + e)).
Proof.
  intros He. apply rnd_ge.
  pose proof (F2R_digits p e) as [A _].
  replace (F2R 1 (fexp64 (digits p + e))) with (bpow (fexp64 (digits p + e)))
    by (unfold F2R; lra).
  eapply Rle_trans; [|exact A]. apply bpow_le.
  pose proof (digits_pos p). unfold fexp64. lia.
Qed.

Lemma pack_pos s M fe : 1 <= M ->
  pack s M fe = S754_infinity s \/ exists q e, pack s M fe = S754_finite s q e.
Proof.
  intros HM. destruct (pack_shape s M fe) as [E|E]; [|exact E].
  exfalso. unfold pack in E. destruct M as [|q|q]; try lia.
  destruct (Z.pos q =? 2 ^ 53); [destruct (fe + 1 <=? 971)|destruct (fe <=? 971)];
    discriminate.
Qed.

Lemma normalize_sign (S ez : Z) : -1074 <= ez ->
  match S with
  | Z0 => binary_normalize prec emax S ez false = S754_zero false
  | Zpos _ => signed false (binary_normalize prec emax S ez false)
  | Zneg _ => signed true (binary_normalize prec emax S ez false)
  end.
Proof.
  intros He. destruct S as [|q|q]; cbn [binary_normalize]; trivial;
    rewrite binary_round_pack; apply pack_pos, rnd_pos, He.
Qed.

(** The sum of two finite numbers has the sign of the real sum. *)
Lemma SFadd_sign sx mx ex sy my ey :
  valid_binary (S754_finite sx mx ex) = true ->
  valid_binary (S754_finite sy my ey) = true ->
  let x := S754_finite sx mx ex in
  let y := S754_finite sy my ey in
  let z := SFadd prec emax x y in
  ((B2R x + B2R y = 0)%R -> z = S754_zero false) /\
  ((0 < B2R x + B2R y)%R -> signed false z) /\
  ((B2R x + B2R y < 0)%R -> signed true z).
Proof.
  intros Vx Vy x y z. subst x y z.
  apply valid_finite_inv in Vx as (_ & _ & Hex & _), Vy as (_ & _ & Hey & _).
  cbn [B2R SFadd].
  rewrite <- (aligned_value sx mx ex (Z.min ex ey)) by lia.
  rewrite <- (aligned_value sy my ey (Z.min ex ey)) by lia.
  rewrite <- F2R_add.
  set (S := cond_Zopp sx _ + cond_Zopp sy _).
  pose proof (normalize_sign S (Z.min ex ey) ltac:(lia)) as N.
  pose proof (bpow_pos (Z.min ex ey)) as B.
  unfold F2R.
  destruct S as [|q|q].
  - split; [trivial|]. split; intros H; exfalso; simpl in H; lra.
  - pose proof (IZR_lt 0 (Zpos q) ltac:(lia)).
    split; [|split]; intros H1; trivial; exfalso; nra.
  - pose proof (IZR_lt (Zneg q) 0 ltac:(lia)).
    split; [|split]; intros H1; trivial; exfalso; nra.
Qed.

Lemma signed_above z : signed false z -> above z.
Proof. intros [->|(q & e & ->)]; reflexivity. Qed.

Lemma above_not_below z : above z -> not_below z.
Proof.
  unfold above, not_below, SFleb, SFltb.
  destruct (SFcompare z (S754_zero false)) as [[]|]; congruence.
Qed.

Lemma SFleb_ltb_eqb x y : SFleb x y = SFltb x y || SFeqb x y.
Proof. unfold SFleb, SFltb, SFeqb. destruct (SFcompare x y) as [[]|]; reflexivity. Qed.

Lemma SFadd_above x y :
  valid_binary x = true -> valid_binary y = true ->
  above x -> above y -> above (SFadd prec emax x y).
Proof.
  intros Vx Vy Hx Hy.
  destruct x as [sx|sx| |sx mx ex]; try destruct sx; try discriminate;
    destruct y as [sy|sy| |sy my ey]; try destruct sy; try discriminate;
    try reflexivity.
  apply signed_above.
  apply (SFadd_sign false mx ex false my ey Vx Vy).
  cbn [B2R cond_Zopp]. pose proof (F2R_pos mx ex). pose proof (F2R_pos my ey). lra.
Qed.

Lemma SFadd_not_below x y :
  valid_binary x = true -> valid_binary y = true ->
  not_below x -> not_below y -> not_below (SFadd prec emax x y).
Proof.
  intros Vx Vy Hx Hy.
  destruct x as [sx|sx| |sx mx ex]; try destruct sx; try discriminate;
    destruct y as [sy|sy| |sy my ey]; try destruct sy; try discriminate;
    try reflexivity.
  apply above_not_below, signed_above.
  apply (SFadd_sign false mx ex false my ey Vx Vy).
  cbn [B2R cond_Zopp]. pose proof (F2R_pos mx ex). pose proof (F2R_pos my ey). lra.
Qed.

Lemma SFsub_not_below x y :
  valid_binary x = true -> valid_binary y = true ->
  SFltb x y = false -> not_below (SFsub prec emax x y).
Proof.
  intros Vx Vy H.
  destruct x as [sx|sx| |sx mx ex], y as [sy|sy| |sy my ey];
    try (destruct sx); try (destruct sy);
    try (lazymatch goal with
         | |- not_below (SFsub _ _ (S754_finite _ _ _) (S754_finite _ _ _)) => fail
         | _ => cbn in H |- *; first [discriminate | reflexivity]
         end).
  all: match type of H with
       | SFltb ?x ?y = false =>
           assert (L : ~ (B2R x < B2R y)%R)
             by (intros L; apply (SFltb_lt x y Vx eq_refl Vy eq_refl) in L; congruence)
       end.
  all: rewrite SFsub_add; cbn [SFopp negb].
  all: match goal with
       | |- not_below (SFadd _ _ (S754_finite ?a _ _) (S754_finite ?b _ _)) =>
           pose proof (SFadd_sign a mx ex b my ey Vx Vy) as (Z0 & P & _)
       end.
  all: cbn [B2R cond_Zopp] in *; rewrite ?F2R_opp in *.
  all: match goal with
       | |- not_below ?z =>
           match type of P with
           | (0 < ?v)%R -> _ =>
               destruct (Rtotal_order v 0) as [C|[C|C]];
               [exfalso; lra
               | rewrite (Z0 C); reflexivity
               | apply above_not_below, signed_above, P, C]
           end
       end.
Qed.

Lemma SFmul_not_below x y :
  valid_binary x = true -> valid_binary y = true ->
  not_below x -> not_below y -> not_below (SFmul prec emax x y).
Proof.
  intros Vx Vy Hx Hy.
  destruct x as [sx|sx| |sx mx ex]; try destruct sx; try discriminate;
    destruct y as [sy|sy| |sy my ey]; try destruct sy; try discriminate;
    try reflexivity.
  rewrite SFmul_pack by trivial. cbn [xorb].
  destruct (pack_shape false
              (rnd (Zpos (mx * my)) (ex + ey) (fexp64 (digits (mx * my) + (ex + ey))))
              (fexp64 (digits (mx * my) + (ex + ey)))) as [E|[E|(q & e & E)]];
    rewrite E; reflexivity.
Qed.

(** *** On the floats of the machine *)

Local Open Scope float_scope.

Lemma add_above (x y : float) :
  (x <=? 0) = false -> (y <=? 0) = false -> (x + y <=? 0) = false.
Proof.
  rewrite !FloatAxioms.leb_spec, FloatAxioms.add_spec, Prim2SF_zero.
  apply SFadd_above; apply Prim2SF_valid.
Qed.

Lemma add_not_below (x y : float) :
  (x <? 0) = false -> (y <? 0) = false -> (x + y <? 0) = false.
Proof.
  rewrite !FloatAxioms.ltb_spec, FloatAxioms.add_spec, Prim2SF_zero.
  apply SFadd_not_below; apply Prim2SF_valid.
Qed.

Lemma sub_not_below (x y : float) : (x <? y) = false -> (x - y <? 0) = false.
Proof.
  rewrite !FloatAxioms.ltb_spec, FloatAxioms.sub_spec, Prim2SF_zero.
  apply SFsub_not_below; apply Prim2SF_valid.
Qed.

Lemma sub_above (x y : float) :
  (x <? y) = false -> (x - y =? 0) = false -> (x - y <=? 0) = false.
Proof.
  intros H E. apply sub_not_below in H. revert H E.
  rewrite FloatAxioms.ltb_spec, FloatAxioms.eqb_spec, FloatAxioms.leb_spec.
  rewrite SFleb_ltb_eqb. intros -> ->. reflexivity.
Qed.

Lemma mul_not_below (x y : float) :
  (x <? 0) = false -> (y <? 0) = false -> (x * y <? 0) = false.
Proof.
  rewrite !FloatAxioms.ltb_spec, FloatAxioms.mul_spec, Prim2SF_zero.
  apply SFmul_not_below; apply Prim2SF_valid.
Qed.

Lemma leb_false_ltb (x : float) : (x <=? 0) = false -> (x <? 0) = false.
Proof.
  rewrite FloatAxioms.ltb_spec, FloatAxioms.leb_spec, Prim2SF_zero.
  apply above_not_below.
Qed.

End SignFacts.

(** ** The portfolio of a page, whatever happens *)

Module PageFacts.

Import JS Client Page Binary64 FloatFacts SignFacts.
Local Open Scope float_scope.

Lemma upper_ascii_idem (c : ascii) : upper_ascii (upper_ascii c) = upper_ascii c.
Proof.
  destruct c as [b0 b1 b2 b3 b4 b5 b6 b7].
  destruct b0, b1, b2, b3, b4, b5, b6, b7; reflexivity.
Qed.

Lemma toUpperCase_idem (s : string) : toUpperCase (toUpperCase s) = toUpperCase s.
Proof.
  induction s as [|c r IH]; cbn [toUpperCase]; [reflexivity|].
  now rewrite upper_ascii_idem, IH.
Qed.

Lemma upper_case_symbol (s : string) :
  is_empty (toUpperCase s) = false -> upper_case (toUpperCase s) = true.
Proof.
  intros H. unfold upper_case. rewrite H, toUpperCase_idem, String.eqb_refl. reflexivity.
Qed.

Lemma buy_kept server tradeSymbol tradeQuantity p :
  kept p -> kept (fst (buyStock server tradeSymbol tradeQuantity p)).
Proof.
  intros K. unfold buyStock.
  destruct (is_empty (toUpperCase tradeSymbol)) eqn:Hs; [exact K|].
  destruct (parseInt tradeQuantity <=? 0) eqn:Hq; [exact K|]. cbn [orb].
  destruct (negb _); [exact K|].
  destruct (cash p <? _); [exact K|].
  destruct (stocks p !! toUpperCase tradeSymbol) as [h|] eqn:L; cbn [fst];
    intros s h'; cbn [stocks];
    destruct (decide (s = toUpperCase tradeSymbol)) as [->|Hne];
    rewrite ?lookup_insert_eq, ?lookup_insert_ne by congruence;
    try apply K.
  - intros [= <-]. cbn [quantity]. split; [now apply upper_case_symbol|].
    apply add_above; [apply (K _ _ L) | exact Hq].
  - intros [= <-]. cbn [quantity]. split; [now apply upper_case_symbol | exact Hq].
Qed.

Lemma sell_kept server tradeSymbol tradeQuantity p :
  kept p -> kept (fst (sellStock server tradeSymbol tradeQuantity p)).
Proof.
  intros K. unfold sellStock.
  destruct (is_empty (toUpperCase tradeSymbol)) eqn:Hs; [exact K|].
  destruct (parseInt tradeQuantity <=? 0) eqn:Hq; [exact K|]. cbn [orb].
  destruct (stocks p !! toUpperCase tradeSymbol) as [h|] eqn:L; [|exact K].
  destruct (quantity h <? _) eqn:Hlt; [exact K|].
  destruct (negb _); [exact K|]. cbn [fst].
  destruct (quantity h - parseInt tradeQuantity =? 0) eqn:E;
    intros s h'; cbn [stocks]; destruct (decide (s = toUpperCase tradeSymbol)) as [->|Hne];
    rewrite ?lookup_delete_eq, ?lookup_delete_ne, ?lookup_insert_eq, ?lookup_insert_ne
      by congruence;
    try apply K; try discriminate.
  intros [= <-]. cbn [quantity]. split; [now apply upper_case_symbol|].
  now apply sub_above.
Qed.

Lemma refresh_kept server p : kept p -> kept (refresh server p).
Proof.
  intros K. unfold refresh.
  destruct (stocks p !! "RANDOM") as [h|] eqn:L; [|exact K].
  intros s h'. cbn [stocks]. destruct (decide (s = "RANDOM")) as [->|Hne];
    rewrite ?lookup_insert_eq, ?lookup_insert_ne by congruence; [|apply K].
  intros [= <-]. cbn [quantity]. apply (K _ _ L).
Qed.

Lemma step_kept p e : kept p -> kept (step p e).
Proof.
  destruct e as [[] server s q|server]; cbn [step run_trade].
  - apply buy_kept.
  - apply sell_kept.
  - apply refresh_kept.
Qed.

Lemma steps_kept es : forall p, kept p -> kept (fold_left step es p).
Proof.
  induction es as [|e es IH]; intros p K; cbn [fold_left]; [exact K|].
  apply IH, step_kept, K.
Qed.

(** X1: whatever was clicked and whatever the server answered since the
    page was loaded, every holding of the portfolio is under a symbol that
    is not empty and is in upper case, and its quantity is above zero (or is
    NaN): no holding of zero or of a negative number of shares is ever
    stored. *)
Theorem holdings_stay_positive (es : list event) (s : string) (h : holding) :
  stocks (run es) !! s = Some h ->
  upper_case s = true /\ (quantity h <=? 0) = false.
Proof.
  revert s h. apply steps_kept. intros s h. unfold initial_portfolio. cbn [stocks].
  rewrite lookup_empty. discriminate.
Qed.

Lemma holdings_stay_positive_witness :
  stocks (run [Click Buy (quoting 100) "random" "10"; Tick (quoting 0);
               Click Sell (quoting 110) "Random" "6"]) !! "RANDOM"
    = Some {| quantity := 4; avg_price := 100; currentPrice := 0 |} /\
  upper_case "RANDOM" = true /\ (4 <=? 0) = false.
Proof.
  split; [reflexivity|].
  exact (holdings_stay_positive
           [Click Buy (quoting 100) "random" "10"; Tick (quoting 0);
            Click Sell (quoting 110) "Random" "6"]
           "RANDOM" {| quantity := 4; avg_price := 100; currentPrice := 0 |}
           eq_refl).
Defined.

(** *** The cash *)

Lemma buy_cash server tradeSymbol tradeQuantity p :
  (cash p <? 0) = false ->
  (cash (fst (buyStock server tradeSymbol tradeQuantity p)) <? 0) = false.
Proof.
  intros K. unfold buyStock.
  destruct (_ || _); [exact K|].
  destruct (negb _); [exact K|].
  destruct (cash p <? fetchCurrentPrice server (toUpperCase tradeSymbol)
                      * parseInt tradeQuantity) eqn:Hc; [exact K|].
  destruct (stocks p !! _); cbn [fst cash]; now apply sub_not_below.
Qed.

Lemma sell_cash server tradeSymbol tradeQuantity p :
  (fetchCurrentPrice server (toUpperCase tradeSymbol) <? 0) = false ->
  (cash p <? 0) = false ->
  (cash (fst (sellStock server tradeSymbol tradeQuantity p)) <? 0) = false.
Proof.
  intros F K. unfold sellStock.
  destruct (is_empty _); [exact K|].
  destruct (parseInt tradeQuantity <=? 0) eqn:Hq; [exact K|]. cbn [orb].
  destruct (stocks p !! _) as [h|]; [|exact K].
  destruct (quantity h <? _); [exact K|].
  destruct (negb _); [exact K|]. cbn [fst cash].
  apply add_not_below; [exact K|].
  apply mul_not_below; [exact F | now apply leb_false_ltb].
Qed.

Lemma steps_cash es : forall p,
  Forall (fun e => forall symbol, (fetchCurrentPrice (answers e) symbol <? 0) = false) es ->
  (cash p <? 0) = false -> (cash (fold_left step es p) <? 0) = false.
Proof.
  induction es as [|e es IH]; intros p F K; cbn [fold_left]; [exact K|].
  inversion F as [|? ? Fe Fes]; subst. apply IH; [exact Fes|].
  destruct e as [[] server s q|server]; cbn [step run_trade answers] in *.
  - now apply buy_cash.
  - apply sell_cash; [apply Fe | exact K].
  - unfold refresh. destruct (stocks p !! "RANDOM"); exact K.
Qed.

(** X2: as long as no price that the server quotes is below zero, the
    cash is never below zero (it is a number from zero on, or NaN),
    whatever is bought and sold: a Buy is refused before it can spend more
    than the cash, and nothing else takes cash away. *)
Theorem cash_never_negative (es : list event) :
  Forall (fun e => forall symbol, (fetchCurrentPrice (answers e) symbol <? 0) = false) es ->
  (cash (run es) <? 0) = false.
Proof. intros F. apply steps_cash; [exact F | reflexivity]. Qed.

Lemma cash_never_negative_witness :
  (cash (run [Click Buy (quoting 100) "random" "100"; Tick (quoting 0);
              Click Sell (quoting 110) "Random" "6"]) <? 0) = false.
Proof.
  apply cash_never_negative.
  repeat constructor; intros symbol; reflexivity.
Defined.

(** *** The other holdings *)

(** X3: a trade, accepted or refused, leaves the holdings of every other
    symbol as they are; a Buy removes no holding and a Sell adds none. *)
Theorem trade_touches_one_symbol (t : trade) (server : string -> xhr)
    (tradeSymbol tradeQuantity : string) (p : portfolio) :
  let p' := fst (run_trade t server tradeSymbol tradeQuantity p) in
  (forall s : string, s <> toUpperCase tradeSymbol -> stocks p' !! s = stocks p !! s) /\
  (forall s : string,
     match t with
     | Buy => is_Some (stocks p !! s) -> is_Some (stocks p' !! s)
     | Sell => is_Some (stocks p' !! s) -> is_Some (stocks p !! s)
     end).
Proof.
  destruct t; cbn [run_trade]; cbv zeta.
  - unfold buyStock.
    destruct (_ || _); [now split|].
    destruct (negb _); [now split|].
    destruct (cash p <? _); [now split|].
    destruct (stocks p !! toUpperCase tradeSymbol) as [h|] eqn:L; cbn [fst stocks];
      (split; [intros s Hne; now rewrite lookup_insert_ne|]);
      intros s; destruct (decide (s = toUpperCase tradeSymbol)) as [->|Hne];
      rewrite ?lookup_insert_eq, ?lookup_insert_ne by congruence; eauto.
  - unfold sellStock.
    destruct (_ || _); [now split|].
    destruct (stocks p !! toUpperCase tradeSymbol) as [h|] eqn:L; [|now split].
    destruct (quantity h <? _); [now split|].
    destruct (negb _); [now split|]. cbn [fst stocks].
    destruct (_ =? 0);
      (split; [intros s Hne; now rewrite ?lookup_delete_ne, ?lookup_insert_ne|]);
      intros s; destruct (decide (s = toUpperCase tradeSymbol)) as [->|Hne];
      rewrite ?lookup_delete_eq, ?lookup_delete_ne, ?lookup_insert_eq, ?lookup_insert_ne
        by congruence; rewrite ?L; eauto.
Qed.

End PageFacts.

(** ** The page and the server together *)

Module WireFacts.

Import Binary64 Binary64Facts FloatFacts Py Server Wire ServerFacts.

Lemma json_number_cases (x : float) (v : value) :
  json_number x = Some v ->
  (real x = false /\ v = VNone) \/ (real x = true /\ is_number v = true).
Proof.
  unfold real, json_number.
  destruct (Prim2SF x) as [s|s| |s m e]; cbn [SFfinite];
    try (intros [= <-]; auto; fail).
  cbv zeta.
  set (z := if 0 <=? e then Zpos m * 2 ^ e else Zpos m / 2 ^ (- e)).
  assert (0 <= z).
  { subst z. destruct (Z.leb_spec 0 e).
    - apply Z.mul_nonneg_nonneg; [lia | apply Z.pow_nonneg; lia].
    - apply Z.div_pos; [lia | apply Z.pow_pos_nonneg; lia]. }
  destruct (_ || _); [|intros [= <-]; auto].
  destruct (Z.leb_spec z (2 ^ 53)) as [L|L].
  - intros [= <-]. right. split; [reflexivity|]. cbn [is_number]. apply Z.ltb_lt.
    assert (2 ^ 53 < 10 ^ 21) by reflexivity.
    destruct s; cbn [cond_Zopp]; lia.
  - destruct (z <? 10 ^ 21); [discriminate|]. intros [= <-]. auto.
Qed.

Lemma json_number_valid (x : float) (v : value) :
  real x = true -> json_number x = Some v -> is_number v = true.
Proof.
  intros R E. destruct (json_number_cases x v E) as [[F _]|[_ N]]; [congruence | exact N].
Qed.

Lemma json_number_null (x : float) (v : value) :
  real x = false -> json_number x = Some v -> v = VNone.
Proof.
  intros R E. destruct (json_number_cases x v E) as [[_ N]|[F _]]; [exact N | congruence].
Qed.

(** The holding that is sent. *)
Lemma json_holding_inv (h : Client.holding) (d : value) :
  json_holding h = Some d ->
  exists q a c,
    json_number (Client.quantity h) = Some q /\
    json_number (Client.avg_price h) = Some a /\
    json_number (Client.currentPrice h) = Some c /\
    d = VDict [("quantity", q); ("avg_price", a); ("currentPrice", c)].
Proof.
  unfold json_holding.
  destruct (json_number (Client.quantity h)) as [q|]; [|discriminate].
  destruct (json_number (Client.avg_price h)) as [a|]; [|discriminate].
  destruct (json_number (Client.currentPrice h)) as [c|]; [|discriminate].
  intros [= <-]. now exists q, a, c.
Qed.

Lemma json_holding_valid (h : Client.holding) (d : value) :
  finite_holding h = true -> json_holding h = Some d -> valid_holding d = true.
Proof.
  unfold finite_holding. rewrite !andb_true_iff. intros [[Q A] C] E.
  apply json_holding_inv in E as (q & a & c & Eq & Ea & Ec & ->).
  change (valid_holding (VDict [("quantity", q); ("avg_price", a); ("currentPrice", c)]))
    with (is_number q && is_number a && is_number c).
  now rewrite (json_number_valid _ _ Q Eq), (json_number_valid _ _ A Ea),
    (json_number_valid _ _ C Ec).
Qed.

Lemma json_stocks_valid (keys : list string) (stocks : gmap string Client.holding) :
  forall hs : list (string * value),
  forallb (fun k => match stocks !! k with
                    | Some h => finite_holding h
                    | None => true
                    end) keys = true ->
  json_stocks keys stocks = Some hs ->
  forallb (fun kv => valid_holding (snd kv)) hs = true /\
  (length hs <= length keys)%nat.
Proof.
  induction keys as [|k keys IH]; intros hs; cbn [forallb json_stocks length].
  - intros _ [= <-]. auto.
  - rewrite andb_true_iff. intros [Hk Hr].
    destruct (stocks !! k) as [h|].
    + destruct (json_holding h) as [d|] eqn:D; [|discriminate].
      destruct (json_stocks keys stocks) as [hs'|]; [|discriminate].
      intros [= <-]. destruct (IH hs' Hr eq_refl) as [V L].
      cbn [forallb length snd]. rewrite (json_holding_valid h d Hk D), V.
      split; [reflexivity | lia].
    + intros E. destruct (IH hs Hr E) as [V L]. split; [exact V | lia].
Qed.

Lemma body_of_inv (keys : list string) (p : Client.portfolio) (body : value) :
  body_of keys p = Some body ->
  exists c hs,
    json_number (Client.cash p) = Some c /\
    json_stocks keys (Client.stocks p) = Some hs /\
    body = VDict [("cash", c); ("stocks", VDict hs)].
Proof.
  unfold body_of.
  destruct (json_number (Client.cash p)) as [c|]; [|discriminate].
  destruct (json_stocks keys (Client.stocks p)) as [hs|]; [|discriminate].
  intros [= <-]. now exists c, hs.
Qed.

Lemma body_valid (keys : list string) (p : Client.portfolio) (body : value) :
  finite_portfolio keys p = true -> Z.of_nat (length keys) < 2 ^ 64 ->
  body_of keys p = Some body -> valid_portfolio body = true.
Proof.
  unfold finite_portfolio. rewrite andb_true_iff. intros [C H] L E.
  apply body_of_inv in E as (c & hs & Ec & Es & ->).
  destruct (json_stocks_valid keys (Client.stocks p) hs H Es) as [V N].
  change (valid_portfolio (VDict [("cash", c); ("stocks", VDict hs)]))
    with (is_number c && forallb (fun kv => valid_holding (snd kv)) hs
          && (Z.of_nat (length hs) <? 2 ^ 64)).
  rewrite (json_number_valid _ _ C Ec), V. cbn [andb]. apply Z.ltb_lt. lia.
Qed.

(** Nothing is added to [None], and [None] is not multiplied. *)
Lemma add_to_none (hs : list (string * value)) :
  exists e, (let* total := add_holdings VNone hs in round2 total) = Raise e.
Proof.
  destruct hs as [|[k d] rest]; cbn [add_holdings bind round2]; [eauto|].
  destruct (get_or d "currentPrice" _) as [c|e]; cbn [bind]; [|eauto].
  destruct (subscript d "quantity") as [q|e]; cbn [bind]; [|eauto].
  destruct (mul c q) as [v|e]; cbn [bind]; [|eauto].
  destruct v; cbn; eauto.
Qed.

Lemma mul_none_l (v : value) : mul VNone v = Raise TypeError.
Proof. destruct v as [| [] | | | | |]; reflexivity. Qed.

Lemma mul_none_r (v : value) :
  v = VNone \/ is_number v = true -> mul v VNone = Raise TypeError.
Proof. intros [->|H]; [reflexivity|]. destruct v; try discriminate; reflexivity. Qed.

Lemma uncountable_holding (h : Client.holding) (d : value) :
  json_holding h = Some d ->
  real (Client.quantity h) && real (Client.currentPrice h) = false ->
  (let* cprice := get_or d "currentPrice" (fun d => subscript d "avg_price") in
   let* qty := subscript d "quantity" in
   mul cprice qty) = Raise TypeError.
Proof.
  intros E B. apply json_holding_inv in E as (q & a & c & Eq & Ea & Ec & ->).
  change (mul c q = Raise TypeError).
  destruct (real (Client.quantity h)) eqn:Q.
  - cbn [andb] in B. rewrite (json_number_null _ _ B Ec). apply mul_none_l.
  - rewrite (json_number_null _ _ Q Eq). apply mul_none_r.
    destruct (json_number_cases _ _ Ec) as [[_ ->]|[_ N]]; auto.
Qed.

Lemma uncountable_stocks (keys : list string) (stocks : gmap string Client.holding) :
  forall (hs : list (string * value)) (total : value),
  json_stocks keys stocks = Some hs ->
  forallb (fun k => match stocks !! k with
                    | Some h => real (Client.quantity h) && real (Client.currentPrice h)
                    | None => true
                    end) keys = false ->
  exists e, (let* total := add_holdings total hs in round2 total) = Raise e.
Proof.
  induction keys as [|k keys IH]; intros hs total; cbn [forallb json_stocks];
    [discriminate|].
  destruct (stocks !! k) as [h|]; [|cbn [andb]; apply IH].
  destruct (json_holding h) as [d|] eqn:D; [|discriminate].
  destruct (json_stocks keys stocks) as [hs'|]; [|discriminate].
  intros [= <-] B. cbn [add_holdings].
  destruct (real (Client.quantity h) && real (Client.currentPrice h)) eqn:C.
  - cbn [andb] in B. unfold bind at 1 2 3 4.
    destruct (get_or d "currentPrice" _) as [c|e]; [|eauto].
    destruct (subscript d "quantity") as [q|e]; [|eauto].
    destruct (mul c q) as [v|e]; [|eauto].
    destruct (iadd total v) as [total'|e]; [|eauto].
    now apply IH.
  - pose proof (uncountable_holding h d D C) as E. unfold bind in *.
    destruct (get_or d "currentPrice" _) as [c|e]; [|eauto].
    destruct (subscript d "quantity") as [q|e]; [|eauto].
    rewrite E. eauto.
Qed.

Lemma mul_zero_finite s m e (q : float) :
  Prim2SF q = S754_finite s m e -> (of_Z 0 * q =? 0)%float = true.
Proof.
  intros E. rewrite FloatAxioms.eqb_spec, FloatAxioms.mul_spec, E.
  destruct s; reflexivity.
Qed.

Section Routes.

Variable market : string -> period -> fetched.
Variable random : nat -> float.
Variable np_round2 : float -> float.
Variable strftime : Z -> string.
Variable plot_performance : list string -> list value -> option string.

(** X4: when every number of the portfolio is finite, the body that the
    page posts (for the numbers that [json_number] covers) is one that the
    server accepts, whatever was traded: its value is computed without an
    exception and one sample, that value at the time of the request, is
    added to the history. *)
Theorem page_body_accepted (keys : list string) (p : Client.portfolio)
    (body : value) (now : Z) (st : state) :
  finite_portfolio keys p = true -> Z.of_nat (length keys) < 2 ^ 64 ->
  body_of keys p = Some body ->
  compute_local_portfolio_value body = Ok (rounded (total_value body)) /\
  snd (get_portfolio_chart strftime plot_performance (GetJson body) now st) =
    {| portfolio_history := portfolio_history st ++ [(now, rounded (total_value body))];
       stdout := stdout st;
       fetches := fetches st;
       draws := draws st |}.
Proof.
  intros F L E. pose proof (body_valid keys p body F L E) as V.
  split; [apply valid_value, V | apply valid_post, V].
Qed.

(** X5: when the cash of the page, or the quantity or the [currentPrice]
    of a holding, is NaN or an infinity, which [JSON.stringify] writes as
    [null], the request of the chart ends in a server error and adds no
    sample. *)
Theorem null_number_no_sample (keys : list string) (p : Client.portfolio)
    (body : value) (now : Z) (st : state) :
  countable keys p = false -> body_of keys p = Some body ->
  get_portfolio_chart strftime plot_performance (GetJson body) now st
    = (HttpError, st).
Proof.
  intros C E. apply body_of_inv in E as (c & hs & Ec & Es & ->).
  unfold get_portfolio_chart.
  change (truth (VDict [("cash", c); ("stocks", VDict hs)])) with true. cbn [negb].
  assert (R : exists e, compute_local_portfolio_value
                          (VDict [("cash", c); ("stocks", VDict hs)]) = Raise e).
  { change (compute_local_portfolio_value (VDict [("cash", c); ("stocks", VDict hs)]))
      with (let* total := add_holdings c hs in round2 total).
    unfold countable in C. destruct (real (Client.cash p)) eqn:Rc.
    - cbn [andb] in C. now apply (uncountable_stocks keys (Client.stocks p)).
    - rewrite (json_number_null _ _ Rc Ec). apply add_to_none. }
  destruct R as [e ->]. reflexivity.
Qed.

(** X6: after a tick of the timer whose lookup failed, the holding of
    RANDOM has the [currentPrice] 0.  The table of the page still counts
    it at its average price ([currentPrice || avg_price]), but the loop of
    the server, for which a [currentPrice] of 0 is present, adds zero for
    it. *)
Theorem failed_refresh_counts_zero (server : string -> Client.xhr)
    (p : Client.portfolio) (h : Client.holding) (data : value) :
  Client.stocks p !! "RANDOM" = Some h ->
  Client.fetchCurrentPrice server "RANDOM" = 0%float ->
  real (Client.quantity h) = true ->
  let h' := {| Client.quantity := Client.quantity h;
               Client.avg_price := Client.avg_price h;
               Client.currentPrice := 0%float |} in
  json_holding h' = Some data ->
  Client.stocks (Page.refresh server p) !! "RANDOM" = Some h' /\
  Client.row_value h' = (Client.avg_price h * Client.quantity h)%float /\
  exists z : value,
    (z = VInt 0 \/ exists f, z = VFloat f /\ (f =? 0)%float = true) /\
    forall (total : value) (s : string) (rest : list (string * value)),
      add_holdings total ((s, data) :: rest) =
        let* total := iadd total z in add_holdings total rest.
Proof.
  intros L F Q h' D.
  split; [|split].
  - unfold Page.refresh. rewrite L, F. cbn [Client.stocks]. apply lookup_insert_eq.
  - reflexivity.
  - apply json_holding_inv in D as (q & a & c & Eq & Ea & Ec & ->).
    cbn [h' Client.quantity Client.currentPrice] in Eq, Ec.
    injection Ec as <-.
    assert (M : exists z, (z = VInt 0 \/ exists f, z = VFloat f /\ (f =? 0)%float = true) /\
                          mul (VInt 0) q = Ok z).
    { revert Eq. unfold real in Q. unfold json_number.
      destruct (Prim2SF (Client.quantity h)) as [s|s| |s m e] eqn:E; try discriminate.
      - intros [= <-]. exists (VInt 0). split; [now left | reflexivity].
      - cbv zeta. intros Eq.
        assert (V : (exists n, q = VInt n) \/ q = VFloat (Client.quantity h)).
        { destruct (_ || _); [|injection Eq as <-; auto].
          destruct (_ <=? 2 ^ 53); [injection Eq as <-; eauto|].
          destruct (_ <? 10 ^ 21); [discriminate | injection Eq as <-; auto]. }
        destruct V as [[n ->]| ->].
        + exists (VInt 0). split; [now left|]. cbn. now destruct n.
        + exists (VFloat (of_Z 0 * Client.quantity h)). split; [|reflexivity].
          right. eexists. split; [reflexivity|]. exact (mul_zero_finite s m e _ E). }
    destruct M as (z & Hz & M). exists z. split; [exact Hz|].
    intros total s rest.
    change (add_holdings total
              ((s, VDict [("quantity", q); ("avg_price", a); ("currentPrice", VInt 0)])
               :: rest))
      with (let* v := mul (VInt 0) q in
            let* total := iadd total v in add_holdings total rest).
    rewrite M. reflexivity.
Qed.

(** X7: a lookup of RANDOM never fails.  With the server's answer to
    [GET /get_stock_price/RANDOM] for a draw in [0, 1), no trade of RANDOM
    is refused for want of a price, a trade that is accepted is made at a
    price between 90 and 110, and a tick of the timer sets the
    [currentPrice] of the holding to such a price. *)
Theorem random_always_priced (t : Client.trade) (server : string -> Client.xhr)
    (tradeSymbol tradeQuantity : string) (p : Client.portfolio) (st : state) :
  toUpperCase tradeSymbol = "RANDOM" ->
  (0 <=? random (draws st))%float = true -> (random (draws st) <? 1)%float = true ->
  reply (fst (api_get_stock_price market random np_round2 "RANDOM" st))
    = Some (server "RANDOM") ->
  let a := snd (Client.run_trade t server tradeSymbol tradeQuantity p) in
  let px := Client.fetchCurrentPrice server "RANDOM" in
  (90 <=? px)%float = true /\ (px <=? 110)%float = true /\
  a <> Client.PriceUnavailable /\
  (forall q s x, a = Client.Bought q s x \/ a = Client.Sold q s x -> x = px) /\
  (forall h, Client.stocks p !! "RANDOM" = Some h ->
     Client.stocks (Page.refresh server p) !! "RANDOM" =
       Some {| Client.quantity := Client.quantity h;
               Client.avg_price := Client.avg_price h;
               Client.currentPrice := px |}).
Proof.
  intros U R0 R1 A a px.
  destruct (random_price_hundredths _ R0 R1) as (n & Hn & E).
  destruct (of_hundredths_range n Hn) as [Lo Hi]. rewrite <- E in Lo, Hi.
  assert (Re : real (random_price (random (draws st))) = true)
    by (apply (real_between 90 _ 110); trivial).
  assert (T : JS.truthy (random_price (random (draws st))) = true).
  { apply pos_truthy. apply ltb_lt; trivial.
    apply leb_le in Lo; trivial. revert Lo. float_value 0%float. float_value 90%float.
    lra. }
  assert (P : px = random_price (random (draws st))).
  { subst px. change (api_get_stock_price market random np_round2 "RANDOM" st)
      with (Jsonify "price" (VFloat (random_price (random (draws st)))),
            snd (next_random random st)) in A.
    cbn [fst reply String.eqb Ascii.eqb Bool.eqb] in A. rewrite Re in A.
    injection A as A. unfold Client.fetchCurrentPrice. rewrite <- A.
    cbn [Client.status Client.price Z.eqb Pos.eqb]. now rewrite T. }
  split; [now rewrite P|]. split; [now rewrite P|].
  assert (Tp : JS.truthy px = true) by now rewrite P.
  split; [|split].
  - subst a. destruct t; cbn [Client.run_trade].
    + unfold Client.buyStock. rewrite U. fold px. rewrite Tp.
      destruct (_ || _); [discriminate|]. cbn [negb].
      destruct (Client.cash p <? px * JS.parseInt tradeQuantity)%float; [discriminate|].
      destruct (Client.stocks p !! "RANDOM"); discriminate.
    + unfold Client.sellStock. rewrite U. fold px. rewrite Tp.
      destruct (_ || _); [discriminate|].
      destruct (Client.stocks p !! "RANDOM") as [h|]; [|discriminate].
      destruct (Client.quantity h <? JS.parseInt tradeQuantity)%float; discriminate.
  - intros q s x. subst a. destruct t; cbn [Client.run_trade].
    + unfold Client.buyStock. rewrite U. fold px. rewrite Tp.
      destruct (_ || _); [cbn [snd]; intros [H|H]; discriminate H|]. cbn [negb].
      destruct (Client.cash p <? px * JS.parseInt tradeQuantity)%float;
        [cbn [snd]; intros [H|H]; discriminate H|].
      destruct (Client.stocks p !! "RANDOM"); cbn [snd]; intros [H|H];
        try discriminate H; now injection H.
    + unfold Client.sellStock. rewrite U. fold px. rewrite Tp.
      destruct (_ || _); [cbn [snd]; intros [H|H]; discriminate H|].
      destruct (Client.stocks p !! "RANDOM") as [h|];
        [|cbn [snd]; intros [H|H]; discriminate H].
      destruct (Client.quantity h <? JS.parseInt tradeQuantity)%float;
        [cbn [snd]; intros [H|H]; discriminate H|].
      cbn [negb snd]. intros [H|H]; try discriminate H; now injection H.
  - intros h L. unfold Page.refresh. rewrite L. cbn [Client.stocks].
    apply lookup_insert_eq.
Qed.

End Routes.

Lemma page_body_accepted_witness :
  portfolio_history
    (snd (get_portfolio_chart clock png_performance (GetJson ten_shares) 7 initial))
  = [(7, VFloat 10015)].
Proof.
  exact (f_equal portfolio_history
           (proj2 (page_body_accepted clock png_performance ["RANDOM"]
                     {| Client.cash := 9000;
                        Client.stocks :=
                          {[ "RANDOM" := {| Client.quantity := 10;
                                            Client.avg_price := 100;
                                            Client.currentPrice := 101.5 |} ]} |}
                     ten_shares 7 initial eq_refl eq_refl eq_refl))).
Defined.

Lemma null_number_no_sample_witness :
  get_portfolio_chart clock png_performance
    (GetJson (VDict [("cash", VNone);
                     ("stocks", VDict [("RANDOM",
                                        VDict [("quantity", VNone);
                                               ("avg_price", VNone);
                                               ("currentPrice", VInt 100)])])]))
    7 initial
  = (HttpError, initial).
Proof.
  exact (null_number_no_sample clock png_performance ["RANDOM"]
           (fst (Client.buyStock (Client.quoting 100) "RANDOM" "" Client.ten_at_100))
           _ 7 initial eq_refl eq_refl).
Defined.

Lemma failed_refresh_counts_zero_witness :
  Client.stocks (Page.refresh (Client.quoting 0) Client.ten_at_100) !! "RANDOM"
    = Some {| Client.quantity := 10; Client.avg_price := 100;
              Client.currentPrice := 0 |} /\
  Client.row_value {| Client.quantity := 10; Client.avg_price := 100;
                      Client.currentPrice := 0 |} = 1000%float.
Proof.
  pose proof (failed_refresh_counts_zero (Client.quoting 0) Client.ten_at_100
                {| Client.quantity := 10; Client.avg_price := 100;
                   Client.currentPrice := 100 |}
                (VDict [("quantity", VInt 10); ("avg_price", VInt 100);
                        ("currentPrice", VInt 0)])
                eq_refl eq_refl eq_refl eq_refl) as (A & B & _).
  exact (conj A B).
Defined.

Lemma random_always_priced_witness :
  (90 <=? Client.fetchCurrentPrice (Client.quoting 100) "RANDOM")%float = true /\
  (Client.fetchCurrentPrice (Client.quoting 100) "RANDOM" <=? 110)%float = true.
Proof.
  pose proof (random_always_priced failing_market half round2_float Client.Buy
                (Client.quoting 100) "random" "1" Client.initial_portfolio initial
                eq_refl eq_refl eq_refl eq_refl) as (A & B & _).
  exact (conj A B).
Defined.

End WireFacts.

(** ** The server over its requests *)

Module ServiceFacts.

Import Py Server Service.

Lemma int_holding_ok (data : value) :
  int_holding data = true ->
  (let* cprice := get_or data "currentPrice" (fun d => subscript d "avg_price") in
   let* qty := subscript data "quantity" in
   mul cprice qty)
  = Ok (VInt (int_of (price_of data) * int_of (field "quantity" data))).
Proof.
  destruct data as [| | | | | |d]; try discriminate. cbn [int_holding].
  destruct (assoc "quantity" d) as [q|] eqn:Q; [|discriminate].
  destruct (assoc "avg_price" d) as [a|] eqn:A; [|discriminate].
  rewrite !andb_true_iff. intros [[Hq Ha] Hc].
  cbn [get_or subscript price_of field]. rewrite Q, A. cbn [bind].
  destruct q; try discriminate. destruct a; try discriminate.
  destruct (assoc "currentPrice" d) as [c|]; [destruct c; try discriminate|];
    reflexivity.
Qed.

Lemma int_holdings_ok (hs : list (string * value)) : forall total : Z,
  forallb (fun kv => int_holding (snd kv)) hs = true ->
  add_holdings (VInt total) hs =
    Ok (VInt (fold_left (fun t kv => t + int_of (price_of (snd kv))
                                         * int_of (field "quantity" (snd kv)))
                hs total)).
Proof.
  induction hs as [|[k data] hs IH]; intros total; cbn [forallb fold_left snd];
    [reflexivity|].
  rewrite andb_true_iff. intros [H Hs].
  pose proof (int_holding_ok data H) as E.
  cbn [add_holdings]. unfold bind in *.
  destruct (get_or data "currentPrice" (fun d => subscript d "avg_price"))
    as [cprice|]; [|discriminate].
  destruct (subscript data "quantity") as [qty|]; [|discriminate].
  rewrite E. cbn [iadd as_num arith of_num]. apply IH, Hs.
Qed.

Section Routes.

Variable market : string -> period -> fetched.
Variable random : nat -> float.
Variable np_round2 : float -> float.
Variable strftime : Z -> string.
Variable plot_history : string -> list (string * float) -> option string.
Variable plot_performance : list string -> list value -> option string.

Lemma handled (r : request) (st : state) :
  snd (handle market random np_round2 strftime plot_history plot_performance r st) =
    {| portfolio_history := portfolio_history st ++ sample_of r;
       stdout := stdout st ++ log_of market r;
       fetches := fetches st ++ market_calls r;
       draws := draws st + random_draws r |}.
Proof.
  destruct st as [h o f d].
  destruct r as [symbol|symbol|body now]; cbn [handle sample_of log_of market_calls random_draws].
  - unfold api_get_stock_price.
    destruct (String.eqb (toUpperCase symbol) "RANDOM").
    + cbn. now rewrite !app_nil_r, Nat.add_1_r.
    + unfold fetch. cbn [portfolio_history stdout fetches draws].
      destruct (market (toUpperCase symbol) P1d) as [e|rows]; cbn [logged].
      * cbn. now rewrite !app_nil_r, Nat.add_0_r.
      * destruct (last_close rows); cbn; now rewrite !app_nil_r, Nat.add_0_r.
  - unfold api_get_stock_price_chart.
    destruct (String.eqb (toUpperCase symbol) "RANDOM").
    + cbn. now rewrite !app_nil_r, Nat.add_0_r.
    + unfold fetch. cbn [portfolio_history stdout fetches draws].
      destruct (market symbol P1y) as [e|rows]; cbn [logged].
      * cbn. now rewrite !app_nil_r, Nat.add_0_r.
      * destruct rows; [|destruct (plot_history _ _)]; cbn;
          now rewrite !app_nil_r, Nat.add_0_r.
  - unfold get_portfolio_chart.
    destruct body as [|v]; [cbn; now rewrite !app_nil_r, Nat.add_0_r|].
    destruct (truth v); cbn [negb]; [|cbn; now rewrite !app_nil_r, Nat.add_0_r].
    destruct (compute_local_portfolio_value v) as [val|e];
      [|cbn; now rewrite !app_nil_r, Nat.add_0_r].
    cbn [portfolio_history stdout fetches draws].
    destruct (plot_performance _ _); cbn; now rewrite !app_nil_r, Nat.add_0_r.
Qed.

(** X8: the state of the server after any requests, served in order from
    any state.  The history grows by the samples of the POSTs whose body is
    true and has a value, whether the drawing succeeds or not, and by
    nothing else; the market-data library is called once for each price or
    chart request of a symbol other than RANDOM, with the symbol in upper
    case for a price and as it was sent for a chart; a number is drawn once
    for each price request of RANDOM; and a line is printed for each fetch
    that raises.  Nothing is ever removed. *)
Theorem served_state (rs : list request) (st : state) :
  serve market random np_round2 strftime plot_history plot_performance rs st =
    {| portfolio_history := portfolio_history st ++ flat_map sample_of rs;
       stdout := stdout st ++ flat_map (log_of market) rs;
       fetches := fetches st ++ flat_map market_calls rs;
       draws := draws st + list_sum (map random_draws rs) |}.
Proof.
  revert st. induction rs as [|r rs IH]; intros st.
  - destruct st. cbn. now rewrite !app_nil_r, Nat.add_0_r.
  - change (serve market random np_round2 strftime plot_history plot_performance
              (r :: rs) st)
      with (serve market random np_round2 strftime plot_history plot_performance rs
              (snd (handle market random np_round2 strftime plot_history
                      plot_performance r st))).
    rewrite IH, handled. cbn [portfolio_history stdout fetches draws flat_map map list_sum].
    change (list_sum (random_draws r :: map random_draws rs))
      with (random_draws r + list_sum (map random_draws rs))%nat.
    now rewrite <- !app_assoc, Nat.add_assoc.
Qed.

(** X9: the helper [get_stock_price] and the route
    [GET /get_stock_price/<symbol>] do the same: for every symbol and state
    the route answers with the price that the helper returns, and both
    leave the same state. *)
Theorem price_route_is_helper (symbol : string) (st : state) :
  api_get_stock_price market random np_round2 symbol st =
    (Jsonify "price" (fst (get_stock_price market random np_round2 symbol st)),
     snd (get_stock_price market random np_round2 symbol st)).
Proof.
  unfold api_get_stock_price, get_stock_price.
  destruct (String.eqb (toUpperCase symbol) "RANDOM"); [reflexivity|].
  unfold fetch. destruct (market (toUpperCase symbol) P1d) as [e|rows]; [reflexivity|].
  destruct (last_close rows); reflexivity.
Qed.

(** X10: the route [GET /get_stock_price_chart/<symbol>] is the helper
    [get_stock_history] followed by the drawing: the chart is empty when
    the helper gives no closes, and otherwise it is the drawing of the
    closes that the helper gives, under the symbol in upper case; both
    make the same call to the market-data library and print as many lines
    (the words of the line differ). *)
Theorem chart_route_is_helper (symbol : string) (st : state) :
  let h := get_stock_history market symbol st in
  let r := api_get_stock_price_chart market plot_history symbol st in
  fst r = match fst h with
          | [] => Jsonify "chart" (VStr "")
          | rows =>
              match plot_history (toUpperCase symbol) rows with
              | Some chart_data => Jsonify "chart" (VStr chart_data)
              | None => HttpError
              end
          end /\
  portfolio_history (snd r) = portfolio_history (snd h) /\
  fetches (snd r) = fetches (snd h) /\
  draws (snd r) = draws (snd h) /\
  length (stdout (snd r)) = length (stdout (snd h)).
Proof.
  cbv zeta. unfold api_get_stock_price_chart, get_stock_history.
  destruct (String.eqb (toUpperCase symbol) "RANDOM"); [now repeat split|].
  unfold fetch. destruct (market symbol P1y) as [e|rows].
  - cbn [fst snd print portfolio_history stdout fetches draws].
    rewrite !length_app. now repeat split.
  - destruct rows as [|row rows]; cbn [fst snd];
      [|destruct (plot_history (toUpperCase symbol) (row :: rows))];
      repeat split; reflexivity.
Qed.

(** X11: for a body whose cash, prices and quantities are all integers,
    the value is the exact integer [cash + sum of price * quantity],
    whatever their size and however many holdings there are: no rounding
    and no overflow; and the sample appended carries that integer. *)
Theorem integer_body_exact (body : value) (now : Z) (st : state) :
  int_portfolio body = true ->
  compute_local_portfolio_value body = Ok (VInt (int_total body)) /\
  snd (get_portfolio_chart strftime plot_performance (GetJson body) now st) =
    {| portfolio_history := portfolio_history st ++ [(now, VInt (int_total body))];
       stdout := stdout st;
       fetches := fetches st;
       draws := draws st |}.
Proof.
  intros V.
  assert (T : truth body = true /\
              compute_local_portfolio_value body = Ok (VInt (int_total body))).
  { destruct body as [| | | | | |d]; try discriminate. cbn [int_portfolio] in V.
    destruct (assoc "cash" d) as [c|] eqn:C; [|discriminate].
    destruct (assoc "stocks" d) as [s|] eqn:S; [|discriminate].
    destruct s as [| | | | | |hs]; try discriminate.
    apply andb_true_iff in V as [Hc Hs]. destruct c as [| |c| | | |]; try discriminate.
    split; [destruct d; [discriminate | reflexivity]|].
    unfold compute_local_portfolio_value, int_total.
    cbn [subscript field]. rewrite C, S. cbn [bind items int_of].
    rewrite int_holdings_ok by trivial. reflexivity. }
  destruct T as [T E]. split; [exact E|].
  unfold get_portfolio_chart. rewrite T, E. cbn [negb].
  destruct (plot_performance _ _); reflexivity.
Qed.

(** X12: a holding without [avg_price] makes the request fail even when
    it has a [currentPrice]: the default of [data.get] is evaluated before
    the call, so [data["avg_price"]] raises KeyError; the server answers
    with an error and adds no sample. *)
Theorem missing_average_raises (body cash : value) (symbol : string)
    (data rest : list (string * value)) (now : Z) (st : state) :
  subscript body "cash" = Ok cash ->
  subscript body "stocks" = Ok (VDict ((symbol, VDict data) :: rest)) ->
  assoc "avg_price" data = None ->
  compute_local_portfolio_value body = Raise KeyError /\
  get_portfolio_chart strftime plot_performance (GetJson body) now st = (HttpError, st).
Proof.
  intros C S A.
  assert (E : compute_local_portfolio_value body = Raise KeyError).
  { unfold compute_local_portfolio_value. rewrite C, S.
    cbn [bind items add_holdings get_or subscript]. rewrite A. reflexivity. }
  split; [exact E|].
  unfold get_portfolio_chart. rewrite E.
  destruct body as [| | | | | |d]; try discriminate.
  destruct d; [discriminate | reflexivity].
Qed.

End Routes.

Lemma integer_body_exact_witness :
  compute_local_portfolio_value
    (VDict [("cash", VInt (10 ^ 30));
            ("stocks", VDict [("RANDOM", VDict [("quantity", VInt 3);
                                                ("avg_price", VInt 7)])])])
  = Ok (VInt (10 ^ 30 + 21)).
Proof.
  exact (proj1 (integer_body_exact clock png_performance
                  (VDict [("cash", VInt (10 ^ 30));
                          ("stocks", VDict [("RANDOM", VDict [("quantity", VInt 3);
                                                              ("avg_price", VInt 7)])])])
                  7 initial eq_refl)).
Defined.

Lemma missing_average_raises_witness :
  get_portfolio_chart clock png_performance
    (GetJson (VDict [("cash", VInt 100);
                     ("stocks", VDict [("RANDOM", VDict [("quantity", VInt 3);
                                                         ("currentPrice", VInt 7)])])]))
    7 initial
  = (HttpError, initial).
Proof.
  exact (proj2 (missing_average_raises clock png_performance
                  (VDict [("cash", VInt 100);
                          ("stocks", VDict [("RANDOM", VDict [("quantity", VInt 3);
                                                              ("currentPrice", VInt 7)])])])
                  (VInt 100) "RANDOM"
                  [("quantity", VInt 3); ("currentPrice", VInt 7)] [] 7 initial
                  eq_refl eq_refl eq_refl)).
Defined.

End ServiceFacts.

(** ** The quantities that are traded *)

Module QuantityFacts.

Import JS Client Page Binary64 Binary64Facts FloatFacts Sign SignFacts.

Lemma digit_value_nonneg (c : ascii) (d : Z) : digit_value c = Some d -> 0 <= d.
Proof.
  unfold digit_value.
  destruct (Z.leb_spec 48 (Z.of_nat (nat_of_ascii c)));
    destruct (Z.leb_spec (Z.of_nat (nat_of_ascii c)) 57); cbn [andb];
    try (intros [= <-]; lia);
    destruct (Z.leb_spec 97 (Z.of_nat (nat_of_ascii c)));
    destruct (Z.leb_spec (Z.of_nat (nat_of_ascii c)) 102); cbn [andb];
    try (intros [= <-]; lia);
    destruct (Z.leb_spec 65 (Z.of_nat (nat_of_ascii c)));
    destruct (Z.leb_spec (Z.of_nat (nat_of_ascii c)) 70); cbn [andb];
    try (intros [= <-]; lia); discriminate.
Qed.

Lemma read_digits_nonneg (R : Z) (s : string) : 0 < R ->
  forall (acc : option Z) (n : Z),
  (forall a, acc = Some a -> 0 <= a) ->
  read_digits R acc s = Some n -> 0 <= n.
Proof.
  intros HR. induction s as [|c r IH]; intros acc n Ha; cbn [read_digits]; [apply Ha|].
  destruct (digit_value c) as [d|] eqn:D; [|apply Ha].
  destruct (d <? R); [|apply Ha].
  apply IH. intros a [= <-]. pose proof (digit_value_nonneg c d D).
  destruct acc as [a|]; [|lia]. specialize (Ha a eq_refl). nia.
Qed.

Lemma strip_prefix_radix (s : string) : 0 < fst (strip_prefix s).
Proof.
  unfold strip_prefix.
  repeat match goal with
         | |- context [match ?x with _ => _ end] => destruct x
         end; cbn [fst]; lia.
Qed.

(** What [parseInt] returns. *)
Lemma parseInt_cases (input : string) :
  parseInt input = nan \/ parseInt input = 0%float \/ parseInt input = neg_zero \/
  exists q : positive, parseInt input = of_Z (Zpos q) \/ parseInt input = of_Z (Zneg q).
Proof.
  unfold parseInt.
  destruct (strip_sign (trim_start input)) as [neg s1].
  pose proof (strip_prefix_radix s1) as HR.
  destruct (strip_prefix s1) as [R s2]. cbn [fst] in HR.
  destruct (read_digits R None s2) as [n|] eqn:E; [|now left].
  pose proof (read_digits_nonneg R s2 HR None n ltac:(discriminate) E) as Hn.
  destruct n as [|q|q]; [|right; right; right|lia].
  - destruct neg; auto.
  - exists q. destruct neg; cbn [Z.opp]; auto.
Qed.

Lemma pack_cases s M fe :
  0 <= M <= 2 ^ 53 -> (-1074 < fe -> 2 ^ 52 <= M) -> -1074 <= fe ->
  pack s M fe = S754_infinity s \/
  (valid_binary (pack s M fe) = true /\ SFfinite (pack s M fe) = true /\
   B2R (pack s M fe) = F2R (cond_Zopp s M) fe).
Proof.
  intros HM Hn Hfe.
  destruct (Rlt_le_dec (F2R M fe) (bpow 1024)) as [H|H];
    [right; now apply pack_spec|left].
  unfold pack. destruct M as [|q|q]; [| |lia].
  - exfalso. unfold F2R in H. pose proof (bpow_pos 1024). lra.
  - destruct (Z.eqb_spec (Zpos q) (2 ^ 53)) as [E|E].
    + rewrite E, F2R_bpow in H by lia.
      destruct (Z.leb_spec (fe + 1) 971) as [L|L]; [|reflexivity].
      exfalso. assert (bpow (53 + fe) < bpow 1024)%R by (apply bpow_lt; lia). lra.
    + destruct (Z.leb_spec fe 971) as [L|L]; [|reflexivity].
      exfalso. assert (Zpos q <= 2 ^ 53 - 1) as Hq by lia.
      apply (F2R_le _ _ fe) in Hq.
      assert (F2R (2 ^ 53 - 1) fe < F2R (2 ^ 53) fe)%R.
      { unfold F2R. apply Rmult_lt_compat_r; [apply bpow_pos | apply IZR_lt; lia]. }
      rewrite F2R_bpow in * by lia.
      assert (bpow (53 + fe) <= bpow 1024)%R by (apply bpow_le; lia). lra.
Qed.

Lemma normalize_valid (z : Z) : valid_binary (binary_normalize prec emax z 0 false) = true.
Proof.
  destruct z as [|q|q]; cbn [binary_normalize]; [reflexivity| |];
    rewrite binary_round_pack;
    pose proof (rnd_range q 0) as [R1 R3]; pose proof (fe_min q 0) as Hfe;
    match goal with
    | |- valid_binary (pack ?s ?M ?fe) = true =>
        destruct (pack_cases s M fe R1 R3 Hfe) as [->|(V & _)]; [reflexivity | exact V]
    end.
Qed.

Lemma of_Z_spec (z : Z) : Prim2SF (of_Z z) = binary_normalize prec emax z 0 false.
Proof. unfold of_Z. apply Prim2SF_SF2Prim, normalize_valid. Qed.

Lemma of_Z_neg (q : positive) : (of_Z (Zneg q) <=? 0)%float = true.
Proof.
  rewrite FloatAxioms.leb_spec, of_Z_spec, Prim2SF_zero.
  destruct (normalize_sign (Zneg q) 0 ltac:(lia)) as [->|(m & e & ->)]; reflexivity.
Qed.

Lemma of_Z_pos (q : positive) :
  of_Z (Zpos q) = infinity \/ whole_shares (of_Z (Zpos q)).
Proof.
  unfold whole_shares, real, FV. rewrite of_Z_spec. cbn [binary_normalize].
  rewrite binary_round_pack.
  pose proof (rnd_range q 0) as [R1 R3]. pose proof (fe_min q 0) as Hfe.
  pose proof (rnd_pos q 0 ltac:(lia)) as HM.
  pose proof (rnd_err q 0) as [_ Ex].
  set (fe := fexp64 (digits q + 0)) in *. set (M := rnd (Zpos q) 0 fe) in *.
  destruct (pack_cases false M fe R1 R3 Hfe) as [E|(V & F & B)].
  - left. apply Prim2SF_inj. rewrite of_Z_spec. cbn [binary_normalize].
    rewrite binary_round_pack. fold fe M. rewrite E. reflexivity.
  - right. split; [exact F|]. rewrite B. cbn [cond_Zopp].
    destruct (Z_le_gt_dec fe 0) as [L|L].
    + exists (Zpos q). split; [lia|]. rewrite (Ex L). unfold F2R. rewrite bpow_0. ring.
    + exists (M * 2 ^ fe). split.
      * assert (0 < 2 ^ fe) by (apply Z.pow_pos_nonneg; lia). nia.
      * unfold F2R. rewrite mult_IZR, bpow_IZR by lia. reflexivity.
Qed.

(** A quantity that passes the check [quantity <= 0]. *)
Lemma accepted_quantity (input : string) :
  (parseInt input <=? 0)%float = false ->
  parseInt input = nan \/ parseInt input = infinity \/ whole_shares (parseInt input).
Proof.
  intros G. destruct (parseInt_cases input) as [E|[E|[E|(q & [E|E])]]];
    rewrite E in *; auto; try discriminate.
  - destruct (of_Z_pos q); auto.
  - rewrite of_Z_neg in G. discriminate.
Qed.

(** X13: only whole shares are traded.  The quantity of a trade that is
    accepted is a whole number from 1 on, whatever is typed (a fraction is
    cut at its point); or it is NaN, when no digit is typed, or infinity,
    when the digits are beyond the range of the numbers. *)
Theorem only_whole_shares (t : trade) (server : string -> xhr)
    (tradeSymbol tradeQuantity : string) (p : portfolio) (q x : float) (s : string) :
  snd (run_trade t server tradeSymbol tradeQuantity p) = Bought q s x \/
  snd (run_trade t server tradeSymbol tradeQuantity p) = Sold q s x ->
  q = parseInt tradeQuantity /\
  (q = nan \/ q = infinity \/ whole_shares q).
Proof.
  destruct t; cbn [run_trade].
  - unfold buyStock.
    destruct (is_empty _); [cbn [orb snd]; intros [H|H]; discriminate H|].
    destruct (parseInt tradeQuantity <=? 0)%float eqn:G;
      [cbn [orb snd]; intros [H|H]; discriminate H|]. cbn [orb].
    destruct (negb _); [cbn [snd]; intros [H|H]; discriminate H|].
    destruct (cash p <? _)%float; [cbn [snd]; intros [H|H]; discriminate H|].
    destruct (stocks p !! _); cbn [snd]; intros [H|H]; try discriminate H;
      injection H as <- _ _; (split; [reflexivity | now apply accepted_quantity]).
  - unfold sellStock.
    destruct (is_empty _); [cbn [orb snd]; intros [H|H]; discriminate H|].
    destruct (parseInt tradeQuantity <=? 0)%float eqn:G;
      [cbn [orb snd]; intros [H|H]; discriminate H|]. cbn [orb].
    destruct (stocks p !! _) as [h|]; [|cbn [snd]; intros [H|H]; discriminate H].
    destruct (quantity h <? _)%float; [cbn [snd]; intros [H|H]; discriminate H|].
    destruct (negb _); cbn [snd]; intros [H|H]; try discriminate H.
    injection H as <- _ _. split; [reflexivity | now apply accepted_quantity].
Qed.

Lemma only_whole_shares_witness :
  (7 : float) = parseInt "7.9 shares" /\
  ((7 : float) = nan \/ (7 : float) = infinity \/ whole_shares 7).
Proof.
  exact (only_whole_shares Buy (quoting 100) "random" "7.9 shares" initial_portfolio
           7 100 "RANDOM" (or_introl eq_refl)).
Defined.

(** *** A Buy and then a Sell *)

Lemma real_zero_eqb (z : float) : real z = true -> FV z = 0%R -> (z =? 0)%float = true.
Proof.
  intros R E. rewrite FloatAxioms.eqb_spec, Prim2SF_zero.
  destruct (SFcompare_Rcmp (Prim2SF z) (S754_zero false)) as (c & C & H);
    trivial; try apply Prim2SF_valid.
  unfold SFeqb. rewrite C. unfold FV in E. cbn [B2R] in H.
  destruct c; cbn [Rcmp] in H; trivial; lra.
Qed.

Lemma sub_self (q : float) : real q = true -> (q - q =? 0)%float = true.
Proof.
  intros R.
  destruct (sub_between q q 0 0 R R) as (R' & [L U] & _).
  - float_value 0%float. lra.
  - apply real_zero_eqb; trivial. revert L U. float_value 0%float. lra.
Qed.

Lemma ltb_irrefl (q : float) : (q <? q)%float = false.
Proof.
  rewrite FloatAxioms.ltb_spec. unfold SFltb.
  destruct (Prim2SF q) as [s|s| |s m e] eqn:E; try (destruct s; reflexivity);
    [reflexivity|].
  rewrite SFcompare_refl by discriminate. reflexivity.
Qed.

(** X14: a Buy of a symbol that is not held, and then a Sell of the same
    quantity, leaves the holdings exactly as they were before the Buy: the
    holding that the Buy created is deleted.  (The quantity is a number;
    with the NaN of an empty field the holding would stay.) *)
Theorem buy_then_sell_restores (server1 server2 : string -> xhr)
    (tradeSymbol tradeQuantity : string) (p : portfolio) :
  let symbol := toUpperCase tradeSymbol in
  let q := parseInt tradeQuantity in
  let p1 := fst (buyStock server1 tradeSymbol tradeQuantity p) in
  let p2 := fst (sellStock server2 tradeSymbol tradeQuantity p1) in
  stocks p !! symbol = None ->
  failure (snd (buyStock server1 tradeSymbol tradeQuantity p)) = false ->
  real q = true ->
  truthy (fetchCurrentPrice server2 symbol) = true ->
  snd (sellStock server2 tradeSymbol tradeQuantity p1)
    = Sold q symbol (fetchCurrentPrice server2 symbol) /\
  stocks p2 = stocks p.
Proof.
  intros symbol q p1 p2 N B R T. subst p2 p1.
  destruct (ClientFacts.buy_ok_inv server1 tradeSymbol tradeQuantity p B)
    as (Hs & Hq & Hp & Hc).
  fold symbol q in Hs, Hq, Hp, Hc.
  rewrite (ClientFacts.buy_success server1 tradeSymbol tradeQuantity p Hs Hq Hp Hc).
  fold symbol q. rewrite N. cbn [fst].
  rewrite (ClientFacts.sell_success server2 tradeSymbol tradeQuantity _
             {| quantity := q; avg_price := fetchCurrentPrice server1 symbol;
                currentPrice := fetchCurrentPrice server1 symbol |});
    fold symbol q; trivial.
  - cbn [fst snd stocks quantity]. split; [reflexivity|].
    rewrite (sub_self q R). now apply delete_insert_id.
  - cbn [stocks]. apply lookup_insert_eq.
  - cbn [quantity]. apply ltb_irrefl.
Qed.

Lemma buy_then_sell_restores_witness :
  snd (sellStock (quoting 110) "random" "10"
         (fst (buyStock (quoting 100) "random" "10" initial_portfolio)))
    = Sold 10 "RANDOM" 110 /\
  stocks (fst (sellStock (quoting 110) "random" "10"
                 (fst (buyStock (quoting 100) "random" "10" initial_portfolio))))
    = stocks initial_portfolio.
Proof.
  exact (buy_then_sell_restores (quoting 100) (quoting 110) "random" "10"
           initial_portfolio eq_refl eq_refl eq_refl eq_refl).
Defined.

End QuantityFacts.

(** ** The average price and the server *)

Module AverageFacts.

Import Binary64 Py Server Wire WireFacts.

Lemma same_loop (a : float) (keys : list string) (stocks : gmap string Client.holding) :
  forall (hs hs' : list (string * value)) (total : value),
  json_stocks keys stocks = Some hs ->
  json_stocks keys
    ((fun h => {| Client.quantity := Client.quantity h;
                  Client.avg_price := a;
                  Client.currentPrice := Client.currentPrice h |}) <$> stocks) = Some hs' ->
  add_holdings total hs = add_holdings total hs'.
Proof.
  induction keys as [|k keys IH]; intros hs hs' total; cbn [json_stocks].
  - intros [= <-] [= <-]. reflexivity.
  - rewrite lookup_fmap. destruct (stocks !! k) as [h|]; cbn [fmap option_fmap option_map];
      [|apply IH].
    destruct (json_holding h) as [d|] eqn:D; [|discriminate].
    destruct (json_stocks keys stocks) as [r|]; [|discriminate].
    destruct (json_holding _) as [d'|] eqn:D' in |- *; [|discriminate].
    destruct (json_stocks keys _) as [r'|] eqn:R' in |- *; [|discriminate].
    intros [= <-] [= <-].
    apply json_holding_inv in D as (q & x & c & Eq & _ & Ec & ->).
    apply json_holding_inv in D' as (q' & x' & c' & Eq' & _ & Ec' & ->).
    cbn [Client.quantity Client.currentPrice] in Eq', Ec'.
    assert (q' = q) as -> by congruence. assert (c' = c) as -> by congruence.
    change (add_holdings total
              ((k, VDict [("quantity", q); ("avg_price", x); ("currentPrice", c)]) :: r))
      with (let* v := mul c q in let* total := iadd total v in add_holdings total r).
    change (add_holdings total
              ((k, VDict [("quantity", q); ("avg_price", x'); ("currentPrice", c)]) :: r'))
      with (let* v := mul c q in let* total := iadd total v in add_holdings total r').
    destruct (mul c q) as [v|e]; cbn [bind]; [|reflexivity].
    destruct (iadd total v) as [t|e]; cbn [bind]; [|reflexivity].
    now apply IH.
Qed.

(** X15: the average prices never enter the value that the server
    computes for a portfolio of the page.  The page sends a [currentPrice]
    with every holding, so the fallback to [avg_price] is never taken: with
    every average replaced by any number, the server computes the same
    value or raises the same exception. *)
Theorem average_not_counted (a : float) (keys : list string) (p : Client.portfolio)
    (body body' : value) :
  body_of keys p = Some body ->
  body_of keys (with_average a p) = Some body' ->
  compute_local_portfolio_value body = compute_local_portfolio_value body'.
Proof.
  intros E E'.
  apply body_of_inv in E as (c & hs & Ec & Es & ->).
  apply body_of_inv in E' as (c' & hs' & Ec' & Es' & ->).
  cbn [with_average Client.cash Client.stocks] in Ec', Es'.
  assert (c' = c) as -> by congruence.
  change (compute_local_portfolio_value (VDict [("cash", c); ("stocks", VDict hs)]))
    with (let* total := add_holdings c hs in round2 total).
  change (compute_local_portfolio_value (VDict [("cash", c); ("stocks", VDict hs')]))
    with (let* total := add_holdings c hs' in round2 total).
  now rewrite (same_loop a keys (Client.stocks p) hs hs' c Es Es').
Qed.

Lemma average_not_counted_witness :
  compute_local_portfolio_value
    (VDict [("cash", VInt 9000);
            ("stocks", VDict [("RANDOM", VDict [("quantity", VInt 10);
                                                ("avg_price", VInt 100);
                                                ("currentPrice", VInt 100)])])])
  = compute_local_portfolio_value
      (VDict [("cash", VInt 9000);
              ("stocks", VDict [("RANDOM", VDict [("quantity", VInt 10);
                                                  ("avg_price", VFloat 0.5);
                                                  ("currentPrice", VInt 100)])])]).
Proof.
  exact (average_not_counted 0.5 ["RANDOM"] Client.ten_at_100 _ _ eq_refl eq_refl).
Defined.

End AverageFacts.

(** ** Where the money goes *)

Module MoneyFacts.

Import JS Client Binary64 Binary64Facts FloatFacts Sign SignFacts QuantityFacts.

(** A sum is not below its first term when the second is not below
    zero. *)
Lemma SFadd_not_less (c t : spec_float) :
  valid_binary c = true -> SFfinite c = true -> valid_binary t = true ->
  t = S754_infinity false \/ (SFfinite t = true /\ (0 <= B2R t)%R) ->
  SFleb c (SFadd prec emax c t) = true.
Proof.
  intros Vc Fc Vt [->|[Ft Ht]].
  { destruct c as [s|s| |s m e]; try discriminate; destruct s; reflexivity. }
  destruct c as [sc|sc| |sc mc ec]; try discriminate;
    destruct t as [st|st| |st mt et]; try discriminate.
  - destruct sc, st; reflexivity.
  - cbn [SFadd]. destruct st; [|reflexivity].
    exfalso. cbn [B2R cond_Zopp] in Ht. change (Zneg mt) with (- Zpos mt) in Ht.
    rewrite F2R_opp in Ht. pose proof (F2R_pos mt et). lra.
  - cbn [SFadd]. unfold SFleb. rewrite SFcompare_refl by discriminate. reflexivity.
  - assert (st = false) as ->.
    { destruct st; [|reflexivity]. exfalso. cbn [B2R cond_Zopp] in Ht.
      change (Zneg mt) with (- Zpos mt) in Ht. rewrite F2R_opp in Ht.
      pose proof (F2R_pos mt et). lra. }
    pose proof (F2R_pos mt et) as Pt. pose proof (F2R_pos mc ec) as Pc.
    apply valid_finite_inv in Vc as Ic. destruct Ic as (_ & _ & Hec & _).
    apply valid_finite_inv in Vt as It. destruct It as (_ & _ & Het & _).
    cbn [SFadd].
    set (ez := Z.min ec et).
    set (S := cond_Zopp sc (Zpos (fst (shl_align mc ec ez)))
              + cond_Zopp false (Zpos (fst (shl_align mt et ez)))).
    assert (HS : F2R S ez = (B2R (S754_finite sc mc ec) + F2R (Zpos mt) et)%R).
    { unfold S. rewrite F2R_add, !aligned_value by (unfold ez; lia). reflexivity. }
    assert (Hez : -1074 <= ez) by (unfold ez; lia).
    destruct S as [|q|q]; cbn [binary_normalize].
    + apply SFleb_le; trivial. cbn [B2R] in *. unfold F2R at 1 in HS.
      rewrite Rmult_0_l in HS. lra.
    + rewrite binary_round_pack.
      pose proof (rnd_range q ez) as [R1 R3]. pose proof (fe_min q ez) as Hfe.
      destruct (pack_cases false _ _ R1 R3 Hfe) as [->|(V & F & B)].
      * destruct sc; reflexivity.
      * apply SFleb_le; trivial. rewrite B. cbn [cond_Zopp].
        apply (rnd_lower q ez (S754_finite sc mc ec) Vc). lra.
    + rewrite binary_round_pack.
      pose proof (rnd_range q ez) as [R1 R3]. pose proof (fe_min q ez) as Hfe.
      change (Zneg q) with (- Zpos q) in HS. rewrite F2R_opp in HS.
      pose proof (F2R_pos q ez) as Pq.
      assert (sc = true) as ->.
      { destruct sc; [reflexivity|]. exfalso. cbn [B2R cond_Zopp] in HS. lra. }
      cbn [B2R cond_Zopp] in HS. change (Zneg mc) with (- Zpos mc) in HS.
      rewrite F2R_opp in HS.
      assert (U : (F2R (rnd (Zpos q) ez (fexp64 (digits q + ez)))
                     (fexp64 (digits q + ez)) <= F2R (Zpos mc) ec)%R).
      { apply (rnd_upper q ez (S754_finite false mc ec) Vc). cbn [B2R cond_Zopp]. lra. }
      pose proof (valid_below_max (S754_finite false mc ec) Vc) as Mx.
      cbn [B2R cond_Zopp] in Mx. rewrite Rabs_pos_eq in Mx by lra.
      destruct (pack_spec true _ _ R1 R3 Hfe) as (V & F & B); [lra|].
      apply SFleb_le; trivial. rewrite B. cbn [B2R cond_Zopp].
      change (Zneg mc) with (- Zpos mc).
      rewrite !F2R_opp. lra.
Qed.

Local Open Scope float_scope.

Lemma sell_cash_up (c x y : float) :
  real c = true -> (0 <? x) = true -> (0 <? y) = true -> (c <=? c + x * y) = true.
Proof.
  unfold real. rewrite !FloatAxioms.ltb_spec, FloatAxioms.leb_spec, FloatAxioms.add_spec,
    Prim2SF_zero.
  intros Rc Hx Hy.
  apply SFadd_not_less; trivial; try apply Prim2SF_valid.
  rewrite FloatAxioms.mul_spec.
  apply SFmul_pos_shape; trivial; apply Prim2SF_valid.
Qed.

Lemma buy_cash_down (c x y : float) :
  real c = true -> (0 <? x) = true -> (0 <? y) = true -> (c <? x * y) = false ->
  (0 <=? c - x * y) = true /\ (c - x * y <=? c) = true.
Proof.
  intros Rc Hx Hy Hlt.
  destruct (mul_pos_covered c x y Rc Hx Hy Hlt) as (Rt & T0 & T1).
  destruct (sub_between c (x * y) 0 c Rc Rt) as (Rs & [L U] & _).
  - float_value 0. lra.
  - split; apply leb_le; trivial.
Qed.

(** X16: money moves one way.  From a finite cash, an accepted Buy at a
    price above zero leaves a cash that is not above what it was and not
    below zero, and an accepted Sell at a price above zero leaves a cash
    that is not below what it was (the roundings of the subtraction and of
    the addition cannot turn the direction). *)
Theorem money_moves_one_way (t : trade) (server : string -> xhr)
    (tradeSymbol tradeQuantity : string) (p : portfolio) :
  let symbol := toUpperCase tradeSymbol in
  let q := parseInt tradeQuantity in
  let px := fetchCurrentPrice server symbol in
  let p' := fst (run_trade t server tradeSymbol tradeQuantity p) in
  real (cash p) = true -> (0 <? px) = true -> (0 <? q) = true ->
  failure (snd (run_trade t server tradeSymbol tradeQuantity p)) = false ->
  match t with
  | Buy => (0 <=? cash p') = true /\ (cash p' <=? cash p) = true
  | Sell => (cash p <=? cash p') = true
  end.
Proof.
  intros symbol q px p' Rc Hp Hq A. subst p'. destruct t; cbn [run_trade] in *.
  - destruct (ClientFacts.buy_ok_inv server tradeSymbol tradeQuantity p A)
      as (Hs & Hq' & Hp' & Hc).
    rewrite (ClientFacts.buy_success server tradeSymbol tradeQuantity p Hs Hq' Hp' Hc).
    cbn [fst cash]. now apply buy_cash_down.
  - rewrite (ClientFacts.sell_ok_inv server tradeSymbol tradeQuantity p A).
    now apply sell_cash_up.
Qed.

Lemma money_moves_one_way_witness :
  (0 <=? cash (fst (buyStock (quoting 90.03) "random" "7" after_one_share))) = true /\
  (cash (fst (buyStock (quoting 90.03) "random" "7" after_one_share))
   <=? cash after_one_share) = true.
Proof.
  exact (money_moves_one_way Buy (quoting 90.03) "random" "7" after_one_share
           eq_refl eq_refl eq_refl eq_refl).
Defined.

End MoneyFacts.

(** ** A symbol without market data *)

Module UnknownFacts.

Import JS Client Py Server Wire PageFacts.

Section Routes.

Variable market : string -> period -> fetched.
Variable random : nat -> float.
Variable np_round2 : float -> float.

(** X17: a symbol for which the market-data library raises or has no
    data cannot be traded.  When the page's lookup gets the answer of the
    route [GET /get_stock_price/<symbol>] for such a symbol, a Buy and a
    Sell of it are refused and leave the portfolio as it was. *)
Theorem unknown_symbol_not_traded (t : trade) (server : string -> xhr)
    (tradeSymbol tradeQuantity : string) (p : portfolio) (st : state) :
  let symbol := toUpperCase tradeSymbol in
  symbol <> "RANDOM" ->
  fetch_failed (market symbol P1d) = true ->
  reply (fst (api_get_stock_price market random np_round2 symbol st))
    = Some (server symbol) ->
  fetchCurrentPrice server symbol = 0%float /\
  fst (run_trade t server tradeSymbol tradeQuantity p) = p /\
  failure (snd (run_trade t server tradeSymbol tradeQuantity p)) = true.
Proof.
  intros symbol Hne Hf A.
  assert (F : fetchCurrentPrice server symbol = 0%float).
  { unfold api_get_stock_price in A. subst symbol.
    rewrite toUpperCase_idem in A.
    apply String.eqb_neq in Hne. rewrite Hne in A. unfold fetch in A.
    unfold fetchCurrentPrice.
    destruct (market (toUpperCase tradeSymbol) P1d) as [e|[|row rows]];
      try discriminate; cbn in A; injection A as <-; reflexivity. }
  split; [exact F|].
  destruct t; cbn [run_trade].
  - unfold buyStock. fold symbol. rewrite F.
    destruct (_ || _); [now split|]. now split.
  - unfold sellStock. fold symbol. rewrite F.
    destruct (_ || _); [now split|].
    destruct (stocks p !! symbol) as [h|]; [|now split].
    destruct (quantity h <? _)%float; now split.
Qed.

End Routes.

Lemma unknown_symbol_not_traded_witness :
  fetchCurrentPrice (quoting 0) "AAPL" = 0%float /\
  fst (buyStock (quoting 0) "aapl" "1" initial_portfolio) = initial_portfolio /\
  failure (snd (buyStock (quoting 0) "aapl" "1" initial_portfolio)) = true.
Proof.
  exact (unknown_symbol_not_traded failing_market half round2_float Buy (quoting 0)
           "aapl" "1" initial_portfolio initial
           ltac:(discriminate) eq_refl eq_refl).
Defined.

End UnknownFacts.
